(** * X-EISD parser: a shallow embedding of [xeisd/components/parser.py]

    The development follows the Python module function by function.
    Text is a [string] of code points below 256, a file is the list of
    lines that [readlines] returns, a Python [dict] with string keys is a
    [gmap string _] (an association list where the iteration order is
    observable), and a raised exception is the [Raise] branch of [result].

    Everything the module imports from outside the repository (the float
    constructor, [ast.literal_eval], [json.load], pandas' readers) is
    gathered in the class [Externals]; the constants it imports from
    [xeisd.components] are gathered in the class [Registry]. *)

From Stdlib Require Import ZArith Ascii String List.
From stdpp Require Import base option list strings gmap fin_maps.

Local Open Scope string_scope.
Local Open Scope list_scope.
Set Warnings "-register-all,-clear-no-such-hyp".

(** ** Exceptions and results *)

(** The subclasses of Python's [Exception] that the module can meet.
    [LibraryError] stands for any other [Exception] subclass raised by a
    library, named by its class. *)
Inductive exn : Type :=
| TypeError
| IndexError
| ValueError
| UnboundLocalError
| KeyError
| AttributeError
| FileNotFoundError
| SyntaxError
| LibraryError (cls : string).

Inductive result (A : Type) : Type :=
| Ok (a : A)
| Raise (e : exn).
Arguments Ok {A} a.
Arguments Raise {A} e.

#[global] Instance result_ret : MRet result := λ A a, Ok a.
#[global] Instance result_bind : MBind result := λ A B f r,
  match r with
  | Ok a => f a
  | Raise e => Raise e
  end.

#[global] Instance result_fmap : FMap result := λ A B f r,
  match r with
  | Ok a => Ok (f a)
  | Raise e => Raise e
  end.

(** [l[i]] on a Python list. *)
Definition getitem {A} (l : list A) (i : nat) : result A :=
  match l !! i with
  | Some a => Ok a
  | None => Raise IndexError
  end.

(** Reading a local variable that may not have been assigned yet. *)
Definition local {A} (v : option A) : result A :=
  match v with
  | Some a => Ok a
  | None => Raise UnboundLocalError
  end.

(** ** Python text operations *)

(** [str.isspace] on the code points below 256. *)
Definition isspace (c : ascii) : bool :=
  let n := nat_of_ascii c in
  (((9 <=? n) && (n <=? 13)) || ((28 <=? n) && (n <=? 32))
   || (n =? 133) || (n =? 160))%nat.

Definition flush (tok : string) : list string :=
  match tok with
  | EmptyString => []
  | _ => [tok]
  end.

(** [s.split()]: the maximal runs of characters that are not white
    space; [tok] is the run being read. *)
Fixpoint split_ws_from (tok s : string) : list string :=
  match s with
  | EmptyString => flush tok
  | String c s' =>
      if isspace c then flush tok ++ split_ws_from "" s'
      else split_ws_from (tok +:+ String c "") s'
  end.

Definition split_ws (s : string) : list string := split_ws_from "" s.

(** [s.split(sep)] for a separator of one character. *)
Fixpoint split_on (sep : ascii) (s : string) : list string :=
  match s with
  | EmptyString => [""]
  | String c s' =>
      if Ascii.eqb c sep then "" :: split_on sep s'
      else match split_on sep s' with
           | h :: t => String c h :: t
           | [] => [String c ""]
           end
  end.

(** [c in s] for a single character. *)
Fixpoint contains (c : ascii) (s : string) : bool :=
  match s with
  | EmptyString => false
  | String c' s' => Ascii.eqb c' c || contains c s'
  end.

Fixpoint lstrip (s : string) : string :=
  match s with
  | EmptyString => ""
  | String c s' => if isspace c then lstrip s' else s
  end.

Fixpoint rstrip (s : string) : string :=
  match s with
  | EmptyString => ""
  | String c s' =>
      match rstrip s' with
      | EmptyString => if isspace c then "" else String c ""
      | r => String c r
      end
  end.

Definition strip (s : string) : string := rstrip (lstrip s).

(** ** Python values *)

(** The values that flow through the module; [F] is the type of floats. *)
Inductive pyval (F : Type) : Type :=
| VNone
| VBool (b : bool)
| VInt (z : Z)
| VFloat (x : F)
| VStr (s : string)
| VList (l : list (pyval F))
| VDict (items : list (pyval F * pyval F)).
Arguments VNone {F}.
Arguments VBool {F} b.
Arguments VInt {F} z.
Arguments VFloat {F} x.
Arguments VStr {F} s.
Arguments VList {F} l.
Arguments VDict {F} items.

Inductive pytype : Type :=
| TNoneType | TBool | TInt | TFloat | TStr | TList | TDict.

(** [type(v)]. *)
Definition type_of {F} (v : pyval F) : pytype :=
  match v with
  | VNone => TNoneType
  | VBool _ => TBool
  | VInt _ => TInt
  | VFloat _ => TFloat
  | VStr _ => TStr
  | VList _ => TList
  | VDict _ => TDict
  end.

(** [a is b] on two of the built-in types above. *)
Definition type_is (a b : pytype) : bool :=
  match a, b with
  | TNoneType, TNoneType | TBool, TBool | TInt, TInt | TFloat, TFloat
  | TStr, TStr | TList, TList | TDict, TDict => true
  | _, _ => false
  end.

(** [isinstance(v, float)]: no other type above derives from [float]. *)
Definition isinstance_float {F} (v : pyval F) : bool :=
  type_is (type_of v) TFloat.

(** [v == s] for a string [s]. *)
Definition eq_str {F} (v : pyval F) (s : string) : bool :=
  match v with
  | VStr s' => bool_decide (s' = s)
  | _ => false
  end.

(** A pandas table, kept as its named columns. *)
Record DataFrame (F : Type) : Type := Frame {
  df_cols : gmap string (list (pyval F))
}.
Arguments Frame {F} df_cols.
Arguments df_cols {F} d.

(** *** class Stack

    The container of one modality: its name, its table, and the two
    uncertainty parameters, [VNone] where the module passes [None]. *)
Record StackOf (F : Type) : Type := mkStack {
  name : string;
  data : DataFrame F;
  sigma : pyval F;
  mu : pyval F
}.
Arguments mkStack {F} name data sigma mu.
Arguments name {F} s.
Arguments data {F} s.
Arguments sigma {F} s.
Arguments mu {F} s.

(** ** What the module imports *)

(** Python's and pandas' own functions.  [readlines] has already been
    applied to whatever a reader receives. *)
Class Externals : Type := {
  F : Type;
  (** the float literal [0.0] *)
  float_zero : F;
  (** [float(s)] on text: [None] when it raises [ValueError] *)
  float_of_str : string → option F;
  (** [float(n)] on an integer *)
  float_of_int : Z → result F;
  (** [ast.literal_eval(s)] *)
  literal_eval : string → result (pyval F);
  (** [json.load(f)] *)
  json_load : list string → result (pyval F);
  (** [pd.read_csv(f, delimiter=',')] *)
  read_csv : list string → result (DataFrame F);
  (** [pd.DataFrame(raw, index=[0]).T] *)
  frame_of_scalars : pyval F → result (DataFrame F);
  (** [pd.DataFrame(raw).T] *)
  frame_of_records : pyval F → result (DataFrame F)
}.

(** The names imported from [xeisd.components]. *)
Class Registry `{Externals} : Type := {
  saxs_name : string;
  cs_name : string;
  fret_name : string;
  jc_name : string;
  noe_name : string;
  pre_name : string;
  rdc_name : string;
  rh_name : string;
  exp_idx : string;
  exp_val : string;
  exp_err : string;
  exp_atmID : string;
  exp_dist_val : string;
  exp_max : string;
  exp_min : string;
  parse_mode_exp : string;
  jc_bc_mu : pyval F;
  (** the object that the global name [default_bc_errors] is bound to *)
  default_bc_errors : nat
}.

(** ** The module *)

Abbreviation value := (pyval F).
Abbreviation frame := (DataFrame F).
Abbreviation Stack := (StackOf F).

(** The dict objects of the process, by address.  A name bound to a dict
    holds its address, so two names can share one object. *)
Abbreviation heap := (gmap nat (gmap string value)).

Section Parser.
Context `{Reg : Registry}.

(** [float(v)]. *)
Definition py_float (v : value) : result F :=
  match v with
  | VFloat x => Ok x
  | VStr s =>
      match float_of_str s with
      | Some x => Ok x
      | None => Raise ValueError
      end
  | VInt z => float_of_int z
  | VBool b => float_of_int (Z.b2z b)
  | VNone | VList _ | VDict _ => Raise TypeError
  end.

(** A dict display [{k1: v1, ..., kn: vn}]: later items overwrite. *)
Definition dict_display {A} (items : list (string * A)) : gmap string A :=
  foldl (λ m kv, <[kv.1 := kv.2]> m) ∅ items.

Definition same_length {A} (cols : list (string * list A)) : bool :=
  match cols with
  | [] => true
  | (_, c) :: rest =>
      forallb (λ kv, Nat.eqb (length kv.2) (length c)) rest
  end.

(** [pd.DataFrame(d)] for a dict of lists, given as a display: pandas
    raises [ValueError] when the lists differ in length. *)
Definition pd_DataFrame (items : list (string * list value)) : result frame :=
  if same_length items then Ok (Frame (dict_display items))
  else Raise ValueError.

(** [pd.DataFrame(dtype=float)]. *)
Definition empty_frame : frame := Frame ∅.

(** A list index as a Python [int]. *)
Definition py_int (n : nat) : value := VInt (Z.of_nat n).

(** [range(a, b)]. *)
Definition py_range (a b : nat) : list nat := seq a (b - a).

(** The files that can be opened, each with what [readlines] gives. *)
Definition filesystem : Type := string → option (list string).

(** [open(fpath)] followed by [f.readlines()]. *)
Definition readlines (fs : filesystem) (fpath : string) : result (list string) :=
  match fs fpath with
  | Some lines => Ok lines
  | None => Raise FileNotFoundError
  end.

(** *** The dialect test that opens each parser

    [first = lines[0].split(','); if first[0] == exp_idx: raise TypeError] *)
Definition dialect_guard (lines : list string) : result unit :=
  line0 ← getitem lines 0;
  first0 ← getitem (split_on "," line0) 0;
  if decide (first0 = exp_idx) then Raise TypeError else Ok ().

(** [lines[0].split(',')[0]], when the file has a first line. *)
Definition first0 (lines : list string) : option string :=
  line0 ← lines !! 0; split_on "," line0 !! 0.

(** *** parse_saxs_data *)

(** The [for line in lines] loop on the accumulators
    [(index, value, error)]. *)
Fixpoint saxs_rows (lines : list string)
    (acc : list value * list value * list value)
    : result (list value * list value * list value) :=
  match lines with
  | [] => Ok acc
  | line :: rest =>
      let '(index, val, error) := acc in
      let splitted : list value := VStr <$> split_ws line in
      s0 ← getitem splitted 0;
      if type_is (type_of s0) TFloat then
        s1 ← getitem splitted 1;
        s2 ← getitem splitted 2;
        saxs_rows rest (index ++ [s0], val ++ [s1], error ++ [s2])
      else saxs_rows rest acc
  end.

Definition saxs_of_lines (lines : list string) : result frame :=
  _ ← dialect_guard lines;
  '(index, val, error) ← saxs_rows lines ([], [], []);
  pd_DataFrame [(exp_idx, index); (exp_val, val); (exp_err, error)].

Definition parse_saxs_data (fs : filesystem) (fpath : string) : result frame :=
  lines ← readlines fs fpath;
  saxs_of_lines lines.

(** *** The header scan of the two NMR-STAR parsers *)

(** The locals that the scan may or may not bind. *)
Record offsets : Type := mkOffsets {
  data_idx : option nat;
  error_idx : option nat;
  atom_idx : option nat;
  max_idx : option nat;
  min_idx : option nat;
  start_idx : option nat
}.

Definition no_offsets : offsets := mkOffsets None None None None None None.

Definition set_data_idx (i : nat) (o : offsets) : offsets :=
  mkOffsets (Some i) (error_idx o) (atom_idx o) (max_idx o) (min_idx o) (start_idx o).
Definition set_error_idx (i : nat) (o : offsets) : offsets :=
  mkOffsets (data_idx o) (Some i) (atom_idx o) (max_idx o) (min_idx o) (start_idx o).
Definition set_atom_idx (i : nat) (o : offsets) : offsets :=
  mkOffsets (data_idx o) (error_idx o) (Some i) (max_idx o) (min_idx o) (start_idx o).
Definition set_max_idx (i : nat) (o : offsets) : offsets :=
  mkOffsets (data_idx o) (error_idx o) (atom_idx o) (Some i) (min_idx o) (start_idx o).
Definition set_min_idx (i : nat) (o : offsets) : offsets :=
  mkOffsets (data_idx o) (error_idx o) (atom_idx o) (max_idx o) (Some i) (start_idx o).
Definition set_start_idx (i : nat) (o : offsets) : offsets :=
  mkOffsets (data_idx o) (error_idx o) (atom_idx o) (max_idx o) (min_idx o) (Some i).

(** [line.split(".")[1].strip()] *)
Definition field_name (line : string) : result string :=
  f ← getitem (split_on "." line) 1;
  Ok (strip f).

(** [for i, line in enumerate(lines)], entered at offset [i]: a line
    with an underscore declares a field, which [bind] records by the
    parser's own [if] chain; the first line without one starts the data. *)
Fixpoint header_scan (bind : string → nat → offsets → offsets) (i : nat)
    (lines : list string) (o : offsets) : result offsets :=
  match lines with
  | [] => Ok o
  | line :: rest =>
      if contains "_" line then
        dtype ← field_name line;
        header_scan bind (S i) rest (bind dtype i o)
      else Ok (set_start_idx i o)
  end.

(** *** parse_cs_data *)

Definition cs_bind (dtype : string) (i : nat) (o : offsets) : offsets :=
  if decide (dtype = "Val") then set_data_idx i o
  else if decide (dtype = "Val_err") then set_error_idx i o
  else if decide (dtype = "Atom_ID") then set_atom_idx i o
  else o.

(** [for idx in range(start_idx, len(lines))] on the accumulators
    [(index, atoms, values, errors)]; the closing [idx += 1] is
    overwritten by the next turn of the loop. *)
Fixpoint cs_rows (o : offsets) (lines : list string) (idxs : list nat)
    (acc : list value * list value * list value * list value)
    : result (list value * list value * list value * list value) :=
  match idxs with
  | [] => Ok acc
  | idx :: rest =>
      let '(index, atoms, values, errors) := acc in
      line ← getitem lines idx;
      let splitted := split_ws line in
      let index := index ++ [py_int idx] in
      a ← local (atom_idx o);
      atom ← getitem splitted a;
      let atoms := atoms ++ [VStr atom] in
      d ← local (data_idx o);
      v ← getitem splitted d;
      x ← py_float (VStr v);
      let values := values ++ [VFloat x] in
      e ← local (error_idx o);
      v ← getitem splitted e;
      y ← py_float (VStr v);
      let errors := errors ++ [VFloat y] in
      cs_rows o lines rest (index, atoms, values, errors)
  end.

Definition cs_of_lines (lines : list string) : result frame :=
  _ ← dialect_guard lines;
  o ← header_scan cs_bind 0 lines no_offsets;
  start ← local (start_idx o);
  '(index, atoms, values, errors) ←
    cs_rows o lines (py_range start (length lines)) ([], [], [], []);
  pd_DataFrame [(exp_idx, index); (exp_atmID, atoms);
                (exp_val, values); (exp_err, errors)].

Definition parse_cs_data (fs : filesystem) (fpath : string) : result frame :=
  lines ← readlines fs fpath;
  cs_of_lines lines.

(** *** parse_nmrstar_data *)

(** [type == noe_name or type == pre_name]; [type] defaults to [None]. *)
Definition is_noe_pre (type : option string) : bool :=
  bool_decide (type = Some noe_name) || bool_decide (type = Some pre_name).

Definition nmrstar_bind (type : option string) (dtype : string) (i : nat)
    (o : offsets) : offsets :=
  let o :=
    if decide (dtype = "Val") then set_data_idx i o
    else if decide (dtype = "Val_err") then set_error_idx i o
    else o in
  if is_noe_pre type then
    if decide (dtype = "Val_max") then set_max_idx i o
    else if decide (dtype = "Val_min") then set_min_idx i o
    else o
  else o.

(** [if max == ".": max = 0.0], then [float(max)] when it is appended. *)
Definition bound (tok : string) : value :=
  if decide (tok = ".") then VFloat float_zero else VStr tok.

(** The row loop on [(index, values, upper, lower, errors)]. *)
Fixpoint nmrstar_rows (type : option string) (o : offsets)
    (lines : list string) (idxs : list nat)
    (acc : list value * list value * list value * list value * list value)
    : result (list value * list value * list value * list value * list value) :=
  match idxs with
  | [] => Ok acc
  | idx :: rest =>
      let '(index, values, upper, lower, errors) := acc in
      line ← getitem lines idx;
      let splitted := split_ws line in
      let index := index ++ [py_int idx] in
      d ← local (data_idx o);
      v ← getitem splitted d;
      x ← py_float (VStr v);
      let values := values ++ [VFloat x] in
      e ← local (error_idx o);
      v ← getitem splitted e;
      y ← py_float (VStr v);
      let errors := errors ++ [VFloat y] in
      if is_noe_pre type then
        mx ← local (max_idx o);
        max ← getitem splitted mx;
        mn ← local (min_idx o);
        min ← getitem splitted mn;
        u ← py_float (bound max);
        l ← py_float (bound min);
        nmrstar_rows type o lines rest
          (index, values, upper ++ [VFloat u], lower ++ [VFloat l], errors)
      else nmrstar_rows type o lines rest (index, values, upper, lower, errors)
  end.

(** [u] is the number that the bound token [tok] stands for. *)
Definition bound_value (tok : string) (u : F) : Prop :=
  (tok = "." → u = float_zero) ∧ (tok ≠ "." → float_of_str tok = Some u).

(** Line [idx] of the file has the token [tok] at the position [oi]. *)
Definition token_at (lines : list string) (oi : option nat) (idx : nat)
    (tok : string) : Prop :=
  ∃ line i, lines !! idx = Some line ∧ oi = Some i ∧ split_ws line !! i = Some tok.

Definition nmrstar_of_lines (lines : list string) (type : option string)
    : result frame :=
  _ ← dialect_guard lines;
  o ← header_scan (nmrstar_bind type) 0 lines no_offsets;
  start ← local (start_idx o);
  '(index, values, upper, lower, errors) ←
    nmrstar_rows type o lines (py_range start (length lines))
      ([], [], [], [], []);
  if is_noe_pre type then
    pd_DataFrame [(exp_idx, index); (exp_dist_val, values); (exp_max, upper);
                  (exp_min, lower); (exp_err, errors)]
  else pd_DataFrame [(exp_idx, index); (exp_val, values); (exp_err, errors)].

Definition parse_nmrstar_data (fs : filesystem) (fpath : string)
    (type : option string) : result frame :=
  lines ← readlines fs fpath;
  nmrstar_of_lines lines type.

(** *** Well-formed files of the stripped dialect

    The shape that the parsers expect: [start] declaration lines, each
    with an underscore and a field name after its first dot, then data
    lines whose tokens stand at the offsets of the declarations. *)

(** The first comma-split token is not the index header, lines
    [0 .. start - 1] declare fields and line [start] is a data line. *)
Definition stripped (lines : list string) (start : nat) : Prop :=
  (∃ t, first0 lines = Some t ∧ t ≠ exp_idx)
  ∧ (∀ j line, j < start → lines !! j = Some line →
       contains "_" line = true ∧ ∃ f, field_name line = Ok f)
  ∧ (∃ line, lines !! start = Some line ∧ contains "_" line = false).

(** Line [i] is the last of the [start] declarations that names [fld]. *)
Definition declares (lines : list string) (start : nat) (fld : string)
    (i : nat) : Prop :=
  i < start
  ∧ (∃ line, lines !! i = Some line ∧ field_name line = Ok fld)
  ∧ (∀ j line, i < j → j < start → lines !! j = Some line →
       field_name line ≠ Ok fld).

(** From line [start] on, every line has at position [i] a token that
    satisfies [P]. *)
Definition column_of (lines : list string) (start i : nat)
    (P : string → Prop) : Prop :=
  ∀ idx line, (start ≤ idx)%nat → lines !! idx = Some line →
    ∃ tok, split_ws line !! i = Some tok ∧ P tok.

(** Line [idx] has, at each listed position, a token of the listed kind. *)
Definition readable (lines : list string) (idx : nat)
    (cols : list (nat * (string → Prop))) : Prop :=
  ∃ line, lines !! idx = Some line
          ∧ Forall (λ c, ∃ tok, split_ws line !! c.1 = Some tok ∧ c.2 tok) cols.

Definition numeric (tok : string) : Prop := is_Some (float_of_str tok).

Definition numeric_or_open (tok : string) : Prop :=
  tok = "." ∨ is_Some (float_of_str tok).

(** A NOE or PRE file: value, error and the two bounds, where a bound
    may be left open with the placeholder. *)
Definition bounds_well_formed (lines : list string) : Prop :=
  ∃ start d e mx mn,
    stripped lines start
    ∧ declares lines start "Val" d
    ∧ declares lines start "Val_err" e
    ∧ declares lines start "Val_max" mx
    ∧ declares lines start "Val_min" mn
    ∧ column_of lines start d numeric
    ∧ column_of lines start e numeric
    ∧ column_of lines start mx numeric_or_open
    ∧ column_of lines start mn numeric_or_open.

(** *** parse_bc_errors *)

(** The dict stored at [l]. *)
Definition deref (h : heap) (l : nat) : gmap string value := h !!! l.

(** [d[k] = v] on the dict at [l]. *)
Definition setitem (h : heap) (l : nat) (k : string) (v : value) : heap :=
  <[l := <[k := v]> (deref h l)]> h.

(** [for line in lines] of the merger; [custom] is the address held by
    [custom_bc_errors].  What was stored before an exception stays. *)
Fixpoint bc_errors_lines (custom : nat) (lines : list string) (h : heap)
    : heap * result unit :=
  match lines with
  | [] => (h, Ok ())
  | line :: rest =>
      let splitted := split_ws line in
      match (tok ← getitem splitted 1; py_float (VStr tok)) with
      | Ok x =>
          match getitem splitted 0 with
          | Ok k => bc_errors_lines custom rest (setitem h custom k (VFloat x))
          | Raise e => (h, Raise e)
          end
      | Raise ValueError =>
          match (tok ← getitem splitted 1; literal_eval tok) with
          | Ok dictconv =>
              match getitem splitted 0 with
              | Ok k => bc_errors_lines custom rest (setitem h custom k dictconv)
              | Raise e => (h, Raise e)
              end
          | Raise e => (h, Raise e)
          end
      | Raise e => (h, Raise e)
      end
  end.

(** [custom_bc_errors = default_bc_errors] binds a second name to the
    same object; the function returns that name's address. *)
Definition parse_bc_errors (fs : filesystem) (fpath : string) (h : heap)
    : heap * result nat :=
  let custom_bc_errors := default_bc_errors in
  match readlines fs fpath with
  | Ok lines =>
      match bc_errors_lines custom_bc_errors lines h with
      | (h', Ok _) => (h', Ok custom_bc_errors)
      | (h', Raise e) => (h', Raise e)
      end
  | Raise e => (h, Raise e)
  end.

(** The key and the value that a line of the override file holds: the
    number its second token spells or, failing that, the literal. *)
Definition stores (line k : string) (v : value) : Prop :=
  ∃ tok, split_ws line !! 0 = Some k ∧ split_ws line !! 1 = Some tok
         ∧ match float_of_str tok with
           | Some x => v = VFloat x
           | None => literal_eval tok = Ok v
           end.

(** *** parse_data *)

(** [pd.read_csv(fpath, delimiter=',')]. *)
Definition pd_read_csv (fs : filesystem) (fpath : string) : result frame :=
  lines ← readlines fs fpath;
  read_csv lines.

(** How the [try] block of the experimental loop ends when nothing is
    raised: [data] was assigned, or [parsed[module]] was stored and the
    loop continued, or no branch was taken. *)
Inductive dispatched : Type :=
| Assigned (d : frame)
| Stored (s : Stack)
| Untouched.

Definition exp_try (fs : filesystem) (module fpath : string) : result dispatched :=
  if decide (module = saxs_name) then
    Assigned <$> parse_saxs_data fs fpath
  else if decide (module = cs_name) then
    Assigned <$> parse_cs_data fs fpath
  else if decide (module = fret_name) then
    d ← pd_read_csv fs fpath; Ok (Stored (mkStack module d VNone VNone))
  else if decide (module = jc_name) then
    Assigned <$> parse_nmrstar_data fs fpath None
  else if decide (module = noe_name) then
    Assigned <$> parse_nmrstar_data fs fpath (Some noe_name)
  else if decide (module = pre_name) then
    Assigned <$> parse_nmrstar_data fs fpath (Some pre_name)
  else if decide (module = rdc_name) then
    Assigned <$> parse_nmrstar_data fs fpath None
  else if decide (module = rh_name) then
    d ← pd_read_csv fs fpath; Ok (Stored (mkStack module d VNone VNone))
  else Ok Untouched.

(** One turn of [for module in filenames] in experimental mode, on the
    locals [(parsed, data)]. *)
Definition exp_step (fs : filesystem) (st : gmap string Stack * frame)
    (entry : string * string) : result (gmap string Stack * frame) :=
  let '(parsed, data) := st in
  let '(module, fpath) := entry in
  match exp_try fs module fpath with
  | Ok (Stored s) => Ok (<[module := s]> parsed, data)
  | Ok (Assigned d) => Ok (<[module := mkStack module d VNone VNone]> parsed, d)
  | Ok Untouched => Ok (<[module := mkStack module data VNone VNone]> parsed, data)
  | Raise TypeError =>
      d ← pd_read_csv fs fpath;
      Ok (<[module := mkStack module d VNone VNone]> parsed, d)
  | Raise e => Raise e
  end.

Fixpoint exp_loop (fs : filesystem) (filenames : list (string * string))
    (st : gmap string Stack * frame) : result (gmap string Stack * frame) :=
  match filenames with
  | [] => Ok st
  | entry :: rest => st' ← exp_step fs st entry; exp_loop fs rest st'
  end.

(** [del raw[k]]. *)
Definition py_del (raw : value) (k : string) : result value :=
  match raw with
  | VDict items =>
      if existsb (λ kv, eq_str kv.1 k) items
      then Ok (VDict (List.filter (λ kv, negb (eq_str kv.1 k)) items))
      else Raise KeyError
  | _ => Raise TypeError
  end.

(** [list(raw.items())]. *)
Definition py_items (raw : value) : result (list (value * value)) :=
  match raw with
  | VDict items => Ok items
  | _ => Raise AttributeError
  end.

(** [d[k]] on a dict. *)
Definition py_lookup {A} (d : gmap string A) (k : string) : result A :=
  match d !! k with
  | Some v => Ok v
  | None => Raise KeyError
  end.

(** The [try] block of the back-calculated loop. *)
Definition bc_try (fs : filesystem) (bc_errors : gmap string value)
    (module fpath : string) : result Stack :=
  lines ← readlines fs fpath;
  raw ← json_load lines;
  raw ← (if bool_decide (module = pre_name) || bool_decide (module = noe_name)
         then py_del raw "format" else Ok raw);
  items ← py_items raw;
  item0 ← getitem items 0;
  d ← (if isinstance_float item0.2 then frame_of_scalars raw
       else frame_of_records raw);
  if decide (module = jc_name) then
    s ← py_lookup bc_errors module; Ok (mkStack module d s jc_bc_mu)
  else
    s ← py_lookup bc_errors module; Ok (mkStack module d s VNone).

(** The exception that the [try] block raises for an entry, if any. *)
Definition failure (fs : filesystem) (bc_errors : gmap string value)
    (entry : string * string) : option exn :=
  match bc_try fs bc_errors entry.1 entry.2 with
  | Ok _ => None
  | Raise e => Some e
  end.

(** One turn of the back-calculated loop, on [(parsed, errlogs)]. *)
Definition bc_step (fs : filesystem) (bc_errors : gmap string value)
    (st : gmap string Stack * list exn) (entry : string * string)
    : gmap string Stack * list exn :=
  let '(parsed, errlogs) := st in
  let '(module, fpath) := entry in
  match bc_try fs bc_errors module fpath with
  | Ok s => (<[module := s]> parsed, errlogs)
  | Raise e => (parsed, errlogs ++ [e])
  end.

(** [filenames] lists the items of the dict in the order in which [for]
    visits its keys; [bc_errors] is the dict that the argument refers to. *)
Definition parse_data (fs : filesystem) (filenames : list (string * string))
    (mode : string) (bc_errors : gmap string value)
    : result (gmap string Stack * list exn) :=
  let parsed : gmap string Stack := ∅ in
  let errlogs : list exn := [] in
  let data := empty_frame in
  if decide (mode = parse_mode_exp) then
    '(parsed, _) ← exp_loop fs filenames (parsed, data);
    Ok (parsed, errlogs)
  else
    Ok (foldl (bc_step fs bc_errors) (parsed, errlogs) filenames).

End Parser.

(** ** Vocabulary of the further properties *)

Section Vocabulary.
Context `{Reg : Registry}.


(** The token of line [idx] at position [oi] spells the number [x]. *)
Definition number_at (lines : list string) (oi : option nat) (idx : nat)
    (x : F) : Prop :=
  ∃ tok, token_at lines oi idx tok ∧ float_of_str tok = Some x.

(** A position that the scan has recorded for [fld] is the offset of a
    line that declares [fld]. *)
Definition declared_at (lines : list string) (oi : option nat)
    (fld : string) : Prop :=
  ∀ i, oi = Some i →
    ∃ line, lines !! i = Some line ∧ field_name line = Ok fld.

End Vocabulary.

(** * The scoring command: [xeisd/clis/cli_score.py]

    [main] calls the logger, idpconfgen's readers, [meta_data], the
    optimizer and [shutil]; none of them is part of the two modules
    embedded here.  Each is a function on a world [W] that the embedding
    leaves open, and the run of [main] keeps the list of the calls it has
    made, each with the way it ended. *)

(** [S(text)] and [T(text)] of [xeisd.logger]. *)
Inductive message : Type :=
| msg_S (text : string)
| msg_T (text : string).

(** The calls of [main], with the arguments that matter to them. *)
Inductive call : Type :=
| Cinit_files
| Clog_info (m : message)
| Cextract_from_tar (pdb_files tmpdir : string)
| Cread_path_bundle (pdb_files : string)
| CStructure (pdb : string)
| Cmeta_data (exp_files : string)
| Cparse_data (mode : string)
| CXEISD (ens_size nres : nat)
| Cpool_function (epochs ens_size ncores : nat)
| Crmtree (tmpdir : string).

Inductive outcome : Type :=
| Returned
| Raised (e : exn).

#[global] Instance exn_eq_dec : EqDecision exn.
Proof. solve_decision. Defined.

#[global] Instance message_eq_dec : EqDecision message.
Proof. solve_decision. Defined.

#[global] Instance call_eq_dec : EqDecision call.
Proof. solve_decision. Defined.

#[global] Instance outcome_eq_dec : EqDecision outcome.
Proof. solve_decision. Defined.

Definition outcome_of {A} (r : result A) : outcome :=
  match r with
  | Ok _ => Returned
  | Raise e => Raised e
  end.

Abbreviation trace := (list (call * outcome)).

(** A path argument is [None], a [str] or a [Path], the last two given by
    their text.  [if arg:] holds of a text that is not empty. *)
Definition truthy (arg : option string) : bool :=
  match arg with
  | Some text => bool_decide (text ≠ "")
  | None => false
  end.

(** [d[k]] on a dict given by its items. *)
Fixpoint dict_getitem {V} (d : list (string * V)) (k : string) : result V :=
  match d with
  | [] => Raise KeyError
  | (k', v) :: d => if decide (k' = k) then Ok v else dict_getitem d k
  end.

(** What [main] imports.  [disk] and [dicts] are the disk and the dict
    objects as the parser meets them in a world; [Structure_residues pdb]
    is [s = Structure(pdb); s.build(); len(s.residues)]; [meta_data]
    returns the mapping of each mode to its files, and the messages;
    [is_OSError cls] tells whether the library class [cls] derives from
    [OSError]. *)
Class Collaborators `{Reg : Registry} (W : Type) : Type := {
  parse_mode_back : string;
  disk : W → filesystem;
  dicts : W → heap;
  init_files : W → W * result unit;
  log_info : message → W → W;
  extract_from_tar : string → string → W → W * result (list string);
  read_path_bundle : string → W → W * result (list string);
  Structure_residues : string → W → W * result nat;
  meta_data : string → W →
    W * result (list (string * list (string * string)) * list string);
  scorer : Type;
  XEISD : gmap string Stack * list exn → gmap string Stack * list exn →
    nat → nat → W → W * result scorer;
  pool_function : scorer → nat → nat → nat → W → W * result unit;
  rmtree : string → W → W * result unit;
  is_OSError : string → bool
}.

Section Cli.
Context `{Col : Collaborators W}.

(** A piece of [main]: from the world and the calls made so far to the
    world and the calls made after it, with its value or its exception. *)
Definition action (A : Type) : Type := W * trace → (W * trace) * result A.

Definition ret {A} (a : A) : action A := λ st, (st, Ok a).

Definition lift {A} (r : result A) : action A := λ st, (st, r).

Definition bind {A B} (m : action A) (k : A → action B) : action B :=
  λ st,
    match m st with
    | (st', Ok a) => k a st'
    | (st', Raise e) => (st', Raise e)
    end.

(** [try: m], with the exception at hand for the [except] clauses. *)
Definition attempt {A} (m : action A) : action (result A) :=
  λ st, let '(st', r) := m st in (st', Ok r).

#[local] Instance action_ret : MRet action := @ret.
#[local] Instance action_bind : MBind action := λ A B k m, bind m k.

(** A call of a collaborator. *)
Definition invoke {A} (c : call) (f : W → W * result A) : action A :=
  λ '(w, tr),
    let '(w', r) := f w in ((w', tr ++ [(c, outcome_of r)]), r).

(** [log.info(m)] *)
Definition info (m : message) : action unit :=
  invoke (Clog_info m) (λ w, (log_info m w, Ok tt)).

(** [except (OSError, FileNotFoundError, TypeError)] *)
Definition caught (e : exn) : bool :=
  match e with
  | FileNotFoundError | TypeError => true
  | LibraryError cls => is_OSError cls
  | _ => false
  end.

(** [parse_data(mapping, mode)]; [bc_errors] is [default_bc_errors], by
    default in the first call and by name in the second. *)
Definition parse (mapping : list (string * string)) (mode : string)
    : action (gmap string Stack * list exn) :=
  invoke (Cparse_data mode)
    (λ w, (w, parse_data (disk w) mapping mode
                (deref (dicts w) default_bc_errors))).

(** [for e in errs: log.info(S(e))] *)
Fixpoint info_each (errs : list string) : action unit :=
  match errs with
  | [] => ret tt
  | e :: errs => info (msg_S e);; info_each errs
  end.

(** Lines 129 to 143: [_istarfile = False] and the block under
    [if pdb_files:], to the locals [(_istarfile, ens_size, nres)], where a
    local that has not been assigned is [None]. *)
Definition read_ensemble (pdb_files : option string) (tmpdir : string)
    : action (bool * option nat * option nat) :=
  match pdb_files with
  | Some pdb_text =>
      if truthy pdb_files then
        tar ← attempt (invoke (Cextract_from_tar pdb_text tmpdir)
                         (extract_from_tar pdb_text tmpdir));
        '(pdbs2operate, istarfile) ←
          match tar with
          | Ok pdbs2operate => ret (pdbs2operate, true)
          | Raise e =>
              if caught e then
                pdbs2operate ← invoke (Cread_path_bundle pdb_text)
                                 (read_path_bundle pdb_text);
                ret (pdbs2operate, false)
              else lift (Raise e)
          end;
        info (msg_S "done");;
        let ens_size := length pdbs2operate in
        pdb ← lift (getitem pdbs2operate 0);
        nres ← invoke (CStructure pdb) (Structure_residues pdb);
        ret (istarfile, Some ens_size, Some nres)
      else ret (false, None, None)
  | None => ret (false, None, None)
  end.

(** The calls that [read_ensemble] makes. *)
Definition ensemble_call (c : call) : Prop :=
  match c with
  | Cextract_from_tar _ _ | Cread_path_bundle _ | CStructure _ => True
  | Clog_info m => m = msg_S "done"
  | _ => False
  end.

(** [main]; [output] and [func] are not read by the body. *)
Definition main (exp_files : string) (epochs : nat)
    (pdb_files back_files : option string) (ncores : nat) (tmpdir : string)
    : action unit :=
  invoke Cinit_files init_files;;
  if bool_decide (pdb_files = None ∧ back_files = None) then
    info (msg_S
      "WARNING: you must provide either PDB files or back-calculated files.")
  else
    info (msg_T "Reading conformer ensemble paths");;
    '(istarfile, ens_size, nres) ← read_ensemble pdb_files tmpdir;
    info (msg_T "Checking experimental data files");;
    '(filenames, errs) ← invoke (Cmeta_data exp_files) (meta_data exp_files);
    (if bool_decide (errs ≠ []) then info_each errs else ret tt);;
    if bool_decide (errs ≠ []) && bool_decide (filenames = []) then
      info (msg_S "done")
    else
      info (msg_S "done");;
      exp_mapping ← lift (dict_getitem filenames parse_mode_exp);
      exp_paths ← parse exp_mapping parse_mode_exp;
      back_paths ←
        (if truthy back_files then
           back_mapping ← lift (dict_getitem filenames parse_mode_back);
           back_paths ← parse back_mapping parse_mode_back;
           ret (Some back_paths)
         else ret None);
      back_paths ← lift (local back_paths);
      ens_size ← lift (local ens_size);
      nres ← lift (local nres);
      eisd_ens ← invoke (CXEISD ens_size nres)
                   (XEISD exp_paths back_paths ens_size nres);
      info (msg_T "Starting X-EISD Scoring");;
      invoke (Cpool_function epochs ens_size ncores)
        (pool_function eisd_ens epochs ens_size ncores);;
      info (msg_S "done");;
      (if (istarfile : bool) then invoke (Crmtree tmpdir) (rmtree tmpdir)
       else ret tt);;
      info (msg_S "done").

End Cli.

(** ** An instance for concrete files

    Floats are decimal numbers [m / 10^k]; the readers accept the plain
    shapes that the package's example files have: signed decimal numerals,
    flat dict displays and JSON objects of decimals, comma-separated
    tables.  The names are the file extensions and column names listed in
    the parser's docstring. *)
Module Reference.

Record decimal : Type := Dec { mantissa : Z; places : nat }.

Definition digit (c : ascii) : option Z :=
  let n := nat_of_ascii c in
  if ((48 <=? n) && (n <=? 57))%nat then Some (Z.of_nat (n - 48)) else None.

(** Reads digits into the mantissa [m], counting them in [k]. *)
Fixpoint digits (s : string) (m : Z) (k : nat) : option (Z * nat) :=
  match s with
  | EmptyString => Some (m, k)
  | String c s' =>
      match digit c with
      | Some d => digits s' (10 * m + d)%Z (S k)
      | None => None
      end
  end.

Definition unsigned (s : string) : option decimal :=
  match split_on "." s with
  | [whole] =>
      match digits whole 0%Z 0 with
      | Some (m, S _) => Some (Dec m 0)
      | _ => None
      end
  | [whole; frac] =>
      match digits whole 0%Z 0 with
      | Some (m, k1) =>
          match digits frac m 0 with
          | Some (m', k2) =>
              if (k1 + k2 =? 0)%nat then None else Some (Dec m' k2)
          | None => None
          end
      | None => None
      end
  | _ => None
  end.

Definition numeral (s : string) : option decimal :=
  match s with
  | String "-" s' =>
      match unsigned s' with
      | Some (Dec m k) => Some (Dec (- m) k)
      | None => None
      end
  | String "+" s' => unsigned s'
  | _ => unsigned s
  end.

(** [q name q] for a quote character [q]. *)
Definition quoted (q : ascii) (s : string) : option string :=
  match s with
  | String c s' =>
      if Ascii.eqb c q then
        match split_on q s' with
        | [body; EmptyString] => Some body
        | _ => None
        end
      else None
  | EmptyString => None
  end.

Definition braced (s : string) : option string :=
  match s with
  | String "{" s' =>
      match split_on "}" s' with
      | [body; EmptyString] => Some body
      | _ => None
      end
  | _ => None
  end.

Definition flat_item (q : ascii) (s : string)
    : option (pyval decimal * pyval decimal) :=
  match split_on ":" s with
  | [k; v] =>
      match quoted q (strip k), numeral (strip v) with
      | Some k', Some x => Some (VStr k', VFloat x)
      | _, _ => None
      end
  | _ => None
  end.

(** A dict display whose keys are quoted with [q] and whose values are
    decimals. *)
Definition flat_dict (q : ascii) (s : string) : option (pyval decimal) :=
  match braced (strip s) with
  | Some body => VDict <$> mapM (flat_item q) (split_on "," body)
  | None => None
  end.

(** The reserved words of Python, without its three constants. *)
Definition keywords : list string :=
  ["and"; "as"; "assert"; "async"; "await"; "break"; "class"; "continue";
   "def"; "del"; "elif"; "else"; "except"; "finally"; "for"; "from";
   "global"; "if"; "import"; "in"; "is"; "lambda"; "nonlocal"; "not"; "or";
   "pass"; "raise"; "return"; "try"; "while"; "with"; "yield"].

Definition letter (c : ascii) : bool :=
  let n := nat_of_ascii c in
  ((65 <=? n) && (n <=? 90) || (97 <=? n) && (n <=? 122) || (n =? 95))%nat.

Definition identifier (s : string) : bool :=
  match s with
  | String c s' =>
      letter c
      && forallb (λ c, letter c || bool_decide (is_Some (digit c)))
           (list_ascii_of_string s')
  | EmptyString => false
  end.

(** A flat dict display, a quoted string or a constant is evaluated; a
    name is parsed and then refused as no literal ([ValueError]); what is
    left does not parse. *)
Definition ref_literal_eval (s : string) : result (pyval decimal) :=
  match flat_dict "'" s with
  | Some v => Ok v
  | None =>
      match quoted "'" s with
      | Some t => Ok (VStr t)
      | None =>
          if decide (s = "None") then Ok VNone
          else if decide (s = "True") then Ok (VBool true)
          else if decide (s = "False") then Ok (VBool false)
          else if identifier s && negb (bool_decide (s ∈ keywords))
          then Raise ValueError
          else Raise SyntaxError
      end
  end.

Definition ref_json_load (lines : list string) : result (pyval decimal) :=
  match flat_dict (ascii_of_nat 34) (String.concat "" lines) with
  | Some v => Ok v
  | None => Raise ValueError
  end.

Definition cell (s : string) : pyval decimal :=
  match numeral s with
  | Some x => VFloat x
  | None => VStr s
  end.

(** The cells of column [j], one per row. *)
Definition column (rows : list (list string)) (j : nat) : list (pyval decimal) :=
  omap (λ r, cell <$> r !! j) rows.

Definition ref_read_csv (lines : list string) : result (DataFrame decimal) :=
  match split_on "," ∘ strip <$> lines with
  | [] => Raise (LibraryError "EmptyDataError")
  | header :: rows =>
      if forallb (λ r, Nat.eqb (length r) (length header)) rows
      then Ok (Frame (list_to_map
                 (imap (λ j c, (c, column rows j)) header)))
      else Raise (LibraryError "ParserError")
  end.

Definition dict_values (v : pyval decimal) : result (list (pyval decimal)) :=
  match v with
  | VDict items => Ok (snd <$> items)
  | _ => Raise ValueError
  end.

(** One row per key, a single column named [0]. *)
Definition ref_frame_of_scalars (raw : pyval decimal) : result (DataFrame decimal) :=
  vs ← dict_values raw; Ok (Frame {["0" := vs]}).

(** An object of scalars without an index is refused by pandas; nested
    objects are outside the shapes read here. *)
Definition ref_frame_of_records (raw : pyval decimal) : result (DataFrame decimal) :=
  Raise ValueError.

Definition externals : Externals := {|
  F := decimal;
  float_zero := Dec 0 1;
  float_of_str := numeral;
  float_of_int := λ z, Ok (Dec z 0);
  literal_eval := ref_literal_eval;
  json_load := ref_json_load;
  read_csv := ref_read_csv;
  frame_of_scalars := ref_frame_of_scalars;
  frame_of_records := ref_frame_of_records
|}.

Definition mu_jc : pyval (@F externals) := @VFloat decimal (Dec (-2) 1).

Definition registry : @Registry externals := {|
  saxs_name := "saxs";
  cs_name := "cs";
  fret_name := "fret";
  jc_name := "jc";
  noe_name := "noe";
  pre_name := "pre";
  rdc_name := "rdc";
  rh_name := "rh";
  exp_idx := "index";
  exp_val := "value";
  exp_err := "error";
  exp_atmID := "atomname";
  exp_dist_val := "dist_value";
  exp_max := "upper";
  exp_min := "lower";
  parse_mode_exp := "exp";
  jc_bc_mu := mu_jc;
  default_bc_errors := 0
|}.

(** The line terminator. *)
Definition nl : string := String (ascii_of_nat 10) "".

(** A file system holding the listed files. *)
Definition files (l : list (string * list string)) : filesystem :=
  λ fpath, (list_to_map l : gmap string (list string)) !! fpath.

(** *** Example files *)

(** A line with its terminator. *)
Definition ln (s : string) : string := s +:+ nl.

Definition dq : string := String (ascii_of_nat 34) "".

(** A scattering curve. *)
Definition saxs_lines : list string :=
  ln <$> ["0.0100 125.3 1.2"; "0.0200 120.1 1.1"].

(** The same curve followed by an empty line. *)
Definition saxs_blank_lines : list string :=
  ln <$> ["0.0100 125.3 1.2"; "0.0200 120.1 1.1"; ""].

(** A chemical-shift loop: four tags, then two rows. *)
Definition cs_lines : list string :=
  ln <$> ["_Atom_chem_shift.ID"; "_Atom_chem_shift.Atom_ID";
          "_Atom_chem_shift.Val"; "_Atom_chem_shift.Val_err";
          "1 CA 55.634 0.1"; "2 CB 32.613 0.2"].

(** A distance-restraint loop; each row leaves one bound open. *)
Definition noe_lines : list string :=
  ln <$> ["_Gen_dist_constraint.ID"; "_Gen_dist_constraint.Val";
          "_Gen_dist_constraint.Val_min"; "_Gen_dist_constraint.Val_max";
          "_Gen_dist_constraint.Val_err";
          "1 4.5 . 6.0 0.1"; "2 3.2 1.8 . 0.1"].

(** Chemical shifts in the comma-separated dialect. *)
Definition cs_custom_lines : list string :=
  ln <$> ["index,resnum,atomname,value,error"; "1,2,CA,55.634,0.1"].

Definition fret_lines : list string :=
  ln <$> ["index,res1,res2,value,scale,error"; "1,10,50,0.8,50.0,0.05"].

(** Back-calculated couplings: one number per residue. *)
Definition jc_back_lines : list string :=
  ["{" +:+ dq +:+ "1" +:+ dq +:+ ": 6.5, "
       +:+ dq +:+ "2" +:+ dq +:+ ": 7.25}"].

Definition saxs_back_lines : list string := [ln "q I sigma"].

Definition override_lines : list string :=
  ln <$> ["pre 0.003"; "cs {'C':1.2,'CA':0.84}"].

Definition example_fs : filesystem :=
  files [("exp_1.saxs", saxs_lines); ("exp_2.saxs", saxs_blank_lines);
         ("exp_1.cs", cs_lines); ("exp_1.noe", noe_lines);
         ("exp_2.cs", cs_custom_lines); ("exp_1.fret", fret_lines);
         ("back_1.jc", jc_back_lines); ("back_1.saxs", saxs_back_lines);
         ("errors.txt", override_lines)].

(** A default uncertainty table. *)
Definition default_table : gmap string (pyval (@F externals)) :=
  {[ "pre" := VFloat (Dec 1 2); "noe" := VFloat (Dec 1 2);
     "jc" := VFloat (Dec 5 1); "saxs" := VFloat (Dec 6 3) ]}.

(** The table stored under [module] by a run of [parse_data]. *)
Definition table_of
    (run : result (gmap string (StackOf (@F externals)) * list exn))
    (module : string) : option (DataFrame (@F externals)) :=
  match run with
  | Ok (parsed, _) => data <$> parsed !! module
  | Raise _ => None
  end.

(** The error log of a run of [parse_data]. *)
Definition errlogs_of
    (run : result (gmap string (StackOf (@F externals)) * list exn))
    : option (list exn) :=
  match run with
  | Ok (_, errlogs) => Some errlogs
  | Raise _ => None
  end.

(** The heap in which [default_bc_errors] is bound to that table. *)
Definition example_heap : gmap nat (gmap string (pyval (@F externals))) :=
  {[ 0 := default_table ]}.

(** *** Files at the edges of the claims *)

(** A comma-separated curve whose last row has a field too many. *)
Definition generic_ragged_lines : list string :=
  [ln "index,value,error"; ln "0.01,125.3,1.2"; ln "0.02,118.9,1.1,7"].

(** An override file whose mapping is written with spaces. *)
Definition override_spaced_lines : list string :=
  [ln "pre 0.003"; ln "cs {'C': 1.2, 'CA': 0.84}"].

(** The usage example of the parser's docstring, an excerpt of BMRB
    entry 4155. *)
Definition cs_documented_lines : list string :=
  [ln "    _Atom_chem_shift.ID";
   ln "    _Atom_chem_shift.Assembly_atom_ID";
   ln "    _Atom_chem_shift.Entity_assembly_ID";
   ln "    _Atom_chem_shift.Entity_assembly_asym_ID";
   ln "    _Atom_chem_shift.Entity_ID";
   ln "    _Atom_chem_shift.Comp_index_ID";
   ln "    _Atom_chem_shift.Seq_ID";
   ln "    _Atom_chem_shift.Comp_ID";
   ln "    _Atom_chem_shift.Atom_ID";
   ln "    _Atom_chem_shift.Atom_type";
   ln "    _Atom_chem_shift.Atom_isotope_number";
   ln "    _Atom_chem_shift.Val";
   ln "    _Atom_chem_shift.Val_err";
   ln "    1     .   2   .   1   2    2    MET   C    C   13   176.341   .";
   ln "    2     .   2   .   1   2    2    MET   CA   C   13   55.634    .";
   ln "    3     .   2   .   1   2    2    MET   CB   C   13   32.613    .";
   ln "    4     .   2   .   1   3    3    GLU   H    H   1    8.781     .";
   ln "    5     .   2   .   1   3    3    GLU   C    C   13   176.158   .";
   ln "    6     .   2   .   1   3    3    GLU   CA   C   13   56.8      .";
   ln "    7     .   2   .   1   3    3    GLU   CB   C   13   29.905    .";
   ln "    8     .   2   .   1   3    3    GLU   N    N   15   122.712   .";
   ln "    9     .   2   .   1   4    4    ALA   H    H   1    8.419     .";
   ln "    10    .   2   .   1   4    4    ALA   C    C   13   177.602   .";
   ln "    11    .   2   .   1   4    4    ALA   CA   C   13   52.395    ."].

Definition edge_fs : filesystem :=
  files [("exp_1.saxs", saxs_lines);
         ("exp_3.saxs", generic_ragged_lines);
         ("exp_4155.cs", cs_documented_lines);
         ("errors_3.txt", override_spaced_lines)].

(** *** Further example files *)

(** Declarations without a data line. *)
Definition tags_only_lines : list string :=
  ln <$> ["_Atom_chem_shift.ID"; "_Atom_chem_shift.Atom_ID";
          "_Atom_chem_shift.Val"; "_Atom_chem_shift.Val_err"].

(** A chemical-shift loop that does not declare the atom identifier. *)
Definition cs_no_atom_lines : list string :=
  ln <$> ["_Atom_chem_shift.ID"; "_Atom_chem_shift.Val";
          "_Atom_chem_shift.Val_err"; "1 55.634 0.1"].

(** A coupling-constant loop. *)
Definition jc_lines : list string :=
  ln <$> ["_Coupling_constant.ID"; "_Coupling_constant.Val";
          "_Coupling_constant.Val_err"; "1 6.5 0.3"; "2 7.2 0.4"].

(** An override file whose second line lacks its value. *)
Definition override_short_lines : list string :=
  ln <$> ["pre 0.003"; "cs"; "noe 0.5"].

Definition more_fs : filesystem :=
  files [("exp_1.saxs", saxs_lines); ("exp_1.cs", cs_lines);
         ("exp_2.cs", cs_custom_lines); ("exp_3.cs", tags_only_lines);
         ("exp_4.cs", cs_no_atom_lines); ("exp_1.jc", jc_lines);
         ("exp_1.fret", fret_lines); ("back_1.jc", jc_back_lines);
         ("back_1.saxs", saxs_back_lines); ("errors.txt", override_lines);
         ("errors_2.txt", override_short_lines)].


(** A world for [main]: the messages logged so far.  The archive
    [ensemble.tar] holds two conformers; any other path is a folder that
    holds the same two, on which the archive reader raises
    [IsADirectoryError].  The data folder holds two experimental and two
    back-calculated files of [more_fs]. *)
Definition world : Type := list message.

Definition discovered : list (string * list (string * string)) :=
  [("exp", [("saxs", "exp_1.saxs"); ("jc", "exp_1.jc")]);
   ("bc", [("saxs", "back_1.saxs"); ("jc", "back_1.jc")])].

Definition collaborators : @Collaborators externals registry world := {|
  parse_mode_back := "bc";
  disk := λ _, more_fs;
  dicts := λ _, example_heap;
  init_files := λ w, (w, Ok tt);
  log_info := λ m w, w ++ [m];
  extract_from_tar := λ pdb_files tmpdir w,
    (w, if decide (pdb_files = "ensemble.tar")
        then Ok ["conf_1.pdb"; "conf_2.pdb"]
        else Raise (LibraryError "IsADirectoryError"));
  read_path_bundle := λ pdb_files w, (w, Ok ["conf_1.pdb"; "conf_2.pdb"]);
  Structure_residues := λ pdb w, (w, Ok 20);
  meta_data := λ exp_files w, (w, Ok (discovered, []));
  scorer := unit;
  XEISD := λ _ _ _ _ w, (w, Ok tt);
  pool_function := λ _ _ _ _ w, (w, Ok tt);
  rmtree := λ _ w, (w, Ok tt);
  is_OSError := λ cls,
    bool_decide (cls ∈ ["OSError"; "IsADirectoryError"; "PermissionError"])
|}.

(** [main] on the data folder, from an empty world. *)
Definition score (pdb_files back_files : option string)
    : (world * trace) * result unit :=
  main (Col := collaborators) "data" 10 pdb_files back_files 1 "__tmpscore__"
    ([], []).

Definition calls_of (run : (world * trace) * result unit) : trace := run.1.2.

End Reference.

(** * Properties *)

Section Properties.
Context `{Reg : Registry}.

(** ** Results *)

Lemma bind_Ok {A B} (r : result A) (f : A → result B) (b : B) :
  r ≫= f = Ok b ↔ ∃ a, r = Ok a ∧ f a = Ok b.
Proof.
  destruct r as [a|e]; simpl; split.
  - eauto.
  - by intros (? & [= <-] & ?).
  - done.
  - by intros (? & ? & ?).
Qed.

Lemma getitem_Ok {A} (l : list A) i a : getitem l i = Ok a ↔ l !! i = Some a.
Proof. unfold getitem. destruct (l !! i); split; congruence. Qed.

Lemma local_Ok {A} (v : option A) a : local v = Ok a ↔ v = Some a.
Proof. unfold local. destruct v; split; congruence. Qed.

(** ** The dialect test *)

Lemma dialect_guard_first0 lines :
  dialect_guard lines =
    match first0 lines with
    | Some t => if decide (t = exp_idx) then Raise TypeError else Ok ()
    | None => Raise IndexError
    end.
Proof.
  unfold dialect_guard, first0, getitem.
  destruct (lines !! 0) as [line0|]; simpl; [|done].
  by destruct (split_on "," line0 !! 0).
Qed.

Lemma dialect_guard_generic lines :
  first0 lines = Some exp_idx → dialect_guard lines = Raise TypeError.
Proof.
  intros Hf. rewrite dialect_guard_first0, Hf. by rewrite decide_True.
Qed.

Lemma dialect_guard_stripped lines t :
  first0 lines = Some t → t ≠ exp_idx → dialect_guard lines = Ok ().
Proof.
  intros Hf Hne. rewrite dialect_guard_first0, Hf. by rewrite decide_False.
Qed.

(** ** parse_saxs_data *)

(** A token is text, whatever it spells. *)
Lemma token_not_float (line : string) (s0 : value) :
  (VStr <$> split_ws line : list value) !! 0 = Some s0 →
  type_is (type_of s0) TFloat = false.
Proof.
  rewrite list_lookup_fmap. destruct (split_ws line !! 0); by intros [= <-].
Qed.

(** The loop leaves its accumulators as they were, or stops at a line
    without a token. *)
Lemma saxs_rows_inv lines acc :
  (Forall (λ line, split_ws line ≠ []) lines ∧ saxs_rows lines acc = Ok acc)
  ∨ (Exists (λ line, split_ws line = []) lines
     ∧ saxs_rows lines acc = Raise IndexError).
Proof.
  induction lines as [|line rest IH]; simpl.
  - left. split; [constructor | done].
  - destruct acc as [[index val] error].
    unfold getitem at 1. rewrite list_lookup_fmap.
    destruct (split_ws line) as [|tok toks] eqn:Hs; simpl.
    + right. split; [by left | done].
    + destruct IH as [[Hall Hok] | [Hex Hraise]].
      * left. split; [constructor; [by rewrite Hs | done] | done].
      * right. split; [by right | done].
Qed.

Lemma saxs_of_lines_stripped lines t :
  first0 lines = Some t → t ≠ exp_idx →
  saxs_of_lines lines =
    if decide (Forall (λ line, split_ws line ≠ []) lines)
    then pd_DataFrame [(exp_idx, []); (exp_val, []); (exp_err, [])]
    else Raise IndexError.
Proof.
  intros Hf Hne. unfold saxs_of_lines.
  rewrite (dialect_guard_stripped _ _ Hf Hne). simpl.
  destruct (saxs_rows_inv lines ([], [], [])) as [[Hall ->] | [Hex ->]]; simpl.
  - by rewrite decide_True.
  - rewrite decide_False; [done|].
    intros Hall. apply Exists_exists in Hex as (line & Hin & Hnil).
    by eapply Forall_forall in Hall.
Qed.

Lemma empty_columns_lookup (c : string) (col : list value) :
  dict_display [(exp_idx, []); (exp_val, []); (exp_err, [])] !! c = Some col →
  col = [].
Proof.
  unfold dict_display. simpl. intros Hc.
  repeat (apply lookup_insert_Some in Hc as [[_ <-] | [_ Hc]]; [done|]).
  by rewrite lookup_empty in Hc.
Qed.

(** C1, as amended.  Whenever the first comma-split token of the first
    line differs from the alignment-index header and every line holds at
    least one whitespace-separated token, [parse_saxs_data] returns the
    table built from three empty columns: the acceptance test compares the
    type of a text token with [float], so no row is ever appended. *)
Theorem parse_saxs_data_empty_table fs fpath lines t :
  fs fpath = Some lines →
  first0 lines = Some t →
  t ≠ exp_idx →
  Forall (λ line, split_ws line ≠ []) lines →
  ∃ df, parse_saxs_data fs fpath = Ok df
        ∧ df = Frame (dict_display [(exp_idx, []); (exp_val, []); (exp_err, [])])
        ∧ ∀ c col, df_cols df !! c = Some col → col = [].
Proof.
  intros Hfs Hf Hne Hall. eexists. split; [|split; [reflexivity|]].
  - unfold parse_saxs_data, readlines. rewrite Hfs. simpl.
    rewrite (saxs_of_lines_stripped _ _ Hf Hne).
    by rewrite decide_True.
  - apply empty_columns_lookup.
Qed.

(** ** The generic dialect met by a stripped-dialect parser *)

Lemma parsers_raise_TypeError fs fpath lines :
  fs fpath = Some lines →
  first0 lines = Some exp_idx →
  parse_saxs_data fs fpath = Raise TypeError
  ∧ parse_cs_data fs fpath = Raise TypeError
  ∧ ∀ type, parse_nmrstar_data fs fpath type = Raise TypeError.
Proof.
  intros Hfs Hf.
  unfold parse_saxs_data, parse_cs_data, parse_nmrstar_data, readlines.
  rewrite Hfs. simpl.
  unfold saxs_of_lines, cs_of_lines, nmrstar_of_lines.
  by rewrite (dialect_guard_generic _ Hf).
Qed.

Lemma exp_try_generic fs fpath lines module :
  fs fpath = Some lines →
  first0 lines = Some exp_idx →
  module ∈ [saxs_name; cs_name; jc_name; noe_name; pre_name; rdc_name] →
  exp_try fs module fpath = Raise TypeError
  ∨ exp_try fs module fpath =
      (d ← pd_read_csv fs fpath; Ok (Stored (mkStack module d VNone VNone))).
Proof.
  intros Hfs Hf Hin.
  destruct (parsers_raise_TypeError _ _ _ Hfs Hf) as (Hs & Hc & Hn).
  unfold exp_try.
  repeat (case_decide; [first [by right | left; by rewrite ?Hs, ?Hc, ?Hn]|]).
  repeat (apply elem_of_cons in Hin as [->|Hin]; [done|]).
  by apply elem_of_nil in Hin.
Qed.

Lemma exp_loop_app_cons fs before entry after st :
  exp_loop fs (before ++ entry :: after) st
  = (st1 ← exp_loop fs before st;
     st2 ← exp_step fs st1 entry;
     exp_loop fs after st2).
Proof.
  revert st. induction before as [|first before IH]; intros st; simpl; [done|].
  destruct (exp_step fs st first) as [st1|e]; simpl; [apply IH | done].
Qed.

(** C3, as amended.  A file whose first comma-split token is the
    alignment-index column name makes each stripped-dialect parser raise
    [TypeError]; the experimental loop catches that exception and reads
    the same file as a comma-delimited table.  When that reading returns
    a table the loop stores the container built from it; when the reading
    itself raises, its exception is raised inside the handler and leaves
    [parse_data], whatever the entries before it were.  Any other
    exception of the [try] block leaves the loop. *)
Theorem generic_dialect_falls_back fs fpath lines module parsed data0 :
  fs fpath = Some lines →
  first0 lines = Some exp_idx →
  module ∈ [saxs_name; cs_name; jc_name; noe_name; pre_name; rdc_name] →
  (parse_saxs_data fs fpath = Raise TypeError
   ∧ parse_cs_data fs fpath = Raise TypeError
   ∧ ∀ type, parse_nmrstar_data fs fpath type = Raise TypeError)
  ∧ (∀ df, read_csv lines = Ok df →
       ∃ data1, exp_step fs (parsed, data0) (module, fpath)
                = Ok (<[module := mkStack module df VNone VNone]> parsed,
                      data1))
  ∧ (∀ e, read_csv lines = Raise e →
       exp_step fs (parsed, data0) (module, fpath) = Raise e
       ∧ ∀ before after bc_errors st,
           exp_loop fs before (∅, empty_frame) = Ok st →
           parse_data fs (before ++ (module, fpath) :: after) parse_mode_exp
             bc_errors
           = Raise e)
  ∧ (∀ fs' st entry e, exp_try fs' entry.1 entry.2 = Raise e →
       e ≠ TypeError → exp_step fs' st entry = Raise e).
Proof.
  intros Hfs Hf Hin. split; [by eapply parsers_raise_TypeError|].
  assert (pd_read_csv fs fpath = read_csv lines) as Hread.
  { unfold pd_read_csv, readlines. by rewrite Hfs. }
  assert (∀ e st, read_csv lines = Raise e →
            exp_step fs st (module, fpath) = Raise e) as Hraises.
  { intros e [parsed' data'] Hcsv. unfold exp_step.
    destruct (exp_try_generic _ _ _ _ Hfs Hf Hin) as [-> | ->];
      rewrite Hread, Hcsv; simpl; [done|].
    by destruct e. }
  split; [|split].
  - intros df Hcsv. unfold exp_step.
    destruct (exp_try_generic _ _ _ _ Hfs Hf Hin) as [-> | ->];
      rewrite Hread, Hcsv; simpl; eauto.
  - intros e Hcsv. split; [by apply Hraises|].
    intros before after bc_errors st Hbefore.
    unfold parse_data. rewrite decide_True by done.
    rewrite exp_loop_app_cons, Hbefore. cbn [mbind result_bind].
    by rewrite (Hraises e st Hcsv).
  - intros fs' [parsed' data'] [m p] e Htry Hne. simpl in *.
    rewrite Htry. by destruct e.
Qed.

(** ** Dict displays *)

Lemma foldl_insert_notin {A} (items : list (string * A)) (m : gmap string A) k :
  k ∉ items.*1 →
  foldl (λ m kv, <[kv.1 := kv.2]> m) m items !! k = m !! k.
Proof.
  revert m. induction items as [|[k' v'] items IH]; intros m Hk; simpl; [done|].
  rewrite fmap_cons, not_elem_of_cons in Hk. destruct Hk as [Hne Hk].
  rewrite IH by done. by rewrite lookup_insert_ne.
Qed.

(** The last item with a given key is the one that the dict holds. *)
Lemma dict_display_lookup {A} (before after : list (string * A)) k v :
  k ∉ after.*1 →
  dict_display (before ++ (k, v) :: after) !! k = Some v.
Proof.
  intros Hk. unfold dict_display. rewrite foldl_app. simpl.
  rewrite foldl_insert_notin by done. by rewrite lookup_insert_eq.
Qed.

Lemma pd_DataFrame_Ok items (df : frame) :
  pd_DataFrame items = Ok df → df = Frame (dict_display items).
Proof. unfold pd_DataFrame. case_match; congruence. Qed.

(** ** The header scan *)

Lemma header_scan_start bind lines :
  (∀ dtype i o, start_idx (bind dtype i o) = start_idx o) →
  ∀ i o o' s,
    header_scan bind i lines o = Ok o' →
    start_idx o = None →
    start_idx o' = Some s →
    ∃ k, s = i + k
         ∧ (∀ j line, j < k → lines !! j = Some line → contains "_" line = true)
         ∧ (∃ line, lines !! k = Some line ∧ contains "_" line = false).
Proof.
  intros Hbind. induction lines as [|line rest IH]; intros i o o' s Hscan Hnone Hs.
  - simpl in Hscan. congruence.
  - simpl in Hscan. destruct (contains "_" line) eqn:Hc.
    + apply bind_Ok in Hscan as (dtype & _ & Hscan).
      destruct (IH _ _ _ _ Hscan ltac:(by rewrite Hbind) Hs)
        as (k & -> & Hhead & Hdata).
      exists (S k). split; [lia|]. split; [|done].
      intros [|j] l Hj Hl; simpl in Hl; [congruence|].
      apply (Hhead j); [lia|done].
    + injection Hscan as <-. simpl in Hs. injection Hs as <-.
      exists 0. split; [lia|]. split; [lia|]. by exists line.
Qed.

Lemma cs_bind_start dtype i o : start_idx (cs_bind dtype i o) = start_idx o.
Proof. unfold cs_bind. by repeat case_decide. Qed.

Lemma nmrstar_bind_start type dtype i o :
  start_idx (nmrstar_bind type dtype i o) = start_idx o.
Proof. unfold nmrstar_bind. destruct (is_noe_pre type); by repeat case_decide. Qed.

(** ** The alignment index *)

Lemma cs_rows_index o lines idxs acc acc' :
  cs_rows o lines idxs acc = Ok acc' →
  acc'.1.1.1 = acc.1.1.1 ++ (py_int <$> idxs).
Proof.
  revert acc. induction idxs as [|idx rest IH]; intros acc Hrows.
  - simpl in Hrows. injection Hrows as <-. by rewrite app_nil_r.
  - destruct acc as [[[index atoms] values] errors]. simpl in Hrows.
    repeat (apply bind_Ok in Hrows as (? & _ & Hrows)).
    apply IH in Hrows. rewrite Hrows. simpl. by rewrite <- app_assoc.
Qed.

Lemma nmrstar_rows_index type o lines idxs acc acc' :
  nmrstar_rows type o lines idxs acc = Ok acc' →
  acc'.1.1.1.1 = acc.1.1.1.1 ++ (py_int <$> idxs).
Proof.
  revert acc. induction idxs as [|idx rest IH]; intros acc Hrows.
  - simpl in Hrows. injection Hrows as <-. by rewrite app_nil_r.
  - destruct acc as [[[[index values] upper] lower] errors]. simpl in Hrows.
    repeat (apply bind_Ok in Hrows as (? & _ & Hrows)).
    destruct (is_noe_pre type).
    + repeat (apply bind_Ok in Hrows as (? & _ & Hrows)).
      apply IH in Hrows. rewrite Hrows. simpl. by rewrite <- app_assoc.
    + apply IH in Hrows. rewrite Hrows. simpl. by rewrite <- app_assoc.
Qed.

Lemma cs_of_lines_index lines df :
  exp_idx ∉ [exp_atmID; exp_val; exp_err] →
  cs_of_lines lines = Ok df →
  ∃ o start,
    header_scan cs_bind 0 lines no_offsets = Ok o
    ∧ start_idx o = Some start
    ∧ df_cols df !! exp_idx = Some (py_int <$> py_range start (length lines)).
Proof.
  intros Hcols Hparse. unfold cs_of_lines in Hparse.
  apply bind_Ok in Hparse as (_ & _ & Hparse).
  apply bind_Ok in Hparse as (o & Hscan & Hparse).
  apply bind_Ok in Hparse as (start & Hstart%local_Ok & Hparse).
  apply bind_Ok in Hparse as ([[[index atoms] values] errors] & Hrows & Hdf).
  apply cs_rows_index in Hrows. simpl in Hrows. subst index.
  apply pd_DataFrame_Ok in Hdf as ->. simpl.
  exists o, start. do 2 (split; [done|]).
  apply (dict_display_lookup []). simpl. set_solver.
Qed.

Lemma nmrstar_of_lines_index lines type df :
  exp_idx ∉ [exp_val; exp_err; exp_dist_val; exp_max; exp_min] →
  nmrstar_of_lines lines type = Ok df →
  ∃ o start,
    header_scan (nmrstar_bind type) 0 lines no_offsets = Ok o
    ∧ start_idx o = Some start
    ∧ df_cols df !! exp_idx = Some (py_int <$> py_range start (length lines)).
Proof.
  intros Hcols Hparse. unfold nmrstar_of_lines in Hparse.
  apply bind_Ok in Hparse as (_ & _ & Hparse).
  apply bind_Ok in Hparse as (o & Hscan & Hparse).
  apply bind_Ok in Hparse as (start & Hstart%local_Ok & Hparse).
  apply bind_Ok in Hparse
    as ([[[[index values] upper] lower] errors] & Hrows & Hdf).
  apply nmrstar_rows_index in Hrows. simpl in Hrows. subst index.
  exists o, start. do 2 (split; [done|]).
  destruct (is_noe_pre type); apply pd_DataFrame_Ok in Hdf as ->; simpl;
    apply (dict_display_lookup []); simpl; set_solver.
Qed.

(** C9.  In a table returned by [parse_cs_data] or [parse_nmrstar_data]
    the alignment-index column holds the zero-based offsets of the data
    lines in the file: consecutive integers from [start], the number of
    leading lines that carry an underscore, up to the last line.  No token
    of the file enters the column. *)
Theorem alignment_index_is_line_offset fs fpath lines df :
  exp_idx ∉ [exp_atmID; exp_val; exp_err; exp_dist_val; exp_max; exp_min] →
  fs fpath = Some lines →
  parse_cs_data fs fpath = Ok df
  ∨ (∃ type, parse_nmrstar_data fs fpath type = Ok df) →
  ∃ start,
    (∀ j line, j < start → lines !! j = Some line → contains "_" line = true)
    ∧ (∃ line, lines !! start = Some line ∧ contains "_" line = false)
    ∧ df_cols df !! exp_idx
      = Some (py_int <$> seq start (length lines - start)).
Proof.
  intros Hcols Hfs Hparse.
  unfold parse_cs_data, parse_nmrstar_data, readlines in Hparse.
  rewrite Hfs in Hparse. simpl in Hparse.
  assert (∃ bind o start,
    (∀ dtype i o, start_idx (bind dtype i o) = start_idx o)
    ∧ header_scan bind 0 lines no_offsets = Ok o
    ∧ start_idx o = Some start
    ∧ df_cols df !! exp_idx = Some (py_int <$> py_range start (length lines)))
    as (bind & o & start & Hbind & Hscan & Hstart & Hcol).
  { destruct Hparse as [Hcs | [type Hnmr]].
    - apply cs_of_lines_index in Hcs as (o & start & ? & ? & ?); [|set_solver].
      exists cs_bind, o, start. eauto using cs_bind_start.
    - apply nmrstar_of_lines_index in Hnmr as (o & start & ? & ? & ?);
        [|set_solver].
      exists (nmrstar_bind type), o, start. eauto using nmrstar_bind_start. }
  destruct (header_scan_start bind lines Hbind 0 _ _ _ Hscan eq_refl Hstart)
    as (k & -> & Hhead & Hdata).
  exists k. by repeat split.
Qed.

(** ** The bounds of NOE and PRE *)

Lemma py_float_bound tok u : py_float (bound tok) = Ok u ↔ bound_value tok u.
Proof.
  unfold bound, bound_value. case_decide as Hdot; simpl.
  - split.
    + intros [= <-]. by split.
    + intros [-> _]; done.
  - destruct (float_of_str tok) as [x|]; split.
    + intros [= <-]. by split.
    + intros [_ Hx]. by rewrite (Some_inj _ _ (Hx Hdot)).
    + done.
    + intros [_ Hx]. by specialize (Hx Hdot).
Qed.

Lemma nmrstar_rows_bounds type o lines idxs acc acc' :
  is_noe_pre type = true →
  nmrstar_rows type o lines idxs acc = Ok acc' →
  ∃ us ls,
    acc'.1.1.2 = acc.1.1.2 ++ (VFloat <$> us)
    ∧ acc'.1.2 = acc.1.2 ++ (VFloat <$> ls)
    ∧ Forall2 (λ idx u, ∃ tok, token_at lines (max_idx o) idx tok
                               ∧ bound_value tok u) idxs us
    ∧ Forall2 (λ idx l, ∃ tok, token_at lines (min_idx o) idx tok
                               ∧ bound_value tok l) idxs ls.
Proof.
  intros Htype. revert acc.
  induction idxs as [|idx rest IH]; intros acc Hrows.
  - simpl in Hrows. injection Hrows as <-. exists [], []. simpl.
    rewrite !app_nil_r. by repeat split; constructor.
  - destruct acc as [[[[index values] upper] lower] errors]. simpl in Hrows.
    apply bind_Ok in Hrows as (line & Hline%getitem_Ok & Hrows).
    do 6 (apply bind_Ok in Hrows as (? & _ & Hrows)).
    rewrite Htype in Hrows.
    apply bind_Ok in Hrows as (mx & Hmx%local_Ok & Hrows).
    apply bind_Ok in Hrows as (max & Hmax%getitem_Ok & Hrows).
    apply bind_Ok in Hrows as (mn & Hmn%local_Ok & Hrows).
    apply bind_Ok in Hrows as (min & Hmin%getitem_Ok & Hrows).
    apply bind_Ok in Hrows as (u & Hu%py_float_bound & Hrows).
    apply bind_Ok in Hrows as (l & Hl%py_float_bound & Hrows).
    apply IH in Hrows as (us & ls & Hus & Hls & Hup & Hlow). simpl in *.
    exists (u :: us), (l :: ls). rewrite Hus, Hls. simpl.
    rewrite <- !app_assoc. do 2 (split; [done|]).
    split; (constructor; [|done]).
    + exists max. split; [|done]. by exists line, mx.
    + exists min. split; [|done]. by exists line, mn.
Qed.

(** A position recorded by the scan is the offset of a header line that
    declares the field. *)
Lemma header_scan_field bind (proj : offsets → option nat) (fld : string) lines :
  (∀ dtype i o mx, proj (bind dtype i o) = Some mx →
     proj o = Some mx ∨ (mx = i ∧ dtype = fld)) →
  (∀ i o, proj (set_start_idx i o) = proj o) →
  ∀ i o o' mx,
    header_scan bind i lines o = Ok o' →
    proj o' = Some mx →
    proj o = Some mx
    ∨ ∃ line, (i ≤ mx)%nat ∧ lines !! (mx - i) = Some line
              ∧ contains "_" line = true ∧ field_name line = Ok fld.
Proof.
  intros Hbind Hstart.
  induction lines as [|line rest IH]; intros i o o' mx Hscan Hmx.
  - simpl in Hscan. left. congruence.
  - simpl in Hscan. destruct (contains "_" line) eqn:Hc.
    + apply bind_Ok in Hscan as (dtype & Hfield & Hscan).
      destruct (IH _ _ _ _ Hscan Hmx) as [Hold | (l & Hle & Hl & Hcl & Hfl)].
      * apply Hbind in Hold as [? | [-> ->]]; [by left|].
        right. exists line. rewrite Nat.sub_diag. by repeat split.
      * right. exists l. split; [lia|]. split; [|done].
        by replace (mx - i) with (S (mx - S i)) by lia.
    + injection Hscan as <-. left. by rewrite Hstart in Hmx.
Qed.

Lemma nmrstar_bind_max type dtype i o mx :
  max_idx (nmrstar_bind type dtype i o) = Some mx →
  max_idx o = Some mx ∨ (mx = i ∧ dtype = "Val_max").
Proof.
  unfold nmrstar_bind. destruct (is_noe_pre type);
    repeat case_decide; simpl; intros Hmx; first [by left | right; split; congruence].
Qed.

Lemma nmrstar_bind_min type dtype i o mn :
  min_idx (nmrstar_bind type dtype i o) = Some mn →
  min_idx o = Some mn ∨ (mn = i ∧ dtype = "Val_min").
Proof.
  unfold nmrstar_bind. destruct (is_noe_pre type);
    repeat case_decide; simpl; intros Hmn; first [by left | right; split; congruence].
Qed.

Lemma Forall2_range {A} (P : nat → A → Prop) start stop (us : list A) :
  Forall2 P (py_range start stop) us →
  length us = stop - start
  ∧ ∀ r u, us !! r = Some u → P (start + r) u.
Proof.
  intros Hall. split.
  - apply Forall2_length in Hall. unfold py_range in Hall.
    by rewrite length_seq in Hall.
  - intros r u Hu.
    destruct (Forall2_lookup_r _ _ _ _ _ Hall Hu) as (idx & Hidx & HP).
    unfold py_range in Hidx. apply lookup_seq in Hidx as [-> _]. done.
Qed.

(** ** Well-formed files are accepted *)

Lemma header_scan_accepts bind :
  (∀ dtype i o, start_idx (bind dtype i o) = start_idx o) →
  ∀ start lines,
    (∀ j line, j < start → lines !! j = Some line →
       contains "_" line = true ∧ ∃ f, field_name line = Ok f) →
    (∃ line, lines !! start = Some line ∧ contains "_" line = false) →
    ∀ i o, ∃ o', header_scan bind i lines o = Ok o'
                 ∧ start_idx o' = Some (i + start).
Proof.
  intros Hbind. induction start as [|start IH]; intros lines Hhead Hdata i o.
  - destruct Hdata as (line & Hline & Hc). destruct lines as [|l rest]; [done|].
    injection Hline as ->. simpl. rewrite Hc. eexists. split; [done|].
    simpl. f_equal. lia.
  - destruct lines as [|l rest].
    { destruct Hdata as (? & Hline & _). done. }
    destruct (Hhead 0 l ltac:(lia) eq_refl) as [Hc [f Hf]].
    simpl. rewrite Hc, Hf. simpl.
    destruct (IH rest) with (i := S i) (o := bind f i o)
      as (o' & Hscan & Hstart).
    + intros j line Hj Hline. apply (Hhead (S j)); [lia | done].
    + done.
    + exists o'. split; [done|]. rewrite Hstart. f_equal. lia.
Qed.

(** The scan keeps a position while no declaration names its field. *)
Lemma header_scan_keeps bind (proj : offsets → option nat) (fld : string) :
  (∀ dtype i o, dtype ≠ fld → proj (bind dtype i o) = proj o) →
  (∀ i o, proj (set_start_idx i o) = proj o) →
  ∀ lines i o o',
    header_scan bind i lines o = Ok o' →
    (∀ j line, lines !! j = Some line → contains "_" line = true →
       (∀ k l, k < j → lines !! k = Some l → contains "_" l = true) →
       field_name line ≠ Ok fld) →
    proj o' = proj o.
Proof.
  intros Hother Hstart.
  induction lines as [|line rest IH]; intros i o o' Hscan Hno.
  - simpl in Hscan. congruence.
  - simpl in Hscan. destruct (contains "_" line) eqn:Hc.
    + apply bind_Ok in Hscan as (dtype & Hfield & Hscan).
      rewrite (IH _ _ _ Hscan).
      * apply Hother. intros ->.
        apply (Hno 0 line eq_refl Hc); [lia | done].
      * intros j l Hl Hcl Hbefore. apply (Hno (S j) l Hl Hcl).
        intros [|k] l' Hk Hl'; simpl in Hl'; [congruence|].
        apply (Hbefore k); [lia | done].
    + injection Hscan as <-. apply Hstart.
Qed.

(** The scan ends with the offset of the last declaration of a field. *)
Lemma header_scan_last bind (proj : offsets → option nat) (fld : string) :
  (∀ i o, proj (bind fld i o) = Some i) →
  (∀ dtype i o, dtype ≠ fld → proj (bind dtype i o) = proj o) →
  (∀ i o, proj (set_start_idx i o) = proj o) →
  ∀ start lines k,
    (∀ j line, j < start → lines !! j = Some line → contains "_" line = true) →
    (∃ line, lines !! start = Some line ∧ contains "_" line = false) →
    declares lines start fld k →
    ∀ i o o', header_scan bind i lines o = Ok o' → proj o' = Some (i + k).
Proof.
  intros Hset Hother Hstart.
  induction start as [|start IH];
    intros lines k Hhead Hdata (Hk & (lk & Hlk & Hfk) & Hlast) i o o' Hscan.
  - lia.
  - destruct lines as [|l rest]; [done|].
    pose proof (Hhead 0 l ltac:(lia) eq_refl) as Hc.
    simpl in Hscan. rewrite Hc in Hscan.
    apply bind_Ok in Hscan as (dtype & Hfield & Hscan).
    destruct k as [|k].
    + injection Hlk as ->. rewrite Hfk in Hfield. injection Hfield as <-.
      rewrite (header_scan_keeps bind proj fld Hother Hstart _ _ _ _ Hscan).
      * rewrite Hset. f_equal. lia.
      * intros j line Hline Hcl Hbefore.
        destruct (decide (j < start)) as [Hj|Hj].
        -- apply (Hlast (S j)); [lia | lia | done].
        -- destruct Hdata as (ld & Hld & Hcd). simpl in Hld.
           destruct (decide (j = start)) as [->|Hne]; [congruence|].
           rewrite (Hbefore start ld) in Hcd; [done | lia | done].
    + rewrite (IH rest k) with (i := S i) (o := bind dtype i o) (o' := o').
      * f_equal. lia.
      * intros j line Hj Hline. apply (Hhead (S j)); [lia | done].
      * done.
      * split; [lia|]. split; [by exists lk|].
        intros j line Hkj Hj Hline. apply (Hlast (S j)); [lia | lia | done].
      * done.
Qed.

Lemma py_float_numeric tok : numeric tok → ∃ x, py_float (VStr tok) = Ok x.
Proof. intros [x Hx]. exists x. simpl. by rewrite Hx. Qed.

Lemma py_float_open tok : numeric_or_open tok → ∃ x, py_float (bound tok) = Ok x.
Proof.
  intros [-> | [x Hx]]; unfold bound.
  - rewrite decide_True by done. by exists float_zero.
  - case_decide; [by exists float_zero|]. exists x. simpl. by rewrite Hx.
Qed.

Lemma column_of_readable lines start cols :
  Forall (λ c, column_of lines start c.1 c.2) cols →
  Forall (λ idx, readable lines idx cols) (py_range start (length lines)).
Proof.
  intros Hcols. apply Forall_forall. intros idx Hidx.
  unfold py_range in Hidx. apply elem_of_seq in Hidx as [Hlo Hhi].
  destruct (lookup_lt_is_Some_2 lines idx) as [line Hline]; [lia|].
  exists line. split; [done|].
  eapply Forall_impl; [exact Hcols|]. intros [i P] Hcol. by apply (Hcol idx).
Qed.

Lemma nmrstar_rows_accepts type o lines d e mx mn idxs :
  is_noe_pre type = true →
  data_idx o = Some d → error_idx o = Some e →
  max_idx o = Some mx → min_idx o = Some mn →
  Forall (λ idx, readable lines idx
            [(d, numeric); (e, numeric);
             (mx, numeric_or_open); (mn, numeric_or_open)]) idxs →
  ∀ index values upper lower errors,
    ∃ index' values' upper' lower' errors',
      nmrstar_rows type o lines idxs (index, values, upper, lower, errors)
      = Ok (index', values', upper', lower', errors')
      ∧ length index' = length index + length idxs
      ∧ length values' = length values + length idxs
      ∧ length upper' = length upper + length idxs
      ∧ length lower' = length lower + length idxs
      ∧ length errors' = length errors + length idxs.
Proof.
  intros Htype Hd He Hmx Hmn.
  induction 1 as [|idx rest (line & Hline & Hcols) Hrest IH];
    intros index values upper lower errors.
  - exists index, values, upper, lower, errors. simpl. by rewrite !Nat.add_0_r.
  - apply Forall_cons in Hcols as [(vd & Hvd & [x Hx]%py_float_numeric) Hcols].
    apply Forall_cons in Hcols as [(ve & Hve & [y Hy]%py_float_numeric) Hcols].
    apply Forall_cons in Hcols as [(vx & Hvx & [u Hu]%py_float_open) Hcols].
    apply Forall_cons in Hcols as [(vn & Hvn & [l Hl]%py_float_open) _].
    simpl in Hvd, Hve, Hvx, Hvn.
    destruct (IH (index ++ [py_int idx]) (values ++ [VFloat x])
                (upper ++ [VFloat u]) (lower ++ [VFloat l])
                (errors ++ [VFloat y]))
      as (index' & values' & upper' & lower' & errors' & Hrun & Hlen).
    exists index', values', upper', lower', errors'. split.
    + cbn [nmrstar_rows]. unfold getitem, local.
      rewrite Hline, Hd, He, Hmx, Hmn. cbn [mbind result_bind].
      rewrite Hvd. cbn [mbind result_bind]. rewrite Hx. cbn [mbind result_bind].
      rewrite Hve. cbn [mbind result_bind]. rewrite Hy. cbn [mbind result_bind].
      rewrite Htype, Hvx, Hvn. cbn [mbind result_bind].
      rewrite Hu, Hl. cbn [mbind result_bind]. exact Hrun.
    + rewrite !length_app in Hlen. simpl in *. lia.
Qed.

Lemma pd_DataFrame_same_length items n :
  Forall (λ kv, length kv.2 = n) items →
  pd_DataFrame items = Ok (Frame (dict_display items)).
Proof.
  intros Hlen. unfold pd_DataFrame.
  destruct items as [|[k c] rest]; [done|]. simpl.
  apply Forall_cons in Hlen as [Hc Hrest]. simpl in Hc.
  rewrite (proj2 (forallb_forall _ _)); [done|].
  intros kv Hin%list_elem_of_In. eapply Forall_forall in Hrest; [|done].
  apply Nat.eqb_eq. congruence.
Qed.

Ltac bind_cases :=
  unfold nmrstar_bind, cs_bind; intros;
  repeat first [ case_decide | case_match ]; simpl; congruence.

Lemma bounds_well_formed_accepted lines type :
  is_noe_pre type = true →
  bounds_well_formed lines → ∃ df, nmrstar_of_lines lines type = Ok df.
Proof.
  intros Htype (start & d & e & mx & mn & ((t & Hfirst & Hne) & Hhead & Hdata)
                & Hd & He & Hmx & Hmn & Cd & Ce & Cmx & Cmn).
  assert (∀ j line, j < start → lines !! j = Some line →
            contains "_" line = true) as Hmarks.
  { intros j line Hj Hline. by destruct (Hhead j line Hj Hline). }
  destruct (header_scan_accepts (nmrstar_bind type) (nmrstar_bind_start type)
              start lines Hhead Hdata 0 no_offsets) as (o & Hscan & Hstart).
  assert (data_idx o = Some d) as Hod.
  { apply (header_scan_last (nmrstar_bind type) data_idx "Val"
             ltac:(bind_cases) ltac:(bind_cases) (λ _ _, eq_refl)
             start lines d Hmarks Hdata Hd 0 _ _ Hscan). }
  assert (error_idx o = Some e) as Hoe.
  { apply (header_scan_last (nmrstar_bind type) error_idx "Val_err"
             ltac:(bind_cases) ltac:(bind_cases) (λ _ _, eq_refl)
             start lines e Hmarks Hdata He 0 _ _ Hscan). }
  assert (max_idx o = Some mx) as Hox.
  { apply (header_scan_last (nmrstar_bind type) max_idx "Val_max"
             ltac:(intros; unfold nmrstar_bind; rewrite Htype; bind_cases) ltac:(bind_cases)
             (λ _ _, eq_refl) start lines mx Hmarks Hdata Hmx 0 _ _ Hscan). }
  assert (min_idx o = Some mn) as Hon.
  { apply (header_scan_last (nmrstar_bind type) min_idx "Val_min"
             ltac:(intros; unfold nmrstar_bind; rewrite Htype; bind_cases) ltac:(bind_cases)
             (λ _ _, eq_refl) start lines mn Hmarks Hdata Hmn 0 _ _ Hscan). }
  destruct (nmrstar_rows_accepts type o lines d e mx mn
              (py_range start (length lines)) Htype Hod Hoe Hox Hon)
    with (index := @nil value) (values := @nil value) (upper := @nil value)
         (lower := @nil value) (errors := @nil value)
    as (index & values & upper & lower & errors & Hrun & Hi & Hv & Hu & Hl & He').
  { apply (column_of_readable lines start
             [(d, numeric); (e, numeric); (mx, numeric_or_open);
              (mn, numeric_or_open)]).
    repeat constructor; done. }
  eexists. unfold nmrstar_of_lines.
  rewrite (dialect_guard_stripped _ _ Hfirst Hne). cbn [mbind result_bind].
  rewrite Hscan. cbn [mbind result_bind]. rewrite Hstart. simpl local.
  cbn [mbind result_bind]. rewrite Hrun. cbn [mbind result_bind].
  rewrite Htype.
  apply (pd_DataFrame_same_length _ (length (py_range start (length lines)))).
  repeat constructor; simpl in *; lia.
Qed.

(** C6.  A well-formed NOE or PRE file of the stripped dialect is turned
    into a table by [parse_nmrstar_data], and in every table that it
    returns for the NOE or the PRE modality, row [r] of the upper-bound
    column and of the lower-bound column is read from data line
    [start + r] at the position that the header declares for [Val_max],
    respectively [Val_min]: it is [0.0] when the token there is the
    placeholder ".", and the number that [float] makes of the token
    otherwise. *)
Theorem noe_pre_bounds fs fpath lines type :
  exp_max ∉ [exp_min; exp_err] →
  exp_min ≠ exp_err →
  fs fpath = Some lines →
  type = Some noe_name ∨ type = Some pre_name →
  (bounds_well_formed lines →
     ∃ df, parse_nmrstar_data fs fpath type = Ok df)
  ∧ ∀ df, parse_nmrstar_data fs fpath type = Ok df →
    ∃ o start uppers lowers,
      header_scan (nmrstar_bind type) 0 lines no_offsets = Ok o
      ∧ start_idx o = Some start
      ∧ (∀ mx, max_idx o = Some mx →
           ∃ line, lines !! mx = Some line ∧ field_name line = Ok "Val_max")
      ∧ (∀ mn, min_idx o = Some mn →
           ∃ line, lines !! mn = Some line ∧ field_name line = Ok "Val_min")
      ∧ df_cols df !! exp_max = Some (VFloat <$> uppers)
      ∧ df_cols df !! exp_min = Some (VFloat <$> lowers)
      ∧ length uppers = length lines - start
      ∧ length lowers = length lines - start
      ∧ (∀ r u, uppers !! r = Some u →
           ∃ tok, token_at lines (max_idx o) (start + r) tok
                  ∧ bound_value tok u)
      ∧ (∀ r l, lowers !! r = Some l →
           ∃ tok, token_at lines (min_idx o) (start + r) tok
                  ∧ bound_value tok l).
Proof.
  intros Hmax Hmin Hfs Htype.
  assert (is_noe_pre type = true) as Hnp.
  { unfold is_noe_pre. destruct Htype as [-> | ->].
    - by rewrite bool_decide_eq_true_2.
    - rewrite (bool_decide_eq_true_2 (_ = Some pre_name)) by done.
      by rewrite orb_true_r. }
  unfold parse_nmrstar_data, readlines. rewrite Hfs. simpl.
  split; [by apply bounds_well_formed_accepted|].
  intros df Hparse. unfold nmrstar_of_lines in Hparse.
  apply bind_Ok in Hparse as (_ & _ & Hparse).
  apply bind_Ok in Hparse as (o & Hscan & Hparse).
  apply bind_Ok in Hparse as (start & Hstart%local_Ok & Hparse).
  apply bind_Ok in Hparse
    as ([[[[index values] upper] lower] errors] & Hrows & Hdf).
  rewrite Hnp in Hdf. apply pd_DataFrame_Ok in Hdf as ->.
  apply (nmrstar_rows_bounds _ _ _ _ _ _ Hnp) in Hrows
    as (us & ls & Hus & Hls & Hup & Hlow).
  simpl in Hus, Hls. subst upper lower.
  apply Forall2_range in Hup as [Hulen Hup].
  apply Forall2_range in Hlow as [Hllen Hlow].
  exists o, start, us, ls. do 2 (split; [done|]).
  split; [|split].
  - intros mx Hmx.
    destruct (header_scan_field (nmrstar_bind type) max_idx "Val_max" lines
                (nmrstar_bind_max type) (λ _ _, eq_refl) 0 _ _ _ Hscan Hmx)
      as [Hno | (line & _ & Hline & _ & Hfield)]; [done|].
    rewrite Nat.sub_0_r in Hline. eauto.
  - intros mn Hmn.
    destruct (header_scan_field (nmrstar_bind type) min_idx "Val_min" lines
                (nmrstar_bind_min type) (λ _ _, eq_refl) 0 _ _ _ Hscan Hmn)
      as [Hno | (line & _ & Hline & _ & Hfield)]; [done|].
    rewrite Nat.sub_0_r in Hline. eauto.
  - simpl. split.
    { apply (dict_display_lookup [_; _]). simpl.
      rewrite !not_elem_of_cons in Hmax |- *. destruct Hmax as (? & ? & _).
      repeat split; [done..|]. apply not_elem_of_nil. }
    split.
    { apply (dict_display_lookup [_; _; _]). simpl.
      rewrite !not_elem_of_cons. split; [done|apply not_elem_of_nil]. }
    done.
Qed.

(** ** parse_bc_errors *)

Lemma deref_setitem h l k v : deref (setitem h l k v) l = <[k := v]> (deref h l).
Proof. unfold deref, setitem. by rewrite lookup_total_insert_eq. Qed.

Lemma setitem_other h l l' k v : l' ≠ l → setitem h l k v !! l' = h !! l'.
Proof. intros Hne. unfold setitem. by rewrite lookup_insert_ne. Qed.

(** A line whose second token is a number stores that number. *)
Lemma bc_errors_lines_float custom line rest h k tok x :
  split_ws line !! 0 = Some k →
  split_ws line !! 1 = Some tok →
  float_of_str tok = Some x →
  bc_errors_lines custom (line :: rest) h
  = bc_errors_lines custom rest (setitem h custom k (VFloat x)).
Proof.
  intros Hk Htok Hx. simpl. unfold getitem. rewrite Hk, Htok. simpl.
  by rewrite Hx.
Qed.

(** A line whose second token is no number stores what the token
    evaluates to as a literal. *)
Lemma bc_errors_lines_literal custom line rest h k tok v :
  split_ws line !! 0 = Some k →
  split_ws line !! 1 = Some tok →
  float_of_str tok = None →
  literal_eval tok = Ok v →
  bc_errors_lines custom (line :: rest) h
  = bc_errors_lines custom rest (setitem h custom k v).
Proof.
  intros Hk Htok Hx Hv. simpl. unfold getitem. rewrite Hk, Htok. simpl.
  by rewrite Hx, Hv.
Qed.

(** The function hands back the address bound to [default_bc_errors]. *)
Lemma parse_bc_errors_returns_default fs fpath h h' l :
  parse_bc_errors fs fpath h = (h', Ok l) → l = default_bc_errors.
Proof.
  unfold parse_bc_errors. destruct (readlines fs fpath); [|done].
  destruct (bc_errors_lines _ _ _) as [h1 [[]|e]]; congruence.
Qed.

Lemma bc_errors_lines_spec custom lines :
  Forall (λ line, ∃ k v, stores line k v) lines →
  ∀ h, ∃ h',
    bc_errors_lines custom lines h = (h', Ok ())
    ∧ (∀ l, l ≠ custom → h' !! l = h !! l)
    ∧ (∀ m, (∀ line v, line ∈ lines → ¬ stores line m v) →
         deref h' custom !! m = deref h custom !! m)
    ∧ (∀ i line m v, lines !! i = Some line → stores line m v →
         (∀ j line' v', i < j → lines !! j = Some line' → ¬ stores line' m v') →
         deref h' custom !! m = Some v).
Proof.
  induction 1 as [|line rest (k & v & Hst) Hrest IH]; intros h.
  - exists h. split; [done|]. split; [done|]. split; [done|].
    intros i ? ? ? Hi. by rewrite lookup_nil in Hi.
  - destruct (IH (setitem h custom k v)) as (h' & Hrun & Hframe & Hun & Hlast).
    exists h'. split; [|split; [|split]].
    + destruct Hst as (tok & Hk & Htok & Hv).
      destruct (float_of_str tok) as [x|] eqn:Hx.
      * subst v. by rewrite (bc_errors_lines_float _ _ _ _ _ _ _ Hk Htok Hx).
      * by rewrite (bc_errors_lines_literal _ _ _ _ _ _ _ Hk Htok Hx Hv).
    + intros l Hl. rewrite Hframe by done. by apply setitem_other.
    + intros m Hm. rewrite Hun.
      * rewrite deref_setitem. apply lookup_insert_ne. intros ->.
        apply (Hm line v); [by left | done].
      * intros line' v' Hin. apply Hm. by right.
    + intros [|i] line' m v' Hi Hst' Hlater; simpl in Hi.
      * injection Hi as <-.
        assert (m = k ∧ v' = v) as [-> ->].
        { destruct Hst as (tok & Hk & Htok & Hv).
          destruct Hst' as (tok' & Hk' & Htok' & Hv').
          rewrite Hk in Hk'. injection Hk' as <-.
          rewrite Htok in Htok'. injection Htok' as <-.
          split; [done|]. destruct (float_of_str tok); congruence. }
        rewrite Hun.
        -- rewrite deref_setitem. apply lookup_insert_eq.
        -- intros l' v' [j Hj]%list_elem_of_lookup.
           apply (Hlater (S j)); [lia | done].
      * apply (Hlast i line'); [done..|].
        intros j l' v'' Hij Hj. apply (Hlater (S j)); [lia | done].
Qed.

(** C7, as amended.  When every line of the override file holds a
    modality name and a second token that is a number or evaluates as a
    literal,
    [parse_bc_errors] returns a table in which each listed modality has
    the value of the last line that lists it (the number when [float]
    accepts the token, the literal otherwise) and every modality that no
    line lists has the value it had in the default table. *)
Theorem parse_bc_errors_merges fs fpath lines h :
  fs fpath = Some lines →
  Forall (λ line, ∃ k v, stores line k v) lines →
  ∃ h' table,
    parse_bc_errors fs fpath h = (h', Ok table)
    ∧ (∀ i line m v,
         lines !! i = Some line →
         stores line m v →
         (∀ j line', i < j → lines !! j = Some line' →
            split_ws line' !! 0 ≠ Some m) →
         deref h' table !! m = Some v)
    ∧ (∀ m, (∀ line, line ∈ lines → split_ws line !! 0 ≠ Some m) →
         deref h' table !! m = deref h default_bc_errors !! m).
Proof.
  intros Hfs Hlines.
  destruct (bc_errors_lines_spec default_bc_errors lines Hlines h)
    as (h' & Hrun & _ & Hun & Hlast).
  exists h', default_bc_errors. split; [|split].
  - unfold parse_bc_errors, readlines. by rewrite Hfs, Hrun.
  - intros i line m v Hi Hst Hlater. apply (Hlast i line); [done..|].
    intros j line' v' Hij Hj (tok & Hk & _). by apply (Hlater j line').
  - intros m Hm. apply Hun.
    intros line v Hin (tok & Hk & _). by apply (Hm line).
Qed.

(** ** parse_data on back-calculated files *)

Lemma bc_loop_spec fs bc_errors filenames :
  NoDup filenames.*1 →
  ∀ parsed0 errlogs0,
    (∀ k, k ∈ filenames.*1 → parsed0 !! k = None) →
    ∃ parsed errlogs,
      foldl (bc_step fs bc_errors) (parsed0, errlogs0) filenames
      = (parsed, errlogs)
      ∧ errlogs = errlogs0 ++ omap (failure fs bc_errors) filenames
      ∧ (∀ k, k ∉ filenames.*1 → parsed !! k = parsed0 !! k)
      ∧ (∀ module fpath, (module, fpath) ∈ filenames →
           match bc_try fs bc_errors module fpath with
           | Ok s => parsed !! module = Some s
           | Raise e => e ∈ errlogs ∧ parsed !! module = None
           end).
Proof.
  induction filenames as [|[m p] rest IH]; intros Hnd parsed0 errlogs0 Hfresh.
  - exists parsed0, errlogs0. simpl. rewrite app_nil_r.
    do 3 (split; [done|]). intros ? ? Hin. by apply elem_of_nil in Hin.
  - rewrite fmap_cons in Hnd. apply NoDup_cons in Hnd as [Hm Hnd]. simpl in Hm.
    simpl. unfold failure at 1. simpl.
    destruct (bc_try fs bc_errors m p) as [s|e] eqn:Htry.
    + destruct (IH Hnd (<[m := s]> parsed0) errlogs0)
        as (parsed & errlogs & Hrun & Herr & Hframe & Hall).
      { intros k Hk. rewrite lookup_insert_ne by (intros ->; done).
        apply Hfresh. rewrite ?fmap_cons; apply elem_of_cons; by right. }
      exists parsed, errlogs. split; [done|]. split; [done|]. split.
      * intros k Hk. rewrite ?fmap_cons, not_elem_of_cons in Hk.
        destruct Hk as [Hne Hk]. simpl in Hne.
        rewrite Hframe by done. by rewrite lookup_insert_ne.
      * intros module fpath [[= -> ->] | Hin]%elem_of_cons.
        -- rewrite Htry, Hframe by done. apply lookup_insert_eq.
        -- by apply Hall.
    + destruct (IH Hnd parsed0 (errlogs0 ++ [e]))
        as (parsed & errlogs & Hrun & Herr & Hframe & Hall).
      { intros k Hk. apply Hfresh. rewrite ?fmap_cons; apply elem_of_cons; by right. }
      exists parsed, errlogs. split; [done|]. split.
      { by rewrite Herr, <- app_assoc. }
      split.
      * intros k Hk. rewrite ?fmap_cons, not_elem_of_cons in Hk.
        destruct Hk as [_ Hk]. by apply Hframe.
      * intros module fpath [[= -> ->] | Hin]%elem_of_cons.
        -- rewrite Htry. split.
           ++ rewrite Herr. set_solver.
           ++ rewrite Hframe by done. apply Hfresh. rewrite ?fmap_cons; apply elem_of_cons; by left.
        -- by apply Hall.
Qed.

(** C4.  In back-calculated mode [parse_data] always returns.  The error
    log lists, in order, the exceptions that the [try] block raised; a
    modality whose block raised is not a key of the returned mapping, and
    every modality whose block returned a container maps to it, wherever
    the failures fall among the entries. *)
Theorem bc_mode_isolates_failures fs filenames mode bc_errors :
  mode ≠ parse_mode_exp →
  NoDup filenames.*1 →
  ∃ parsed errlogs,
    parse_data fs filenames mode bc_errors = Ok (parsed, errlogs)
    ∧ errlogs = omap (failure fs bc_errors) filenames
    ∧ (∀ module fpath, (module, fpath) ∈ filenames →
         match bc_try fs bc_errors module fpath with
         | Ok s => parsed !! module = Some s
         | Raise e => e ∈ errlogs ∧ parsed !! module = None
         end)
    ∧ (∀ k, k ∉ filenames.*1 → parsed !! k = None).
Proof.
  intros Hmode Hnd. unfold parse_data. rewrite decide_False by done.
  destruct (bc_loop_spec fs bc_errors filenames Hnd ∅ [])
    as (parsed & errlogs & Hrun & Herr & Hframe & Hall).
  { intros k _. apply lookup_empty. }
  exists parsed, errlogs. rewrite Hrun. split; [done|]. split; [done|].
  split; [done|]. intros k Hk. rewrite Hframe by done. apply lookup_empty.
Qed.

(** ** The uncertainty parameters of a container *)

Lemma bc_try_params fs bc_errors module fpath s :
  bc_try fs bc_errors module fpath = Ok s →
  bc_errors !! module = Some (sigma s)
  ∧ mu s = (if decide (module = jc_name) then jc_bc_mu else VNone).
Proof.
  unfold bc_try. intros Htry.
  do 6 (apply bind_Ok in Htry as (? & _ & Htry)).
  case_decide;
    apply bind_Ok in Htry as (v & Hv & [= <-]); simpl;
    unfold py_lookup in Hv; destruct (bc_errors !! module); by simplify_eq.
Qed.

Lemma bc_loop_inv fs bc_errors (P : string → Stack → Prop) filenames :
  (∀ module fpath s, bc_try fs bc_errors module fpath = Ok s → P module s) →
  ∀ st, map_Forall P st.1 →
        map_Forall P (foldl (bc_step fs bc_errors) st filenames).1.
Proof.
  intros Htry. induction filenames as [|[m p] rest IH]; intros [parsed errlogs] Hinv.
  - done.
  - simpl. apply IH. destruct (bc_try fs bc_errors m p) as [s|e] eqn:Hs; simpl.
    + apply map_Forall_insert_2; [by eapply Htry | done].
    + done.
Qed.

Lemma exp_try_Stored fs module fpath s :
  exp_try fs module fpath = Ok (Stored s) →
  ∃ d, s = mkStack module d VNone VNone.
Proof.
  unfold exp_try. intros Htry.
  repeat case_decide;
    first [ apply bind_Ok in Htry as (d & _ & [= <-]); by exists d
          | by destruct (parse_saxs_data _ _)
          | by destruct (parse_cs_data _ _)
          | by destruct (parse_nmrstar_data _ _ _)
          | done ].
Qed.

(** What one turn of the experimental loop stores is a container without
    uncertainty parameters. *)
Lemma exp_step_stores fs parsed data0 module fpath parsed' data1 :
  exp_step fs (parsed, data0) (module, fpath) = Ok (parsed', data1) →
  ∃ d, parsed' = <[module := mkStack module d VNone VNone]> parsed.
Proof.
  unfold exp_step. destruct (exp_try fs module fpath) as [[d|s|]|e] eqn:Htry.
  - intros [= <- <-]. by exists d.
  - apply exp_try_Stored in Htry as [d ->]. intros [= <- <-]. by exists d.
  - intros [= <- <-]. by exists data0.
  - destruct e; try done.
    intros (d & _ & [= <- <-])%bind_Ok. by exists d.
Qed.

Lemma exp_loop_inv fs (P : string → Stack → Prop) filenames :
  (∀ module d, P module (mkStack module d VNone VNone)) →
  ∀ st st', exp_loop fs filenames st = Ok st' →
            map_Forall P st.1 → map_Forall P st'.1.
Proof.
  intros HP. induction filenames as [|[m p] rest IH]; intros st st' Hloop Hinv.
  - simpl in Hloop. by injection Hloop as <-.
  - simpl in Hloop. apply bind_Ok in Hloop as ([parsed1 data1] & Hstep & Hloop).
    apply (IH _ _ Hloop). destruct st as [parsed data0].
    apply exp_step_stores in Hstep as [d ->]. simpl.
    by apply map_Forall_insert_2.
Qed.

(** C5.  A container that [parse_data] returns under the key [module]
    has, in experimental mode, [None] for sigma and for mu; in
    back-calculated mode its sigma is the entry of the uncertainty table
    for [module] and its mu is the constant [jc_bc_mu] when [module] is
    the J-coupling name and [None] when it is not. *)
Theorem stack_uncertainty_parameters fs filenames mode bc_errors
    parsed errlogs module s :
  parse_data fs filenames mode bc_errors = Ok (parsed, errlogs) →
  parsed !! module = Some s →
  if decide (mode = parse_mode_exp)
  then sigma s = VNone ∧ mu s = VNone
  else bc_errors !! module = Some (sigma s)
       ∧ mu s = (if decide (module = jc_name) then jc_bc_mu else VNone).
Proof.
  unfold parse_data. intros Hparse Hs. case_decide as Hmode.
  - apply bind_Ok in Hparse as ([parsed' data'] & Hloop & [= <- _]).
    pose proof (exp_loop_inv fs (λ _ s, sigma s = VNone ∧ mu s = VNone)
                  filenames (λ _ _, conj eq_refl eq_refl) _ _ Hloop) as Hinv.
    simpl in Hinv. eapply Hinv; [|done]. apply map_Forall_empty.
  - injection Hparse as Hparse.
    pose proof (bc_loop_inv fs bc_errors
      (λ m s, bc_errors !! m = Some (sigma s)
              ∧ mu s = (if decide (m = jc_name) then jc_bc_mu else VNone))
      filenames (bc_try_params fs bc_errors) (∅, [])) as Hinv.
    rewrite Hparse in Hinv. simpl in Hinv. eapply Hinv; [|done].
    apply map_Forall_empty.
Qed.

(** ** parse_data on experimental files *)

Lemma exp_loop_cons fs entry rest st :
  exp_loop fs (entry :: rest) st
  = exp_step fs st entry ≫= exp_loop fs rest.
Proof. done. Qed.

Lemma exp_loop_app fs l1 l2 st :
  exp_loop fs (l1 ++ l2) st = exp_loop fs l1 st ≫= exp_loop fs l2.
Proof.
  revert st. induction l1 as [|entry l1 IH]; intros st; simpl; [done|].
  destruct (exp_step fs st entry) as [st1|e]; simpl; [apply IH | done].
Qed.

Lemma exp_loop_frame fs filenames parsed data0 parsed' data1 k :
  exp_loop fs filenames (parsed, data0) = Ok (parsed', data1) →
  k ∉ filenames.*1 →
  parsed' !! k = parsed !! k.
Proof.
  revert parsed data0.
  induction filenames as [|[m p] rest IH]; intros parsed data0 Hloop Hk.
  - simpl in Hloop. by injection Hloop as <- <-.
  - simpl in Hloop. apply bind_Ok in Hloop as ([parsed1 d1] & Hstep & Hloop).
    rewrite fmap_cons, not_elem_of_cons in Hk. destruct Hk as [Hne Hk].
    rewrite (IH _ _ Hloop Hk).
    apply exp_step_stores in Hstep as [d ->]. by rewrite lookup_insert_ne.
Qed.

(** A name that is none of the eight takes no branch of the dispatch. *)
Lemma exp_try_unrecognized fs module fpath :
  module ∉ [saxs_name; cs_name; fret_name; jc_name; noe_name; pre_name;
            rdc_name; rh_name] →
  exp_try fs module fpath = Ok Untouched.
Proof.
  intros Hm. rewrite !not_elem_of_cons in Hm.
  destruct Hm as (? & ? & ? & ? & ? & ? & ? & ? & _). unfold exp_try.
  by rewrite !decide_False by done.
Qed.

Lemma exp_try_Stored_name fs module fpath s :
  exp_try fs module fpath = Ok (Stored s) →
  module = fret_name ∨ module = rh_name.
Proof.
  unfold exp_try. intros Htry.
  repeat case_decide;
    first [ by left | by right
          | by destruct (parse_saxs_data _ _)
          | by destruct (parse_cs_data _ _)
          | by destruct (parse_nmrstar_data _ _ _)
          | done ].
Qed.

(** Outside the FRET and Rh branches, the container stored by a turn
    holds the table that the turn leaves in [data]. *)
Lemma exp_step_data fs parsed data0 module fpath parsed' data1 :
  exp_step fs (parsed, data0) (module, fpath) = Ok (parsed', data1) →
  module ≠ fret_name → module ≠ rh_name →
  parsed' !! module = Some (mkStack module data1 VNone VNone).
Proof.
  unfold exp_step. intros Hstep Hfret Hrh.
  destruct (exp_try fs module fpath) as [[d|s|]|e] eqn:Htry.
  - injection Hstep as <- <-. apply lookup_insert_eq.
  - apply exp_try_Stored_name in Htry as [? | ?]; done.
  - injection Hstep as <- <-. apply lookup_insert_eq.
  - destruct e; try done.
    apply bind_Ok in Hstep as (d & _ & [= <- <-]). apply lookup_insert_eq.
Qed.

(** The FRET and Rh branches store their container themselves and leave
    [data] as it was. *)
Lemma exp_step_keeps_data fs parsed data0 module fpath parsed' data1 :
  fret_name ∉ [saxs_name; cs_name] →
  rh_name ∉ [saxs_name; cs_name; jc_name; noe_name; pre_name; rdc_name] →
  module = fret_name ∨ module = rh_name →
  exp_step fs (parsed, data0) (module, fpath) = Ok (parsed', data1) →
  data1 = data0.
Proof.
  intros Hfret Hrh Hm.
  assert (exp_try fs module fpath =
          (d ← pd_read_csv fs fpath; Ok (Stored (mkStack module d VNone VNone))))
    as Htry.
  { rewrite !not_elem_of_cons in Hfret. rewrite !not_elem_of_cons in Hrh.
    destruct Hfret as (? & ? & _). destruct Hrh as (? & ? & ? & ? & ? & ? & _).
    unfold exp_try. destruct Hm as [-> | ->].
    - rewrite !decide_False by done. by rewrite decide_True.
    - rewrite !decide_False by done. case_decide; [done|].
      rewrite !decide_False by done. by rewrite decide_True. }
  unfold exp_step. rewrite Htry.
  destruct (pd_read_csv fs fpath) as [d|e]; simpl.
  - by intros [= _ <-].
  - by destruct e.
Qed.

Lemma exp_loop_keeps_data fs filenames parsed data0 parsed' data1 :
  fret_name ∉ [saxs_name; cs_name] →
  rh_name ∉ [saxs_name; cs_name; jc_name; noe_name; pre_name; rdc_name] →
  Forall (λ entry, entry.1 = fret_name ∨ entry.1 = rh_name) filenames →
  exp_loop fs filenames (parsed, data0) = Ok (parsed', data1) →
  data1 = data0.
Proof.
  intros Hfret Hrh Hall. revert parsed data0.
  induction Hall as [|[m p] rest Hm Hrest IH]; intros parsed data0 Hloop.
  - simpl in Hloop. by injection Hloop as _ <-.
  - simpl in Hloop. apply bind_Ok in Hloop as ([parsed1 d1] & Hstep & Hloop).
    apply IH in Hloop as ->.
    by eapply exp_step_keeps_data.
Qed.

(** C10, as amended.  In experimental mode, when [parse_data] returns for
    a mapping that holds a name outside the eight modality names, the
    error log is empty and the name maps to a container built without
    reading any file: its table is the one last assigned to [data], which
    is the table of the nearest earlier entry other than FRET and Rh, and
    the initial empty table when there is no such entry. *)
Theorem unrecognized_modality_container fs before after module fpath
    bc_errors parsed errlogs :
  module ∉ [saxs_name; cs_name; fret_name; jc_name; noe_name; pre_name;
            rdc_name; rh_name] →
  fret_name ∉ [saxs_name; cs_name] →
  rh_name ∉ [saxs_name; cs_name; jc_name; noe_name; pre_name; rdc_name] →
  NoDup (before ++ (module, fpath) :: after).*1 →
  parse_data fs (before ++ (module, fpath) :: after) parse_mode_exp bc_errors
  = Ok (parsed, errlogs) →
  errlogs = []
  ∧ ∃ d,
      parsed !! module = Some (mkStack module d VNone VNone)
      ∧ (∀ fs' parsed0 data0,
           exp_step fs' (parsed0, data0) (module, fpath)
           = Ok (<[module := mkStack module data0 VNone VNone]> parsed0, data0))
      ∧ (Forall (λ entry, entry.1 = fret_name ∨ entry.1 = rh_name) before →
           d = empty_frame)
      ∧ (∀ before1 m p before2,
           before = before1 ++ (m, p) :: before2 →
           m ≠ fret_name → m ≠ rh_name →
           Forall (λ entry, entry.1 = fret_name ∨ entry.1 = rh_name) before2 →
           ∃ s, parsed !! m = Some s ∧ data s = d).
Proof.
  intros Hm Hfret Hrh Hnd Hparse.
  assert (∀ fs' parsed0 data0,
           exp_step fs' (parsed0, data0) (module, fpath)
           = Ok (<[module := mkStack module data0 VNone VNone]> parsed0, data0))
    as Hstep.
  { intros. unfold exp_step. by rewrite exp_try_unrecognized. }
  unfold parse_data in Hparse. rewrite decide_True in Hparse by done.
  apply bind_Ok in Hparse as ([parsed' data'] & Hloop & [= <- <-]).
  split; [done|].
  rewrite exp_loop_app in Hloop.
  apply bind_Ok in Hloop as ([parsed1 d1] & Hbefore & Hloop).
  rewrite exp_loop_cons, Hstep in Hloop. simpl in Hloop.
  rewrite fmap_app, fmap_cons in Hnd. simpl in Hnd.
  apply NoDup_app in Hnd as (Hnd1 & Hdisj & [Hafter Hnd2]%NoDup_cons).
  exists d1. split; [|split; [done|split]].
  - rewrite (exp_loop_frame _ _ _ _ _ _ _ Hloop Hafter). apply lookup_insert_eq.
  - intros Hall. by eapply exp_loop_keeps_data.
  - intros before1 m p before2 -> Hmf Hmr Hall.
    rewrite exp_loop_app in Hbefore.
    apply bind_Ok in Hbefore as ([parsed_a d_a] & _ & Hbefore).
    rewrite exp_loop_cons in Hbefore.
    apply bind_Ok in Hbefore as ([parsed_b d_b] & Hturn & Hrest).
    rewrite fmap_app, fmap_cons in Hnd1, Hdisj. simpl in Hnd1, Hdisj.
    apply NoDup_app in Hnd1 as (_ & _ & [Hm2 _]%NoDup_cons).
    assert (m ∈ before1.*1 ++ m :: before2.*1) as Hin by set_solver.
    specialize (Hdisj m Hin). rewrite not_elem_of_cons in Hdisj.
    destruct Hdisj as [Hne Hm3].
    exists (mkStack m d_b VNone VNone). split.
    + rewrite (exp_loop_frame _ _ _ _ _ _ _ Hloop Hm3).
      rewrite lookup_insert_ne by done.
      rewrite (exp_loop_frame _ _ _ _ _ _ _ Hrest Hm2).
      by eapply exp_step_data.
    + simpl. symmetry. by eapply exp_loop_keeps_data.
Qed.

End Properties.

(** * Further properties of the parsers *)

Section Parsers.
Context `{Reg : Registry}.

(** ** The table of parse_saxs_data *)

(** X1.  Whatever the file holds, a table that [parse_saxs_data] returns
    is the one built from three empty columns. *)
Theorem parse_saxs_data_never_rows fs fpath df :
  parse_saxs_data fs fpath = Ok df →
  df = Frame (dict_display [(exp_idx, []); (exp_val, []); (exp_err, [])])
  ∧ ∀ c col, df_cols df !! c = Some col → col = [].
Proof.
  unfold parse_saxs_data, saxs_of_lines. intros Hparse.
  apply bind_Ok in Hparse as (lines & _ & Hparse).
  apply bind_Ok in Hparse as (_ & _ & Hparse).
  apply bind_Ok in Hparse as ([[index val] error] & Hrows & Hdf).
  destruct (saxs_rows_inv lines ([], [], [])) as [[_ Hok] | [_ Hraise]];
    [|congruence].
  rewrite Hok in Hrows. injection Hrows as <- <- <-.
  apply pd_DataFrame_Ok in Hdf as ->. split; [done|].
  apply empty_columns_lookup.
Qed.

(** ** The exceptions of the stripped-dialect parsers *)














(** ** Files without data lines, headers without a field *)

Ltac by_bind :=
  unfold nmrstar_bind, cs_bind; intros;
  repeat first [ case_decide | case_match ]; simpl; congruence.

Lemma header_scan_no_data bind lines :
  Forall (λ line, contains "_" line = true ∧ ∃ f, field_name line = Ok f) lines →
  ∀ i o, ∃ o', header_scan bind i lines o = Ok o'
               ∧ (start_idx o = None →
                  (∀ dtype i o, start_idx (bind dtype i o) = start_idx o) →
                  start_idx o' = None).
Proof.
  induction 1 as [|line rest [Hc [f Hf]] _ IH]; intros i o.
  - exists o. by split.
  - simpl. rewrite Hc, Hf. simpl.
    destruct (IH (S i) (bind f i o)) as (o' & Hscan & Hstart).
    exists o'. split; [done|]. intros Hnone Hbind. apply Hstart; [|done].
    by rewrite Hbind.
Qed.

(** X3.  A file in which every line is a declaration (an underscore, and
    a field name after the first dot) has no line that starts the data
    block: [parse_cs_data] and [parse_nmrstar_data] end in
    [UnboundLocalError], the local [start_idx] never being bound. *)
Theorem declarations_only_raises fs fpath lines t :
  fs fpath = Some lines →
  first0 lines = Some t →
  t ≠ exp_idx →
  Forall (λ line, contains "_" line = true ∧ ∃ f, field_name line = Ok f) lines →
  parse_cs_data fs fpath = Raise UnboundLocalError
  ∧ ∀ type, parse_nmrstar_data fs fpath type = Raise UnboundLocalError.
Proof.
  intros Hfs Hfirst Hne Hall.
  unfold parse_cs_data, parse_nmrstar_data, readlines. rewrite Hfs. simpl.
  unfold cs_of_lines, nmrstar_of_lines.
  rewrite (dialect_guard_stripped _ _ Hfirst Hne). simpl. split.
  - destruct (header_scan_no_data cs_bind lines Hall 0 no_offsets)
      as (o & -> & Hstart). simpl.
    by rewrite (Hstart eq_refl cs_bind_start).
  - intros type.
    destruct (header_scan_no_data (nmrstar_bind type) lines Hall 0 no_offsets)
      as (o & -> & Hstart). simpl.
    by rewrite (Hstart eq_refl (nmrstar_bind_start type)).
Qed.

Lemma py_range_cons start stop :
  start < stop → py_range start stop = start :: py_range (S start) stop.
Proof.
  intros Hlt. unfold py_range.
  replace (stop - start) with (S (stop - S start)) by lia. done.
Qed.

(** X4.  When the header of a stripped-dialect file never declares the
    field that a row loop reads first ([Atom_ID] in [parse_cs_data], [Val]
    in [parse_nmrstar_data]), the parser does not read from some default
    position: it ends in [UnboundLocalError] at the first data line. *)
Theorem undeclared_field_raises fs fpath lines start :
  fs fpath = Some lines →
  stripped lines start →
  ((∀ j line, j < start → lines !! j = Some line →
      field_name line ≠ Ok "Atom_ID") →
   parse_cs_data fs fpath = Raise UnboundLocalError)
  ∧ ((∀ j line, j < start → lines !! j = Some line →
        field_name line ≠ Ok "Val") →
     ∀ type, parse_nmrstar_data fs fpath type = Raise UnboundLocalError).
Proof.
  intros Hfs ((t & Hfirst & Hne) & Hhead & Hdata).
  unfold parse_cs_data, parse_nmrstar_data, readlines. rewrite Hfs. simpl.
  unfold cs_of_lines, nmrstar_of_lines.
  rewrite (dialect_guard_stripped _ _ Hfirst Hne). simpl.
  assert (start < length lines) as Hlt.
  { destruct Hdata as (line & Hline & _). by eapply lookup_lt_Some. }
  assert (∀ fld, (∀ j line, j < start → lines !! j = Some line →
                    field_name line ≠ Ok fld) →
          ∀ j line, lines !! j = Some line → contains "_" line = true →
            (∀ k l, k < j → lines !! k = Some l → contains "_" l = true) →
            field_name line ≠ Ok fld) as Hnone.
  { intros fld Hno j line Hline Hc Hbefore.
    destruct (decide (j < start)) as [Hj|Hj]; [by eapply Hno|].
    destruct Hdata as (ld & Hld & Hcd).
    destruct (decide (j = start)) as [->|Hneq]; [congruence|].
    rewrite (Hbefore start ld) in Hcd; [done | lia | done]. }
  split.
  - intros Hno.
    destruct (header_scan_accepts cs_bind cs_bind_start start lines Hhead Hdata
                0 no_offsets) as (o & Hscan & Hstart).
    pose proof (header_scan_keeps cs_bind atom_idx "Atom_ID" ltac:(by_bind)
                  (λ _ _, eq_refl) lines 0 _ _ Hscan (Hnone _ Hno)) as Ha.
    rewrite Hscan. simpl. rewrite Hstart. simpl.
    rewrite (py_range_cons start) by done. cbn [cs_rows].
    destruct Hdata as (ld & Hld & _). unfold getitem. rewrite Hld.
    cbn [mbind result_bind]. by rewrite Ha.
  - intros Hno type.
    destruct (header_scan_accepts (nmrstar_bind type) (nmrstar_bind_start type)
                start lines Hhead Hdata 0 no_offsets) as (o & Hscan & Hstart).
    pose proof (header_scan_keeps (nmrstar_bind type) data_idx "Val"
                  ltac:(by_bind) (λ _ _, eq_refl) lines 0 _ _ Hscan
                  (Hnone _ Hno)) as Hd.
    rewrite Hscan. simpl. rewrite Hstart. simpl.
    rewrite (py_range_cons start) by done. cbn [nmrstar_rows].
    destruct Hdata as (ld & Hld & _). unfold getitem. rewrite Hld.
    cbn [mbind result_bind]. by rewrite Hd.
Qed.

(** X5.  The header scan ends at the first line without an underscore:
    what follows that line, underscores or not, has no part in the
    positions it records. *)
Theorem header_scan_stops_at_data bind head line rest rest' i o :
  contains "_" line = false →
  header_scan bind i (head ++ line :: rest) o
  = header_scan bind i (head ++ line :: rest') o.
Proof.
  intros Hc. revert i o. induction head as [|l head IH]; intros i o; simpl.
  - by rewrite Hc.
  - destruct (contains "_" l); [|done].
    destruct (field_name l); simpl; [apply IH | done].
Qed.

(** ** The dialect test, read on the text of the first line *)

Lemma split_on_no_sep sep s : contains sep s = false → split_on sep s = [s].
Proof.
  induction s as [|c s IH]; simpl; [done|].
  intros [Hc Hs]%orb_false_iff. rewrite Hc, (IH Hs). done.
Qed.

Lemma split_on_sep sep h rest :
  contains sep h = false →
  split_on sep (h +:+ String sep rest) = h :: split_on sep rest.
Proof.
  induction h as [|c h IH]; simpl.
  - intros _. by rewrite Ascii.eqb_refl.
  - intros [Hc Hh]%orb_false_iff. rewrite Hc, (IH Hh). done.
Qed.

Lemma split_on_first sep s :
  ∃ h t, split_on sep s = h :: t
         ∧ contains sep h = false
         ∧ (s = h ∨ ∃ rest, s = h +:+ String sep rest).
Proof.
  induction s as [|c s (h & t & Hsplit & Hh & Hs)]; simpl.
  - exists "", []. split; [done|]. split; [done|]. by left.
  - destruct (Ascii.eqb c sep) eqn:Hc.
    + apply Ascii.eqb_eq in Hc as ->. exists "", (split_on sep s).
      split; [done|]. split; [done|]. right. by exists s.
    + rewrite Hsplit. exists (String c h), t. split; [done|]. split.
      { simpl. by rewrite Hc, Hh. }
      destruct Hs as [-> | [rest ->]]; [by left|]. right. by exists rest.
Qed.

(** X6.  The dialect test raises [TypeError] exactly when the first line
    of the file is the index header itself or starts with the index header
    followed by a comma.  A first line that spells the header and then
    ends, as a one-column table does, still carries its line terminator
    and passes for the stripped dialect. *)
Theorem dialect_guard_on_text lines :
  contains "," exp_idx = false →
  dialect_guard lines = Raise TypeError
  ↔ ∃ line0, lines !! 0 = Some line0
             ∧ (line0 = exp_idx ∨ ∃ rest, line0 = exp_idx +:+ String "," rest).
Proof.
  intros Hidx. rewrite dialect_guard_first0. unfold first0. split.
  - destruct (lines !! 0) as [line0|]; simpl; [|done].
    destruct (split_on_first "," line0) as (h & t & Hsplit & _ & Hline).
    rewrite Hsplit. simpl. case_decide as Hh; [|done]. subst h.
    intros _. by exists line0.
  - intros (line0 & -> & Hline). simpl.
    destruct Hline as [-> | [rest ->]].
    + rewrite split_on_no_sep by done. simpl. by rewrite decide_True.
    + rewrite split_on_sep by done. simpl. by rewrite decide_True.
Qed.

(** ** The rows of the tables *)

Lemma dom_dict_display {A} (items : list (string * A)) :
  dom (dict_display items) = list_to_set items.*1.
Proof.
  unfold dict_display.
  assert (∀ m : gmap string A,
            dom (foldl (λ m kv, <[kv.1 := kv.2]> m) m items)
            = dom m ∪ list_to_set items.*1) as Hgen.
  { induction items as [|[k v] items IH]; intros m; simpl.
    - set_solver.
    - rewrite IH, dom_insert_L. set_solver. }
  rewrite Hgen, dom_empty_L. set_solver.
Qed.

Lemma py_float_str_Ok tok x :
  py_float (VStr tok) = Ok x ↔ float_of_str tok = Some x.
Proof. simpl. destruct (float_of_str tok); split; congruence. Qed.

Lemma cs_rows_cols o lines idxs acc acc' :
  cs_rows o lines idxs acc = Ok acc' →
  ∃ toks xs ys,
    acc'.1.1.2 = acc.1.1.2 ++ (VStr <$> toks)
    ∧ acc'.1.2 = acc.1.2 ++ (VFloat <$> xs)
    ∧ acc'.2 = acc.2 ++ (VFloat <$> ys)
    ∧ Forall2 (λ idx tok, token_at lines (atom_idx o) idx tok) idxs toks
    ∧ Forall2 (λ idx x, number_at lines (data_idx o) idx x) idxs xs
    ∧ Forall2 (λ idx y, number_at lines (error_idx o) idx y) idxs ys.
Proof.
  revert acc. induction idxs as [|idx rest IH]; intros acc Hrows.
  - simpl in Hrows. injection Hrows as <-. exists [], [], []. simpl.
    rewrite !app_nil_r. by repeat split; constructor.
  - destruct acc as [[[index atoms] values] errors]. simpl in Hrows.
    apply bind_Ok in Hrows as (line & Hline%getitem_Ok & Hrows).
    apply bind_Ok in Hrows as (a & Ha%local_Ok & Hrows).
    apply bind_Ok in Hrows as (atom & Hatom%getitem_Ok & Hrows).
    apply bind_Ok in Hrows as (d & Hd%local_Ok & Hrows).
    apply bind_Ok in Hrows as (vd & Hvd%getitem_Ok & Hrows).
    apply bind_Ok in Hrows as (x & Hx%py_float_str_Ok & Hrows).
    apply bind_Ok in Hrows as (e & He%local_Ok & Hrows).
    apply bind_Ok in Hrows as (ve & Hve%getitem_Ok & Hrows).
    apply bind_Ok in Hrows as (y & Hy%py_float_str_Ok & Hrows).
    apply IH in Hrows as (toks & xs & ys & Ht & Hxs & Hys & Ft & Fx & Fy).
    simpl in *. exists (atom :: toks), (x :: xs), (y :: ys).
    rewrite Ht, Hxs, Hys. simpl. rewrite <- !app_assoc.
    do 3 (split; [done|]).
    split; [|split]; (constructor; [|done]).
    + by exists line, a.
    + exists vd. split; [|done]. by exists line, d.
    + exists ve. split; [|done]. by exists line, e.
Qed.

Lemma nmrstar_rows_cols type o lines idxs acc acc' :
  nmrstar_rows type o lines idxs acc = Ok acc' →
  ∃ xs ys,
    acc'.1.1.1.2 = acc.1.1.1.2 ++ (VFloat <$> xs)
    ∧ acc'.2 = acc.2 ++ (VFloat <$> ys)
    ∧ Forall2 (λ idx x, number_at lines (data_idx o) idx x) idxs xs
    ∧ Forall2 (λ idx y, number_at lines (error_idx o) idx y) idxs ys.
Proof.
  revert acc. induction idxs as [|idx rest IH]; intros acc Hrows.
  - simpl in Hrows. injection Hrows as <-. exists [], []. simpl.
    rewrite !app_nil_r. by repeat split; constructor.
  - destruct acc as [[[[index values] upper] lower] errors]. simpl in Hrows.
    apply bind_Ok in Hrows as (line & Hline%getitem_Ok & Hrows).
    apply bind_Ok in Hrows as (d & Hd%local_Ok & Hrows).
    apply bind_Ok in Hrows as (vd & Hvd%getitem_Ok & Hrows).
    apply bind_Ok in Hrows as (x & Hx%py_float_str_Ok & Hrows).
    apply bind_Ok in Hrows as (e & He%local_Ok & Hrows).
    apply bind_Ok in Hrows as (ve & Hve%getitem_Ok & Hrows).
    apply bind_Ok in Hrows as (y & Hy%py_float_str_Ok & Hrows).
    assert (∃ acc1, nmrstar_rows type o lines rest acc1 = Ok acc'
                    ∧ acc1.1.1.1.2 = values ++ [VFloat x]
                    ∧ acc1.2 = errors ++ [VFloat y]) as (acc1 & Hrest & Hv & He').
    { destruct (is_noe_pre type).
      - do 6 (apply bind_Ok in Hrows as (? & _ & Hrows)). eauto.
      - eauto. }
    apply IH in Hrest as (xs & ys & Hxs & Hys & Fx & Fy).
    simpl in *. exists (x :: xs), (y :: ys).
    rewrite Hxs, Hys, Hv, He'. simpl. rewrite <- !app_assoc.
    do 2 (split; [done|]).
    split; (constructor; [|done]).
    + exists vd. split; [|done]. by exists line, d.
    + exists ve. split; [|done]. by exists line, e.
Qed.

Lemma cs_bind_field (proj : offsets → option nat) (fld : string) :
  (proj, fld) ∈ [(data_idx, "Val"); (error_idx, "Val_err");
                 (atom_idx, "Atom_ID")] →
  ∀ dtype i o mx, proj (cs_bind dtype i o) = Some mx →
                  proj o = Some mx ∨ (mx = i ∧ dtype = fld).
Proof.
  intros Hin dtype i o mx.
  repeat (apply elem_of_cons in Hin as [[= -> ->] | Hin];
          [ unfold cs_bind; repeat case_decide; simpl; intros Hmx;
            first [ by left | right; split; congruence ] | ]).
  by apply elem_of_nil in Hin.
Qed.

Lemma nmrstar_bind_field type (proj : offsets → option nat) (fld : string) :
  (proj, fld) ∈ [(data_idx, "Val"); (error_idx, "Val_err")] →
  ∀ dtype i o mx, proj (nmrstar_bind type dtype i o) = Some mx →
                  proj o = Some mx ∨ (mx = i ∧ dtype = fld).
Proof.
  intros Hin dtype i o mx.
  repeat (apply elem_of_cons in Hin as [[= -> ->] | Hin];
          [ unfold nmrstar_bind; destruct (is_noe_pre type);
            repeat case_decide; simpl; intros Hmx;
            first [ by left | right; split; congruence ] | ]).
  by apply elem_of_nil in Hin.
Qed.

Lemma Forall2_range_rows {A} (P : nat → A → Prop) start stop (us : list A) :
  Forall2 P (py_range start stop) us →
  length us = stop - start ∧ ∀ r u, us !! r = Some u → P (start + r) u.
Proof. apply Forall2_range. Qed.

(** X7.  A table returned by [parse_cs_data] has the four columns of the
    chemical-shift schema and one row for every line from the first data
    line to the end of the file: the atom is the token found at the line
    offset of the [Atom_ID] declaration, the value and the error are the
    numbers spelled by the tokens at the offsets of the [Val] and
    [Val_err] declarations. *)
Theorem parse_cs_data_rows fs fpath lines df :
  NoDup [exp_idx; exp_atmID; exp_val; exp_err] →
  fs fpath = Some lines →
  parse_cs_data fs fpath = Ok df →
  ∃ o start atoms values errors,
    header_scan cs_bind 0 lines no_offsets = Ok o
    ∧ start_idx o = Some start
    ∧ declared_at lines (atom_idx o) "Atom_ID"
    ∧ declared_at lines (data_idx o) "Val"
    ∧ declared_at lines (error_idx o) "Val_err"
    ∧ dom (df_cols df) = {[exp_idx; exp_atmID; exp_val; exp_err]}
    ∧ df_cols df !! exp_atmID = Some (VStr <$> atoms)
    ∧ df_cols df !! exp_val = Some (VFloat <$> values)
    ∧ df_cols df !! exp_err = Some (VFloat <$> errors)
    ∧ length atoms = length lines - start
    ∧ length values = length lines - start
    ∧ length errors = length lines - start
    ∧ (∀ r tok, atoms !! r = Some tok →
         token_at lines (atom_idx o) (start + r) tok)
    ∧ (∀ r x, values !! r = Some x →
         number_at lines (data_idx o) (start + r) x)
    ∧ (∀ r y, errors !! r = Some y →
         number_at lines (error_idx o) (start + r) y).
Proof.
  intros Hnd Hfs Hparse.
  unfold parse_cs_data, readlines in Hparse. rewrite Hfs in Hparse.
  simpl in Hparse. unfold cs_of_lines in Hparse.
  apply bind_Ok in Hparse as (_ & _ & Hparse).
  apply bind_Ok in Hparse as (o & Hscan & Hparse).
  apply bind_Ok in Hparse as (start & Hstart%local_Ok & Hparse).
  apply bind_Ok in Hparse as ([[[index atoms] values] errors] & Hrows & Hdf).
  apply pd_DataFrame_Ok in Hdf as ->.
  apply cs_rows_cols in Hrows as (toks & xs & ys & Ht & Hx & Hy & Ft & Fx & Fy).
  simpl in Ht, Hx, Hy. subst atoms values errors.
  apply Forall2_range_rows in Ft as [Htl Ft].
  apply Forall2_range_rows in Fx as [Hxl Fx].
  apply Forall2_range_rows in Fy as [Hyl Fy].
  assert (∀ proj fld,
            (proj, fld) ∈ [(data_idx, "Val"); (error_idx, "Val_err");
                           (atom_idx, "Atom_ID")] →
            declared_at lines (proj o) fld) as Hdecl.
  { intros proj fld Hin i Hi.
    destruct (header_scan_field cs_bind proj fld lines
                (cs_bind_field proj fld Hin)) with (i := 0) (o := no_offsets)
                (o' := o) (mx := i)
      as [Hno | (line & _ & Hline & _ & Hfield)]; [| done.. | |].
    - intros j o0. revert Hin. rewrite !elem_of_cons.
      intros [[= -> _] | [[= -> _] | [[= -> _] | Hnil]]]; try done.
      by apply elem_of_nil in Hnil.
    - revert Hin Hno. rewrite !elem_of_cons.
      intros [[= -> _] | [[= -> _] | [[= -> _] | Hnil]]]; try done.
      by apply elem_of_nil in Hnil.
    - rewrite Nat.sub_0_r in Hline. eauto. }
  apply NoDup_cons in Hnd as [Hn1 Hnd]. apply NoDup_cons in Hnd as [Hn2 Hnd].
  apply NoDup_cons in Hnd as [Hn3 _].
  exists o, start, toks, xs, ys. do 2 (split; [done|]).
  split; [apply Hdecl; set_solver|]. split; [apply Hdecl; set_solver|].
  split; [apply Hdecl; set_solver|]. cbn [df_cols].
  split; [rewrite dom_dict_display; set_solver|].
  split; [by apply (dict_display_lookup [_])|].
  split; [by apply (dict_display_lookup [_; _])|].
  split; [apply (dict_display_lookup [_; _; _]); apply not_elem_of_nil|].
  done.
Qed.

Lemma nmrstar_bounds_unread type lines i o o' :
  is_noe_pre type = false →
  header_scan (nmrstar_bind type) i lines o = Ok o' →
  max_idx o = None ∧ min_idx o = None →
  max_idx o' = None ∧ min_idx o' = None.
Proof.
  intros Hnp. revert i o. induction lines as [|l ls IH]; intros i o Hs Hn.
  - simpl in Hs. by injection Hs as <-.
  - simpl in Hs. destruct (contains "_" l).
    + apply bind_Ok in Hs as (dtype & _ & Hs).
      apply (IH _ _ Hs). unfold nmrstar_bind. rewrite Hnp.
      by repeat case_decide.
    + by injection Hs as <-.
Qed.

(** X8.  A table returned by [parse_nmrstar_data] has one row for every
    line from the first data line to the end of the file; the value and
    the error of a row are the numbers spelled by the tokens at the line
    offsets of the [Val] and [Val_err] declarations.  For NOE and PRE the
    value stands under the distance column and the table has five
    columns; for every other modality it stands under the value column,
    the table has three columns, and declarations of bounds are left
    unread. *)
Theorem parse_nmrstar_data_rows fs fpath type lines df :
  NoDup [exp_idx; exp_val; exp_dist_val; exp_max; exp_min; exp_err] →
  fs fpath = Some lines →
  parse_nmrstar_data fs fpath type = Ok df →
  ∃ o start values errors,
    header_scan (nmrstar_bind type) 0 lines no_offsets = Ok o
    ∧ start_idx o = Some start
    ∧ declared_at lines (data_idx o) "Val"
    ∧ declared_at lines (error_idx o) "Val_err"
    ∧ (if is_noe_pre type
       then dom (df_cols df)
            = {[exp_idx; exp_dist_val; exp_max; exp_min; exp_err]}
            ∧ df_cols df !! exp_dist_val = Some (VFloat <$> values)
       else dom (df_cols df) = {[exp_idx; exp_val; exp_err]}
            ∧ df_cols df !! exp_val = Some (VFloat <$> values)
            ∧ max_idx o = None ∧ min_idx o = None)
    ∧ df_cols df !! exp_err = Some (VFloat <$> errors)
    ∧ length values = length lines - start
    ∧ length errors = length lines - start
    ∧ (∀ r x, values !! r = Some x →
         number_at lines (data_idx o) (start + r) x)
    ∧ (∀ r y, errors !! r = Some y →
         number_at lines (error_idx o) (start + r) y).
Proof.
  intros Hnd Hfs Hparse.
  unfold parse_nmrstar_data, readlines in Hparse. rewrite Hfs in Hparse.
  simpl in Hparse. unfold nmrstar_of_lines in Hparse.
  apply bind_Ok in Hparse as (_ & _ & Hparse).
  apply bind_Ok in Hparse as (o & Hscan & Hparse).
  apply bind_Ok in Hparse as (start & Hstart%local_Ok & Hparse).
  apply bind_Ok in Hparse
    as ([[[[index values] upper] lower] errors] & Hrows & Hdf).
  apply nmrstar_rows_cols in Hrows as (xs & ys & Hxs & Hys & Fx & Fy).
  simpl in Hxs, Hys. subst values errors.
  apply Forall2_range_rows in Fx as [Hxl Fx].
  apply Forall2_range_rows in Fy as [Hyl Fy].
  assert (∀ proj fld,
            (proj, fld) ∈ [(data_idx, "Val"); (error_idx, "Val_err")] →
            declared_at lines (proj o) fld) as Hdecl.
  { intros proj fld Hin i Hi.
    destruct (header_scan_field (nmrstar_bind type) proj fld lines
                (nmrstar_bind_field type proj fld Hin)) with (i := 0)
                (o := no_offsets) (o' := o) (mx := i)
      as [Hno | (line & _ & Hline & _ & Hfield)]; [| done.. | |].
    - intros j o0. revert Hin. rewrite !elem_of_cons.
      intros [[= -> _] | [[= -> _] | Hnil]]; try done.
      by apply elem_of_nil in Hnil.
    - revert Hin Hno. rewrite !elem_of_cons.
      intros [[= -> _] | [[= -> _] | Hnil]]; try done.
      by apply elem_of_nil in Hnil.
    - rewrite Nat.sub_0_r in Hline. eauto. }
  exists o, start, xs, ys. do 2 (split; [done|]).
  split; [apply Hdecl; set_solver|]. split; [apply Hdecl; set_solver|].
  rewrite !NoDup_cons in Hnd. rewrite !not_elem_of_cons in Hnd.
  destruct Hnd as (H1 & H2 & H3 & H4 & H5 & _).
  destruct (is_noe_pre type) eqn:Hnp; apply pd_DataFrame_Ok in Hdf as ->;
    cbn [df_cols].
  - split.
    { split; [rewrite dom_dict_display; set_solver|].
      apply (dict_display_lookup [_]). simpl. set_solver. }
    split; [apply (dict_display_lookup [_; _; _; _]); apply not_elem_of_nil|].
    done.
  - split.
    { split; [rewrite dom_dict_display; set_solver|].
      split; [apply (dict_display_lookup [_]); simpl; set_solver|].
      by apply (nmrstar_bounds_unread type lines 0 no_offsets o). }
    split; [apply (dict_display_lookup [_; _]); apply not_elem_of_nil|].
    done.
Qed.

End Parsers.

(** * Further properties of the merger and of parse_data *)

Section Orchestrator.
Context `{Reg : Registry}.

(** ** parse_bc_errors, whatever its outcome *)



Lemma bc_errors_lines_app custom l1 l2 h :
  bc_errors_lines custom (l1 ++ l2) h
  = match bc_errors_lines custom l1 h with
    | (h1, Ok _) => bc_errors_lines custom l2 h1
    | (h1, Raise e) => (h1, Raise e)
    end.
Proof.
  revert h. induction l1 as [|line l1 IH]; intros h; [done|].
  simpl. unfold getitem.
  destruct (split_ws line !! 1) as [tok|]; simpl; [|reflexivity].
  destruct (float_of_str tok) as [x|]; simpl.
  - destruct (split_ws line !! 0); [apply IH | reflexivity].
  - destruct (literal_eval tok); [|reflexivity].
    destruct (split_ws line !! 0); [apply IH | reflexivity].
Qed.

(** X10.  When a line of the override file holds fewer than two tokens,
    [parse_bc_errors] raises [IndexError] there, and what the lines
    before it hold has already been written to the default table: every
    modality they list has the value of the last of them that lists it. *)
Theorem parse_bc_errors_stops_midway fs fpath good bad rest h :
  fs fpath = Some (good ++ bad :: rest) →
  Forall (λ line, ∃ k v, stores line k v) good →
  split_ws bad !! 1 = None →
  ∃ h',
    parse_bc_errors fs fpath h = (h', Raise IndexError)
    ∧ ∀ i line m v,
        good !! i = Some line →
        stores line m v →
        (∀ j line', i < j → good !! j = Some line' →
           split_ws line' !! 0 ≠ Some m) →
        deref h' default_bc_errors !! m = Some v.
Proof.
  intros Hfs Hgood Hbad.
  destruct (bc_errors_lines_spec default_bc_errors good Hgood h)
    as (h' & Hrun & _ & _ & Hlast).
  exists h'. split.
  - unfold parse_bc_errors, readlines. rewrite Hfs, bc_errors_lines_app, Hrun.
    simpl. unfold getitem. by rewrite Hbad.
  - intros i line m v Hi Hst Hlater. apply (Hlast i line); [done..|].
    intros j line' v' Hij Hj (tok & Hk & _). by apply (Hlater j line').
Qed.

(** The last line of a list that satisfies a decidable property. *)
Lemma last_such {A} (P : A → Prop) `{∀ x, Decision (P x)} (l : list A) :
  Exists P l →
  ∃ i x, l !! i = Some x ∧ P x ∧ ∀ j y, i < j → l !! j = Some y → ¬ P y.
Proof.
  induction l as [|a l IH]; intros Hex; [by apply Exists_nil in Hex|].
  destruct (decide (Exists P l)) as [Hl | Hl].
  - destruct (IH Hl) as (i & x & Hi & Hx & Hlast).
    exists (S i), x. split; [done|]. split; [done|].
    intros [|j] y Hj Hy; [lia|]. apply (Hlast j); [lia | done].
  - apply Exists_cons in Hex as [Ha | Hex]; [|done].
    exists 0, a. split; [done|]. split; [done|].
    intros [|j] y Hj Hy; [lia|]. intros Hy'. apply Hl.
    apply Exists_exists. exists y. split; [|done].
    apply list_elem_of_lookup. by exists j.
Qed.

(** X11.  Merging the same override file a second time changes nothing:
    the second call returns the same object holding the same table. *)
Theorem parse_bc_errors_twice fs fpath lines h :
  fs fpath = Some lines →
  Forall (λ line, ∃ k v, stores line k v) lines →
  ∃ h1 h2 table,
    parse_bc_errors fs fpath h = (h1, Ok table)
    ∧ parse_bc_errors fs fpath h1 = (h2, Ok table)
    ∧ deref h2 table = deref h1 table.
Proof.
  intros Hfs Hlines.
  destruct (bc_errors_lines_spec default_bc_errors lines Hlines h)
    as (h1 & Hrun1 & _ & _ & Hlast1).
  destruct (bc_errors_lines_spec default_bc_errors lines Hlines h1)
    as (h2 & Hrun2 & _ & Hun2 & Hlast2).
  exists h1, h2, default_bc_errors.
  unfold parse_bc_errors, readlines. rewrite Hfs, Hrun1, Hrun2.
  do 2 (split; [done|]). apply map_eq. intros m.
  destruct (decide (Exists (λ line, split_ws line !! 0 = Some m) lines))
    as [Hex | Hno].
  - apply last_such in Hex as (i & line & Hi & Hk & Hlater); [|apply _].
    eapply Forall_lookup_1 in Hlines as (k & v & Hst); [|done].
    assert (k = m) as ->.
    { destruct Hst as (tok & Hk' & _). congruence. }
    assert (∀ j line' v', i < j → lines !! j = Some line' →
              ¬ stores line' m v') as Hnone.
    { intros j line' v' Hij Hj (tok & Hk' & _). by apply (Hlater j line'). }
    rewrite (Hlast1 i line m v), (Hlast2 i line m v); done.
  - apply Hun2. intros line v Hin (tok & Hk & _). apply Hno.
    apply Exists_exists. by exists line.
Qed.

(** ** parse_data in experimental mode *)

Lemma exp_try_missing fs module fpath :
  module ∈ [saxs_name; cs_name; fret_name; jc_name; noe_name; pre_name;
            rdc_name; rh_name] →
  fs fpath = None →
  exp_try fs module fpath = Raise FileNotFoundError.
Proof.
  intros Hin Hfs. unfold exp_try, parse_saxs_data, parse_cs_data,
    parse_nmrstar_data, pd_read_csv, readlines. rewrite Hfs.
  repeat (case_decide; [done|]).
  repeat (apply elem_of_cons in Hin as [->|Hin]; [done|]).
  by apply elem_of_nil in Hin.
Qed.

Lemma exp_loop_dom fs filenames parsed0 data0 parsed data1 :
  exp_loop fs filenames (parsed0, data0) = Ok (parsed, data1) →
  dom parsed = dom parsed0 ∪ list_to_set filenames.*1.
Proof.
  revert parsed0 data0.
  induction filenames as [|[m p] rest IH]; intros parsed0 data0 Hloop.
  - simpl in Hloop. injection Hloop as <- <-. set_solver.
  - rewrite exp_loop_cons in Hloop.
    apply bind_Ok in Hloop as ([parsed1 d1] & Hstep & Hloop).
    apply exp_step_stores in Hstep as [d ->].
    rewrite (IH _ _ Hloop), dom_insert_L. set_solver.
Qed.

Lemma exp_loop_opened fs filenames st st' module fpath :
  exp_loop fs filenames st = Ok st' →
  (module, fpath) ∈ filenames →
  module ∈ [saxs_name; cs_name; fret_name; jc_name; noe_name; pre_name;
            rdc_name; rh_name] →
  is_Some (fs fpath).
Proof.
  revert st. induction filenames as [|[m p] rest IH]; intros st Hloop Hin Hm.
  - by apply elem_of_nil in Hin.
  - rewrite exp_loop_cons in Hloop.
    apply bind_Ok in Hloop as (st1 & Hstep & Hloop).
    apply elem_of_cons in Hin as [[= <- <-] | Hin]; [|by eapply IH].
    destruct (fs fpath) as [lines|] eqn:Hfs; [done|].
    destruct st as [parsed data0]. unfold exp_step in Hstep.
    by rewrite (exp_try_missing _ _ _ Hm Hfs) in Hstep.
Qed.

(** X12.  When [parse_data] returns in experimental mode, the error log
    is empty, every key of the mapping it was given has a container,
    recognised modality or not, and the file of every recognised modality
    could be opened. *)
Theorem exp_mode_all_or_nothing fs filenames bc_errors parsed errlogs :
  parse_data fs filenames parse_mode_exp bc_errors = Ok (parsed, errlogs) →
  errlogs = []
  ∧ dom parsed = list_to_set filenames.*1
  ∧ ∀ module fpath,
      (module, fpath) ∈ filenames →
      module ∈ [saxs_name; cs_name; fret_name; jc_name; noe_name; pre_name;
                rdc_name; rh_name] →
      is_Some (fs fpath).
Proof.
  unfold parse_data. rewrite decide_True by done. intros Hparse.
  apply bind_Ok in Hparse as ([parsed' data'] & Hloop & [= <- <-]).
  split; [done|]. split.
  - rewrite (exp_loop_dom _ _ _ _ _ _ Hloop), dom_empty_L. set_solver.
  - intros module fpath. by eapply exp_loop_opened.
Qed.

(** X13.  Experimental mode isolates nothing: when the entries before
    one are processed and the [try] block of that one raises anything but
    [TypeError], [parse_data] raises the same exception, whatever entries
    follow. *)
Theorem exp_mode_aborts fs before module fpath after bc_errors st e :
  exp_loop fs before (∅, empty_frame) = Ok st →
  exp_try fs module fpath = Raise e →
  e ≠ TypeError →
  parse_data fs (before ++ (module, fpath) :: after) parse_mode_exp bc_errors
  = Raise e.
Proof.
  intros Hbefore Htry Hne. unfold parse_data. rewrite decide_True by done.
  rewrite exp_loop_app, Hbefore. cbn [mbind result_bind].
  rewrite exp_loop_cons. destruct st as [parsed data0]. unfold exp_step.
  rewrite Htry. by destruct e.
Qed.

(** X14.  FRET and hydrodynamic-radius files never meet the dialect
    test: the turn of the loop is the comma-delimited reading of the
    file, stored under the modality, and it leaves [data] as it was. *)
Theorem fret_rh_read_as_csv fs parsed data0 module fpath :
  fret_name ∉ [saxs_name; cs_name] →
  rh_name ∉ [saxs_name; cs_name; jc_name; noe_name; pre_name; rdc_name] →
  module = fret_name ∨ module = rh_name →
  exp_step fs (parsed, data0) (module, fpath)
  = (d ← pd_read_csv fs fpath;
     Ok (<[module := mkStack module d VNone VNone]> parsed, data0)).
Proof.
  intros Hfret Hrh Hm.
  assert (exp_try fs module fpath =
          (d ← pd_read_csv fs fpath; Ok (Stored (mkStack module d VNone VNone))))
    as Htry.
  { rewrite !not_elem_of_cons in Hfret. rewrite !not_elem_of_cons in Hrh.
    destruct Hfret as (? & ? & _). destruct Hrh as (? & ? & ? & ? & ? & ? & _).
    unfold exp_try. destruct Hm as [-> | ->].
    - rewrite !decide_False by done. by rewrite decide_True.
    - rewrite !decide_False by done. case_decide; [done|].
      rewrite !decide_False by done. by rewrite decide_True. }
  unfold exp_step. rewrite Htry.
  destruct (pd_read_csv fs fpath) as [d|e]; simpl; [done|]. by destruct e.
Qed.

(** ** parse_data in back-calculated mode *)

Lemma bc_loop_count fs bc_errors filenames :
  NoDup filenames.*1 →
  ∀ parsed0 errlogs0,
    (∀ k, k ∈ filenames.*1 → parsed0 !! k = None) →
    let st := foldl (bc_step fs bc_errors) (parsed0, errlogs0) filenames in
    size st.1 + length st.2
    = size parsed0 + length errlogs0 + length filenames
    ∧ dom st.1 ⊆ dom parsed0 ∪ list_to_set filenames.*1.
Proof.
  induction filenames as [|[m p] rest IH]; intros Hnd parsed0 errlogs0 Hfresh.
  - simpl. split; [lia | set_solver].
  - rewrite fmap_cons in Hnd. apply NoDup_cons in Hnd as [Hm Hnd]. simpl in Hm.
    simpl. destruct (bc_try fs bc_errors m p) as [s|e].
    + destruct (IH Hnd (<[m := s]> parsed0) errlogs0) as [Hcount Hdom].
      { intros k Hk. rewrite lookup_insert_ne by (intros ->; done).
        apply Hfresh. apply elem_of_cons. by right. }
      rewrite map_size_insert_None in Hcount.
      2: { apply Hfresh. apply elem_of_cons. by left. }
      split; [simpl in *; lia|]. rewrite dom_insert_L in Hdom. set_solver.
    + destruct (IH Hnd parsed0 (errlogs0 ++ [e])) as [Hcount Hdom].
      { intros k Hk. apply Hfresh. apply elem_of_cons. by right. }
      rewrite length_app in Hcount. split; [simpl in *; lia | set_solver].
Qed.

(** X15.  In back-calculated mode every entry of the mapping is accounted
    for exactly once: the containers and the logged exceptions add up to
    the number of entries, and no container stands under a key that was
    not given. *)
Theorem bc_mode_accounts_for_all fs filenames mode bc_errors parsed errlogs :
  mode ≠ parse_mode_exp →
  NoDup filenames.*1 →
  parse_data fs filenames mode bc_errors = Ok (parsed, errlogs) →
  size parsed + length errlogs = length filenames
  ∧ dom parsed ⊆ list_to_set filenames.*1.
Proof.
  intros Hmode Hnd. unfold parse_data. rewrite decide_False by done.
  intros [= Hrun].
  destruct (bc_loop_count fs bc_errors filenames Hnd ∅ []) as [Hcount Hdom].
  { intros k _. apply lookup_empty. }
  rewrite Hrun in Hcount, Hdom. simpl in Hcount, Hdom.
  rewrite map_size_empty in Hcount. rewrite dom_empty_L in Hdom.
  split; [lia | set_solver].
Qed.

(** X16.  A modality without an entry in the uncertainty table gets no
    container in back-calculated mode: reading the table raises
    [KeyError] inside the [try] block, after the file has been loaded. *)
Theorem bc_mode_needs_sigma fs filenames mode bc_errors parsed errlogs module :
  mode ≠ parse_mode_exp →
  bc_errors !! module = None →
  parse_data fs filenames mode bc_errors = Ok (parsed, errlogs) →
  parsed !! module = None
  ∧ ∀ fpath, (module, fpath) ∈ filenames → errlogs ≠ [].
Proof.
  intros Hmode Hnone. unfold parse_data. rewrite decide_False by done.
  intros [= Hrun]. split.
  - pose proof (bc_loop_inv fs bc_errors
                  (λ m s, bc_errors !! m = Some (sigma s)) filenames) as Hinv.
    specialize (Hinv (λ m p s Hs, proj1 (bc_try_params _ _ _ _ _ Hs)) (∅, [])).
    rewrite Hrun in Hinv. simpl in Hinv.
    destruct (parsed !! module) as [s|] eqn:Hs; [|done].
    apply Hinv in Hs; [congruence | apply map_Forall_empty].
  - intros fpath Hin.
    assert (∀ l st, (module, fpath) ∈ l ∨ st.2 ≠ [] →
              (foldl (bc_step fs bc_errors) st l).2 ≠ []) as Hgen.
    { induction l as [|[m p] l IH]; intros [parsed0 errs0] Hor.
      - destruct Hor as [Hnil%elem_of_nil | ?]; done.
      - simpl. apply IH.
        destruct Hor as [[[= <- <-] | Hl]%elem_of_cons | Herr].
        + right. destruct (bc_try fs bc_errors module fpath) as [s|e] eqn:Hs.
          * apply bc_try_params in Hs as [Hs _]. congruence.
          * simpl. by destruct errs0.
        + by left.
        + right. destruct (bc_try fs bc_errors m p); simpl; [done|].
          by destruct errs0. }
    specialize (Hgen filenames (∅, []) (or_introl Hin)).
    by rewrite Hrun in Hgen.
Qed.

Lemma bc_loop_frame fs bc_errors filenames st k :
  k ∉ filenames.*1 →
  (foldl (bc_step fs bc_errors) st filenames).1 !! k = st.1 !! k.
Proof.
  revert st. induction filenames as [|[m p] rest IH]; intros [parsed errs] Hk.
  - done.
  - rewrite fmap_cons, not_elem_of_cons in Hk. destruct Hk as [Hne Hk].
    simpl. rewrite IH by done.
    destruct (bc_try fs bc_errors m p); simpl; [|done].
    by rewrite lookup_insert_ne.
Qed.

Lemma bc_try_name fs bc_errors module fpath s :
  bc_try fs bc_errors module fpath = Ok s → name s = module.
Proof.
  unfold bc_try. intros Htry.
  do 6 (apply bind_Ok in Htry as (? & _ & Htry)).
  case_decide; by apply bind_Ok in Htry as (v & _ & [= <-]).
Qed.

(** X17.  In either mode a container that [parse_data] returns carries
    the name of the key it is stored under, and that key is one of the
    keys of the mapping that was given. *)
Theorem containers_named_by_key fs filenames mode bc_errors parsed errlogs
    module s :
  parse_data fs filenames mode bc_errors = Ok (parsed, errlogs) →
  parsed !! module = Some s →
  name s = module ∧ module ∈ filenames.*1.
Proof.
  unfold parse_data. intros Hparse Hs. case_decide as Hmode.
  - apply bind_Ok in Hparse as ([parsed' data'] & Hloop & [= <- _]). split.
    + pose proof (exp_loop_inv fs (λ m s, name s = m) filenames
                    (λ _ _, eq_refl) _ _ Hloop) as Hinv.
      simpl in Hinv. eapply Hinv; [apply map_Forall_empty | done].
    + destruct (decide (module ∈ filenames.*1)) as [|Hout]; [done|].
      rewrite (exp_loop_frame _ _ _ _ _ _ _ Hloop Hout) in Hs.
      by rewrite lookup_empty in Hs.
  - injection Hparse as Hrun. split.
    + pose proof (bc_loop_inv fs bc_errors (λ m s, name s = m) filenames
                    (bc_try_name fs bc_errors) (∅, [])) as Hinv.
      rewrite Hrun in Hinv. simpl in Hinv.
      eapply Hinv; [apply map_Forall_empty | done].
    + destruct (decide (module ∈ filenames.*1)) as [|Hout]; [done|].
      pose proof (bc_loop_frame fs bc_errors filenames (∅, []) module Hout)
        as Hframe.
      rewrite Hrun in Hframe. simpl in Hframe.
      rewrite Hframe, lookup_empty in Hs. done.
Qed.

(** X18.  What a malformed back-calculation file leaves in the error
    log.  When the JSON value is not an object the [try] block raises
    [TypeError] for PRE and NOE, whose [format] entry is deleted first,
    and [AttributeError] for the other modalities; a PRE or NOE object
    without a [format] entry raises [KeyError]; an object with no entry
    left to look at (the empty object, or for PRE and NOE one that holds
    [format] alone) raises [IndexError]. *)
Theorem bc_try_malformed fs bc_errors module fpath lines raw :
  fs fpath = Some lines →
  json_load lines = Ok raw →
  let restraint := bool_decide (module = pre_name)
                   || bool_decide (module = noe_name) in
  ((∀ items, raw ≠ VDict items) →
     bc_try fs bc_errors module fpath
     = Raise (if restraint then TypeError else AttributeError))
  ∧ (∀ items, raw = VDict items → restraint = true →
       (∀ kv, kv ∈ items → eq_str kv.1 "format" = false) →
       bc_try fs bc_errors module fpath = Raise KeyError)
  ∧ (∀ items, raw = VDict items →
       (if restraint then ∃ v, items = [(VStr "format", v)]
        else items = []) →
       bc_try fs bc_errors module fpath = Raise IndexError).
Proof.
  intros Hfs Hjson restraint. unfold bc_try, readlines.
  rewrite Hfs. cbn [mbind result_bind]. rewrite Hjson. cbn [mbind result_bind].
  fold restraint. split; [|split].
  - intros Hraw. destruct restraint; destruct raw; try done; by edestruct Hraw.
  - intros items -> -> Hno. simpl.
    replace (existsb (λ kv, eq_str kv.1 "format") items) with false; [done|].
    symmetry. apply not_true_is_false. intros (kv & Hin & Hkv)%existsb_exists.
    apply list_elem_of_In in Hin. rewrite (Hno kv Hin) in Hkv. done.
  - intros items -> Hitems. destruct restraint.
    + destruct Hitems as [v ->]. unfold py_del, existsb, List.filter, eq_str.
      cbn [fst]. by rewrite bool_decide_eq_true_2.
    + by subst items.
Qed.

End Orchestrator.

(** * The scoring command *)

Section Interface.
Context `{Col : Collaborators W}.

Lemma info_each_run errs w tr w' tr' r :
  info_each errs (w, tr) = ((w', tr'), r) →
  r = Ok tt
  ∧ tr' = tr ++ ((λ e, (Clog_info (msg_S e), Returned)) <$> errs).
Proof.
  revert w tr. induction errs as [|e errs IH]; intros w tr.
  - simpl. intros [= <- <- <-]. by rewrite app_nil_r.
  - simpl. unfold mbind, action_bind, bind, info, invoke. simpl.
    intros Hrun. apply IH in Hrun as [-> ->]. by rewrite <- app_assoc.
Qed.

(** Splits a membership in a list of calls into its cases. *)
Ltac members :=
  repeat match goal with
         | Hin : _ ∈ _ ++ _ |- _ => apply elem_of_app in Hin as [Hin | Hin]
         | Hin : _ ∈ _ :: _ |- _ => apply elem_of_cons in Hin as [Hin | Hin]
         | Hin : _ ∈ [] |- _ => by apply elem_of_nil in Hin
         | Hin : _ ∈ _ <$> _ |- _ =>
             apply list_elem_of_fmap in Hin as (? & ? & ?)
         | Hin : ∃ _, _ |- _ => destruct Hin as [? Hin]
         | Hin : _ ∧ _ |- _ => destruct Hin as [? Hin]
         end;
  simplify_eq.

Ltac members_of Hin :=
  repeat first [ apply elem_of_app in Hin as [Hin | Hin]
               | apply elem_of_cons in Hin as [Hin | Hin]
               | by apply elem_of_nil in Hin
               | apply list_elem_of_fmap in Hin as (? & ? & ?) ];
  simplify_eq.

Ltac found :=
  repeat first [ assumption
               | apply list_elem_of_here
               | apply list_elem_of_further
               | apply elem_of_app; left; assumption
               | apply elem_of_app; right ].

(** What the ensemble block adds to the calls, and what it leaves in the
    locals. *)
Lemma read_ensemble_run pdb_files tmpdir w tr w' tr' r :
  read_ensemble pdb_files tmpdir (w, tr) = ((w', tr'), r) →
  ∃ ev,
    tr' = tr ++ ev
    ∧ (∀ c o, (c, o) ∈ ev → ensemble_call c)
    ∧ (∀ p d o, (Cextract_from_tar p d, o) ∈ ev →
         pdb_files = Some p ∧ p ≠ "" ∧ d = tmpdir)
    ∧ (∀ p, (∃ o, (Cread_path_bundle p, o) ∈ ev)
            ↔ ∃ e, caught e = true ∧ (Cextract_from_tar p tmpdir, Raised e) ∈ ev)
    ∧ (truthy pdb_files = false → ev = [] ∧ r = Ok (false, None, None))
    ∧ (truthy pdb_files = true →
       match r with
       | Ok (istarfile, ens_size, nres) =>
           is_Some ens_size ∧ is_Some nres
           ∧ (∃ pdb, last ev = Some (CStructure pdb, Returned))
           ∧ (istarfile = true
              ↔ ∃ p, (Cextract_from_tar p tmpdir, Returned) ∈ ev)
           ∧ (istarfile = true → ∀ p o, (Cread_path_bundle p, o) ∉ ev)
       | Raise e =>
           (∃ c, last ev = Some (c, Raised e))
           ∨ (e = IndexError
              ∧ last ev = Some (Clog_info (msg_S "done"), Returned))
       end).
Proof.
  unfold read_ensemble, mbind, action_bind, bind, attempt, info, invoke, lift,
    ret.
  intros Hrun.
  repeat (case_match; simplify_eq; try done).
  all: unfold outcome_of; eexists;
    (split; [rewrite <- ?app_assoc;
             first [ reflexivity | symmetry; apply app_nil_r ]|]).
  all: simpl.
  all: split; [by intros c o Hin; members|].
  all: split; [intros p d o Hin; members;
               match goal with
               | Ht : truthy _ = true |- _ =>
                   by apply bool_decide_eq_true in Ht
               end|].
  all: split; [intros p; split; intros Hin; members;
               first [ congruence
                     | eexists; split; [eassumption | by found]
                     | eexists; by found ]|].
  all: split; [first [ discriminate | done ]|].
  all: first [ discriminate | intros _ ].
  all: try (first [ left; eexists; reflexivity
                  | right; unfold getitem in *; case_match; by simplify_eq ]).
  all: repeat apply conj; eauto.
  all: try (intros _; eexists; by found).
  all: try (intros _ p o Hin; by members).
  all: intros Hin; by members.
Qed.

(** Runs [main] in [Hrun] along each of its paths. *)
Ltac run_step Hrun :=
  match type of Hrun with
  | context [match ?x with _ => _ end] =>
      lazymatch x with
      | context [match _ with _ => _ end] => fail
      | _ => destruct x eqn:?; cbn beta iota in Hrun
      end
  end.

Ltac run_main Hrun :=
  unfold main, parse, mbind, action_bind, bind, info, invoke, lift, ret
    in Hrun;
  repeat run_step Hrun;
  simplify_eq;
  repeat match goal with
         | Heach : info_each _ _ = _ |- _ =>
             apply info_each_run in Heach as [? ?]
         end;
  try match goal with
      | Hens : read_ensemble _ _ _ = _ |- _ =>
          apply read_ensemble_run in Hens
            as (ev & ? & Hkinds & Htar & Hbundle & Hnone & Hsome)
      end;
  simplify_eq; unfold outcome_of in *.

(** Writes the list of calls call by call. *)
Ltac flat := rewrite <- ?app_assoc; cbn [app].

(** Sorts the paths by whether [if pdb_files:] held. *)
Ltac ensemble_facts :=
  try match goal with
      | Hnone : truthy ?p = false → _, Hsome : truthy ?p = true → _ |- _ =>
          let Hp := fresh "Hp" in
          destruct (truthy p) eqn:Hp;
          [ specialize (Hsome eq_refl); clear Hnone; simpl in Hsome;
            lazymatch type of Hsome with
            | _ ∨ _ => destruct Hsome as [[? Hlast] | [-> Hlast]]
            | _ => destruct Hsome
                     as ([? ->] & [? ->] & [? Hlast] & Histarfile & Hnobundle)
            end
          | destruct (Hnone eq_refl) as [-> ?]; clear Hnone Hsome ]
      end;
  unfold local in *; simplify_eq.

Ltac last_call :=
  rewrite ?last_snoc, ?last_app;
  repeat match goal with
         | Hlast : last ?ev = _ |- context [last ?ev] => rewrite Hlast
         end.

(** X19.  [main] scores only when it is given both a conformer path and
    back-calculated files.  With one of the two missing or empty, the
    optimizer [XEISD] is never called; the run returns normally only where
    it returns early, that is with both arguments [None] or before any
    call of [parse_data]; and once the last [parse_data] call of the run
    has returned, the run raises [UnboundLocalError], because
    [back_paths], or [ens_size] and [nres], were never assigned. *)
Theorem main_needs_both_inputs exp_files epochs pdb_files back_files ncores
    tmpdir w w' tr r :
  main exp_files epochs pdb_files back_files ncores tmpdir (w, [])
  = ((w', tr), r) →
  truthy pdb_files = false ∨ truthy back_files = false →
  (∀ ens_size nres o, (CXEISD ens_size nres, o) ∉ tr)
  ∧ (r = Ok tt →
     (pdb_files = None ∧ back_files = None)
     ∨ ∀ mode o, (Cparse_data mode, o) ∉ tr)
  ∧ (last tr
     = Some (Cparse_data
               (if truthy back_files then parse_mode_back else parse_mode_exp),
             Returned) →
     r = Raise UnboundLocalError).
Proof.
  intros Hrun Hone. run_main Hrun.
  all: ensemble_facts.
  all: try (destruct Hone; discriminate).
  all: split;
    [flat; intros ? ? ? Hin; members_of Hin; by apply Hkinds in Hin|].
  all: split;
    [flat;
     first [ discriminate
           | intros _; left; by apply bool_decide_eq_true
           | intros _; right; intros ? ? Hin; members_of Hin;
             by apply Hkinds in Hin ]|].
  all: last_call.
  all: try done.
  all: intros [= Hmode]; rewrite Hmode in *; congruence.
Qed.

(** X20.  [shutil.rmtree] is called on [tmpdir] and on nothing else, only
    in a run whose conformers were extracted from an archive and whose
    scoring pool has returned; the run then returns normally when the
    removal returns and raises what the removal raises.  Conversely such a
    run does call it.  A run that extracted an archive and ends before the
    pool returns leaves [tmpdir] in place. *)
Theorem main_removes_tmpdir exp_files epochs pdb_files back_files ncores
    tmpdir w w' tr r :
  main exp_files epochs pdb_files back_files ncores tmpdir (w, [])
  = ((w', tr), r) →
  (∀ d o, (Crmtree d, o) ∈ tr →
     d = tmpdir
     ∧ (∃ p, pdb_files = Some p
             ∧ (Cextract_from_tar p tmpdir, Returned) ∈ tr)
     ∧ (∃ n, (Cpool_function epochs n ncores, Returned) ∈ tr)
     ∧ r = match o with Returned => Ok tt | Raised e => Raise e end)
  ∧ (∀ p n,
       (Cextract_from_tar p tmpdir, Returned) ∈ tr →
       (Cpool_function epochs n ncores, Returned) ∈ tr →
       ∃ o, (Crmtree tmpdir, o) ∈ tr).
Proof.
  intros Hrun. run_main Hrun.
  all: ensemble_facts.
  all: flat.
  all: split;
    [intros d o' Hin; members_of Hin; try (by apply Hkinds in Hin)
    |intros p n Hin Hpool; members_of Hpool;
     try (by apply Hkinds in Hpool)].
  all: try (eexists; by found).
  all: try (members_of Hin; try (by apply Hkinds in Hin);
            destruct Histarfile as [_ Hex]; discriminate Hex; eauto).
  all: split; [done|].
  all: destruct Histarfile as [Hex _]; destruct (Hex eq_refl) as [p Hp'].
  all: destruct (Htar _ _ _ Hp') as (Hpdb & _ & _).
  all: split; [exists p; split; [done | by found]|].
  all: split; [eexists; by found | done].
Qed.

Lemma dict_getitem_raises {V} (d : list (string * V)) k e :
  dict_getitem d k = Raise e → e = KeyError.
Proof.
  induction d as [|[k' v] d IH]; simpl; [congruence|].
  by case_decide.
Qed.

(** X21.  An exception of [main] is the exception of the last call it
    made, or one of three of its own, raised after a call that returned:
    [IndexError] after the ensemble was read (no conformer path was
    found), [KeyError] where the mapping of [meta_data] lacks a mode, and
    [UnboundLocalError] after a [parse_data] call when a path argument is
    missing or empty. *)
Theorem main_exceptions exp_files epochs pdb_files back_files ncores tmpdir
    w w' tr e :
  main exp_files epochs pdb_files back_files ncores tmpdir (w, [])
  = ((w', tr), Raise e) →
  (∃ c, last tr = Some (c, Raised e))
  ∨ (∃ c, last tr = Some (c, Returned)
          ∧ ((e = IndexError ∧ c = Clog_info (msg_S "done")
              ∧ truthy pdb_files = true)
             ∨ (e = KeyError
                ∧ (c = Clog_info (msg_S "done")
                   ∨ (c = Cparse_data parse_mode_exp
                      ∧ truthy back_files = true)))
             ∨ (e = UnboundLocalError
                ∧ (∃ mode, c = Cparse_data mode)
                ∧ (truthy pdb_files = false ∨ truthy back_files = false)))).
Proof.
  intros Hrun. run_main Hrun.
  all: ensemble_facts.
  all: last_call.
  all: try (left; eexists; reflexivity).
  all: right; eexists; (split; [reflexivity|]).
  all: repeat match goal with
              | Hget : dict_getitem _ _ = Raise _ |- _ =>
                  apply dict_getitem_raises in Hget as ->
              end.
  all: first [ left; by repeat split
             | right; left; split; [done|]; first [ by left | by right ]
             | right; right; split; [done|]; split; [by eexists|];
               first [ by left | by right ] ].
Qed.

(** X22.  The archive reader is tried only on a non-empty [pdb_files],
    with [tmpdir] as its output; [read_path_bundle] is called exactly when
    the archive reader has raised an exception of the [except] clause; and
    a run that read a path bundle never removes [tmpdir]. *)
Theorem main_falls_back_to_bundle exp_files epochs pdb_files back_files
    ncores tmpdir w w' tr r :
  main exp_files epochs pdb_files back_files ncores tmpdir (w, [])
  = ((w', tr), r) →
  (∀ p d o, (Cextract_from_tar p d, o) ∈ tr →
     pdb_files = Some p ∧ p ≠ "" ∧ d = tmpdir)
  ∧ (∀ p, (∃ o, (Cread_path_bundle p, o) ∈ tr)
          ↔ ∃ e, caught e = true
                 ∧ (Cextract_from_tar p tmpdir, Raised e) ∈ tr)
  ∧ (∀ p o, (Cread_path_bundle p, o) ∈ tr →
       ∀ d o', (Crmtree d, o') ∉ tr).
Proof.
  intros Hrun. run_main Hrun.
  all: ensemble_facts.
  all: flat.
  all: split; [intros p d o' Hin; members_of Hin; by eapply Htar|].
  all: split;
    [intros p; split; intros Hin;
     [destruct Hin as [o' Hin]; members_of Hin;
      assert (∃ o, (Cread_path_bundle p, o) ∈ ev) as Hex by eauto;
      apply Hbundle in Hex as (e' & Hcaught & Htar');
      exists e'; (split; [done | by found])
     |destruct Hin as (e' & Hcaught & Hin); members_of Hin;
      assert (∃ e, caught e = true
                   ∧ (Cextract_from_tar p tmpdir, Raised e) ∈ ev) as Hex
        by eauto;
      apply Hbundle in Hex as [o' Hbundle'];
      exists o'; by found]|].
  all: intros p o' Hin d o'' Hrm; members_of Hrm;
    try (by apply Hkinds in Hrm).
  all: members_of Hin; by eapply Hnobundle.
Qed.

(** X23.  [main] reads [back_files] as a flag: two runs whose
    [back_files] agree on being [None] and on being empty are the same
    run.  The text of the argument reaches no call; the back-calculated
    files come from the mapping that [meta_data] builds from [exp_files]. *)
Theorem main_reads_back_files_as_flag exp_files epochs pdb_files back1 back2
    ncores tmpdir st :
  truthy back1 = truthy back2 →
  (back1 = None ↔ back2 = None) →
  main exp_files epochs pdb_files back1 ncores tmpdir st
  = main exp_files epochs pdb_files back2 ncores tmpdir st.
Proof.
  intros Htruthy Hnone. unfold main. rewrite Htruthy.
  by rewrite (bool_decide_ext (pdb_files = None ∧ back1 = None)
                (pdb_files = None ∧ back2 = None)) by naive_solver.
Qed.

(** X24.  When the two mode names differ, the back-calculated call of
    [parse_data] is made only for a non-empty [back_files] and always
    returns, whatever the files hold: its failures stay in the list it
    returns, which [main] does not read.  An exception of the experimental
    call ends the run with that exception. *)
Theorem main_back_call_returns exp_files epochs pdb_files back_files ncores
    tmpdir w w' tr r :
  main exp_files epochs pdb_files back_files ncores tmpdir (w, [])
  = ((w', tr), r) →
  parse_mode_back ≠ parse_mode_exp →
  (∀ o, (Cparse_data parse_mode_back, o) ∈ tr →
     o = Returned ∧ truthy back_files = true)
  ∧ (∀ e, (Cparse_data parse_mode_exp, Raised e) ∈ tr → r = Raise e).
Proof.
  intros Hrun Hmode. run_main Hrun.
  all: ensemble_facts.
  all: flat.
  all: split;
    [intros o' Hin; members_of Hin; try (by apply Hkinds in Hin)
    |intros e' Hin; members_of Hin; try (by apply Hkinds in Hin)].
  all: try done.
  all: try congruence.
  all: match goal with
       | Hbc : parse_data _ _ parse_mode_back _ = Raise _ |- _ =>
           unfold parse_data in Hbc;
           rewrite decide_False in Hbc by done; discriminate Hbc
       end.
Qed.

End Interface.

(** * The module on the example files *)

Import Reference.
#[local] Existing Instance externals.
#[local] Existing Instance registry.

(** Runs through the lines of a file of at most eight lines;
    [Hline : lines !! j = Some line]. *)
Ltac each_line j Hline tac :=
  do 8 (destruct j as [|j];
        [ try lia; vm_compute in Hline;
          first [ discriminate Hline | injection Hline as <-; tac ] | ]);
  first [ lia | vm_compute in Hline; discriminate Hline ].

Ltac evaluates := vm_compute; reflexivity.

Ltac differs := let Heq := fresh "Heq" in
  intros Heq; vm_compute in Heq; discriminate Heq.

Ltac is_stripped :=
  split; [ eexists; split; [ evaluates | differs ] | ];
  split; [ let j := fresh "j" in let Hline := fresh "Hline" in
           intros j ? ? Hline;
           each_line j Hline ltac:(split; [ evaluates | eexists; evaluates ])
         | eexists; split; evaluates ].

Ltac is_declared :=
  split; [ lia | ];
  split; [ eexists; split; evaluates | ];
  let j := fresh "j" in let Hline := fresh "Hline" in
  intros j ? ? ? Hline; each_line j Hline ltac:(differs).

Ltac is_column tac :=
  let idx := fresh "idx" in let Hline := fresh "Hline" in
  intros idx ? ? Hline;
  each_line idx Hline ltac:(eexists; split; [ evaluates | tac ]).

Ltac is_numeric := eexists; evaluates.

Ltac is_numeric_or_open :=
  first [ left; reflexivity | right; eexists; evaluates ].

(** Proves that a closed run ends in [Ok] by running it. *)
Ltac runs :=
  lazymatch goal with
  | |- ∃ x, ?run = Ok x =>
      let Hrun := fresh "Hrun" in
      destruct run as [x|?] eqn:Hrun;
      [ exists x; reflexivity | exfalso; vm_compute in Hrun; discriminate Hrun ]
  | |- ∃ x y, ?run = Ok (x, y) =>
      let Hrun := fresh "Hrun" in
      destruct run as [[x y]|?] eqn:Hrun;
      [ exists x, y; reflexivity
      | exfalso; vm_compute in Hrun; discriminate Hrun ]
  end.

(** C1 at the scattering curve: the table has no row although every line
    starts with a number. *)
Lemma parse_saxs_data_empty_table_witness :
  ∃ df, parse_saxs_data example_fs "exp_1.saxs" = Ok df
        ∧ df = Frame (dict_display [(exp_idx, []); (exp_val, []); (exp_err, [])])
        ∧ ∀ c col, df_cols df !! c = Some col → col = [].
Proof.
  apply (parse_saxs_data_empty_table example_fs "exp_1.saxs" saxs_lines
           (ln "0.0100 125.3 1.2")).
  - vm_compute. reflexivity.
  - vm_compute. reflexivity.
  - intros Heq. vm_compute in Heq. discriminate Heq.
  - repeat constructor; intros Heq; vm_compute in Heq; discriminate Heq.
Defined.

(** C1 as first stated fails at a curve that ends with an empty line: its
    first token is not the index header, yet no table is returned. *)
Lemma saxs_blank_line_raises :
  first0 saxs_blank_lines = Some (ln "0.0100 125.3 1.2")
  ∧ ln "0.0100 125.3 1.2" ≠ exp_idx
  ∧ example_fs "exp_2.saxs" = Some saxs_blank_lines
  ∧ ¬ ∃ df, parse_saxs_data example_fs "exp_2.saxs" = Ok df.
Proof.
  split; [vm_compute; reflexivity|].
  split; [intros Heq; vm_compute in Heq; discriminate Heq|].
  split; [vm_compute; reflexivity|].
  intros [df Hdf]. vm_compute in Hdf. discriminate Hdf.
Qed.

(** C2 at the example override file: the table returned is the object
    bound to [default_bc_errors], whose entry for PRE the call has
    replaced. *)
Theorem parse_bc_errors_overwrites_default :
  let run := parse_bc_errors example_fs "errors.txt" example_heap in
  run.2 = Ok default_bc_errors
  ∧ deref example_heap default_bc_errors !! "pre" = Some (VFloat (Dec 1 2))
  ∧ deref run.1 default_bc_errors !! "pre" = Some (VFloat (Dec 3 3)).
Proof. repeat split; vm_compute; reflexivity. Qed.

(** C3 at a comma-separated chemical-shift file. *)
Lemma generic_dialect_falls_back_witness :
  ∃ df,
    read_csv cs_custom_lines = Ok df
    ∧ parse_cs_data example_fs "exp_2.cs" = Raise TypeError
    ∧ ∃ data1, exp_step example_fs (∅, empty_frame) ("cs", "exp_2.cs")
               = Ok ({[ "cs" := mkStack "cs" df VNone VNone ]}, data1).
Proof.
  assert (∃ df, read_csv cs_custom_lines = Ok df) as [df Hcsv].
  { runs. }
  assert (example_fs "exp_2.cs" = Some cs_custom_lines) as Hfs.
  { vm_compute. reflexivity. }
  assert (first0 cs_custom_lines = Some exp_idx) as Hfirst.
  { vm_compute. reflexivity. }
  assert ("cs" ∈ [saxs_name; cs_name; jc_name; noe_name; pre_name; rdc_name])
    as Hin.
  { apply elem_of_cons. right. apply elem_of_cons. by left. }
  destruct (generic_dialect_falls_back example_fs "exp_2.cs" cs_custom_lines
              "cs" ∅ empty_frame Hfs Hfirst Hin)
    as ((_ & Hcs & _) & Hstep & _).
  exists df. split; [exact Hcsv|]. split; [exact Hcs|]. exact (Hstep df Hcsv).
Defined.

(** C3 as first stated fails at a comma-separated curve whose last row has
    a field more than the header: its first token is the index header,
    the scattering parser raises [TypeError], the loop reads the file
    again as a table, and that reading raises; [parse_data] returns no
    container. *)
Lemma generic_ragged_file_raises :
  edge_fs "exp_3.saxs" = Some generic_ragged_lines
  ∧ first0 generic_ragged_lines = Some exp_idx
  ∧ parse_saxs_data edge_fs "exp_3.saxs" = Raise TypeError
  ∧ parse_data edge_fs [(saxs_name, "exp_3.saxs")] parse_mode_exp
      default_table
    = Raise (LibraryError "ParserError").
Proof. repeat split; vm_compute; reflexivity. Qed.

(** C4 at three back-calculated entries: the first file is not JSON, the
    last does not exist, the one between them is loaded. *)
Lemma bc_mode_isolates_failures_witness :
  let filenames :=
    [("saxs", "back_1.saxs"); ("jc", "back_1.jc"); ("noe", "back_9.noe")] in
  ∃ parsed errlogs,
    parse_data example_fs filenames "bc" default_table = Ok (parsed, errlogs)
    ∧ errlogs = [ValueError; FileNotFoundError]
    ∧ is_Some (parsed !! "jc")
    ∧ parsed !! "saxs" = None
    ∧ parsed !! "noe" = None.
Proof.
  intros filenames.
  assert ("bc" ≠ parse_mode_exp) as Hmode.
  { intros Heq. vm_compute in Heq. discriminate Heq. }
  assert (NoDup filenames.*1) as Hnd.
  { apply (bool_decide_unpack _). vm_compute. exact I. }
  destruct (bc_mode_isolates_failures example_fs filenames "bc" default_table
              Hmode Hnd) as (parsed & errlogs & Hrun & Herr & Hall & _).
  exists parsed, errlogs. split; [exact Hrun|]. split.
  { rewrite Herr. vm_compute. reflexivity. }
  assert (∃ s, bc_try example_fs default_table "jc" "back_1.jc" = Ok s)
    as [s Hjc].
  { runs. }
  assert (bc_try example_fs default_table "saxs" "back_1.saxs"
          = Raise ValueError) as Hsaxs.
  { vm_compute. reflexivity. }
  assert (bc_try example_fs default_table "noe" "back_9.noe"
          = Raise FileNotFoundError) as Hnoe.
  { vm_compute. reflexivity. }
  split; [|split].
  - specialize (Hall "jc" "back_1.jc"). rewrite Hjc in Hall.
    exists s. apply Hall. apply elem_of_cons. right. apply elem_of_cons. by left.
  - specialize (Hall "saxs" "back_1.saxs"). rewrite Hsaxs in Hall.
    apply Hall. apply elem_of_cons. by left.
  - specialize (Hall "noe" "back_9.noe"). rewrite Hnoe in Hall.
    apply Hall. do 2 (apply elem_of_cons; right). apply elem_of_cons. by left.
Defined.

(** C5 at a back-calculated coupling file. *)
Lemma stack_uncertainty_parameters_witness :
  ∃ parsed errlogs s,
    parse_data example_fs [("jc", "back_1.jc")] "bc" default_table
    = Ok (parsed, errlogs)
    ∧ parsed !! "jc" = Some s
    ∧ default_table !! "jc" = Some (sigma s)
    ∧ mu s = jc_bc_mu.
Proof.
  assert (∃ parsed errlogs,
            parse_data example_fs [("jc", "back_1.jc")] "bc" default_table
            = Ok (parsed, errlogs)) as (parsed & errlogs & Hrun).
  { runs. }
  assert (∃ s, parsed !! "jc" = Some s) as [s Hs].
  { destruct (parsed !! "jc") as [s|] eqn:Hs; [by exists s|]. exfalso.
    assert (table_of (parse_data example_fs [("jc", "back_1.jc")] "bc"
                        default_table) "jc" = None) as Hnone.
    { rewrite Hrun. unfold table_of. by rewrite Hs. }
    vm_compute in Hnone. discriminate Hnone. }
  pose proof (stack_uncertainty_parameters _ _ _ _ _ _ _ _ Hrun Hs) as Hparams.
  destruct (decide ("bc" = parse_mode_exp)) as [Heq|_].
  { vm_compute in Heq. discriminate Heq. }
  destruct (decide ("jc" = jc_name)) as [_|Hne]; [|by destruct Hne].
  exists parsed, errlogs, s. destruct Hparams as [Hsigma Hmu]. by repeat split.
Defined.

(** C6 at the distance-restraint loop, which is well formed: the table
    is made and its open bounds are [0.0]. *)
Lemma noe_pre_bounds_witness :
  bounds_well_formed noe_lines
  ∧ ∃ df uppers lowers,
      parse_nmrstar_data example_fs "exp_1.noe" (Some noe_name) = Ok df
      ∧ df_cols df !! exp_max = Some (VFloat <$> uppers)
      ∧ df_cols df !! exp_min = Some (VFloat <$> lowers)
      ∧ length uppers = 2
      ∧ length lowers = 2
      ∧ (∀ r u, uppers !! r = Some u →
           ∃ tok, token_at noe_lines (Some 3) (5 + r) tok ∧ bound_value tok u)
      ∧ (∀ r l, lowers !! r = Some l →
           ∃ tok, token_at noe_lines (Some 2) (5 + r) tok ∧ bound_value tok l).
Proof.
  assert (bounds_well_formed noe_lines) as Hwf.
  { exists 5, 1, 4, 3, 2. split; [is_stripped|].
    do 4 (split; [is_declared|]).
    split; [is_column is_numeric|]. split; [is_column is_numeric|].
    split; is_column is_numeric_or_open. }
  split; [exact Hwf|].
  assert (exp_max ∉ [exp_min; exp_err]) as Hmax.
  { apply (bool_decide_unpack _). vm_compute. exact I. }
  assert (exp_min ≠ exp_err) as Hmin by differs.
  assert (example_fs "exp_1.noe" = Some noe_lines) as Hfs by evaluates.
  destruct (noe_pre_bounds example_fs "exp_1.noe" noe_lines (Some noe_name)
              Hmax Hmin Hfs (or_introl eq_refl)) as [Haccepted Hbounds].
  destruct (Haccepted Hwf) as [df Hdf].
  destruct (Hbounds df Hdf)
    as (o & start & uppers & lowers & Hscan & Hstart & _ & _
        & Hup & Hlow & Hulen & Hllen & Hupper & Hlower).
  assert (header_scan (nmrstar_bind (Some noe_name)) 0 noe_lines no_offsets
          = Ok (mkOffsets (Some 1) (Some 4) None (Some 3) (Some 2) (Some 5)))
    as Ho by evaluates.
  rewrite Ho in Hscan. injection Hscan as <-.
  simpl in Hstart. injection Hstart as <-.
  exists df, uppers, lowers. by repeat split.
Defined.

(** C7 at the example override file: the line for chemical shifts yields
    its atom-type mapping, the line for PRE its number, and J-coupling,
    which no line names, keeps the default. *)
Lemma parse_bc_errors_merges_witness :
  ∃ h' table,
    parse_bc_errors example_fs "errors.txt" example_heap = (h', Ok table)
    ∧ deref h' table !! "cs"
      = Some (VDict [(VStr "C", VFloat (Dec 12 1));
                     (VStr "CA", VFloat (Dec 84 2))])
    ∧ deref h' table !! "pre" = Some (VFloat (Dec 3 3))
    ∧ deref h' table !! "jc" = Some (VFloat (Dec 5 1)).
Proof.
  assert (example_fs "errors.txt" = Some override_lines) as Hfs.
  { vm_compute. reflexivity. }
  assert (stores (ln "pre 0.003") "pre" (VFloat (Dec 3 3))) as Hpre.
  { exists "0.003". repeat split; vm_compute; reflexivity. }
  assert (stores (ln "cs {'C':1.2,'CA':0.84}") "cs"
            (VDict [(VStr "C", VFloat (Dec 12 1));
                    (VStr "CA", VFloat (Dec 84 2))])) as Hcs.
  { exists "{'C':1.2,'CA':0.84}". repeat split; vm_compute; reflexivity. }
  assert (Forall (λ line, ∃ k v, stores line k v) override_lines) as Hall.
  { repeat constructor; eauto. }
  destruct (parse_bc_errors_merges example_fs "errors.txt" override_lines
              example_heap Hfs Hall)
    as (h' & table & Hrun & Hlisted & Hunlisted).
  exists h', table. split; [exact Hrun|]. split; [|split].
  - apply (Hlisted 1 _ _ _ eq_refl Hcs).
    intros [|[|j]] line' Hj Hline'; [lia | lia | discriminate Hline'].
  - apply (Hlisted 0 _ _ _ eq_refl Hpre).
    intros [|[|[|j]]] line' Hj Hline'; [lia | | discriminate Hline'..].
    injection Hline' as <-. intros Heq. vm_compute in Heq. discriminate Heq.
  - rewrite Hunlisted; [vm_compute; reflexivity|].
    intros line Hin.
    assert (Forall (λ line, split_ws line !! 0 ≠ Some "jc") override_lines)
      as Hjc.
    { repeat constructor; intros Heq; vm_compute in Heq; discriminate Heq. }
    by eapply Forall_forall in Hjc.
Defined.

(** C7 as first stated fails at an override file whose mapping is written
    with spaces: each line holds a name and a second token, but the second
    token of the chemical-shift line is the opening of the mapping alone,
    which is no number and does not evaluate; the call raises
    [SyntaxError] and returns no table. *)
Lemma spaced_mapping_raises :
  edge_fs "errors_3.txt" = Some override_spaced_lines
  ∧ Forall (λ line, is_Some (split_ws line !! 0)
                    ∧ is_Some (split_ws line !! 1)) override_spaced_lines
  ∧ split_ws (ln "cs {'C': 1.2, 'CA': 0.84}") !! 1 = Some "{'C':"
  ∧ (parse_bc_errors edge_fs "errors_3.txt" example_heap).2
    = Raise SyntaxError.
Proof.
  split; [vm_compute; reflexivity|].
  split; [repeat constructor; eexists; vm_compute; reflexivity|].
  split; vm_compute; reflexivity.
Qed.

(** C8.  The chemical-shift file of the parser's own usage example is
    not accepted.  Its error column holds the placeholder [.], which
    [float] refuses: [parse_cs_data] raises [ValueError] at the first data
    line, and [parse_data] in experimental mode on the scattering and the
    chemical-shift modality raises it too, in either order of the two
    keys, instead of returning the two containers. *)
Theorem documented_cs_file_raises :
  edge_fs "exp_4155.cs" = Some cs_documented_lines
  ∧ (∃ line, cs_documented_lines !! 12 = Some line
             ∧ field_name line = Ok "Val_err")
  ∧ (∃ line, cs_documented_lines !! 13 = Some line
             ∧ split_ws line !! 12 = Some "."
             ∧ float_of_str "." = None)
  ∧ parse_cs_data edge_fs "exp_4155.cs" = Raise ValueError
  ∧ parse_data edge_fs [(saxs_name, "exp_1.saxs"); (cs_name, "exp_4155.cs")]
      parse_mode_exp default_table
    = Raise ValueError
  ∧ parse_data edge_fs [(cs_name, "exp_4155.cs"); (saxs_name, "exp_1.saxs")]
      parse_mode_exp default_table
    = Raise ValueError.
Proof.
  split; [vm_compute; reflexivity|].
  split; [eexists; split; vm_compute; reflexivity|].
  split; [eexists; repeat split; vm_compute; reflexivity|].
  repeat split; vm_compute; reflexivity.
Qed.

(** C9 at the chemical-shift loop: four tag lines, then rows 4 and 5. *)
Lemma alignment_index_is_line_offset_witness :
  ∃ df start,
    parse_cs_data example_fs "exp_1.cs" = Ok df
    ∧ (∀ j line, j < start → cs_lines !! j = Some line →
         contains "_" line = true)
    ∧ (∃ line, cs_lines !! start = Some line ∧ contains "_" line = false)
    ∧ df_cols df !! exp_idx = Some (py_int <$> seq start (6 - start)).
Proof.
  assert (∃ d, parse_cs_data example_fs "exp_1.cs" = Ok d) as [df Hdf].
  { runs. }
  assert (exp_idx ∉ [exp_atmID; exp_val; exp_err; exp_dist_val; exp_max;
                     exp_min]) as Hcols.
  { apply (bool_decide_unpack _). vm_compute. exact I. }
  assert (example_fs "exp_1.cs" = Some cs_lines) as Hfs.
  { vm_compute. reflexivity. }
  destruct (alignment_index_is_line_offset example_fs "exp_1.cs" cs_lines df
              Hcols Hfs (or_introl Hdf)) as (start & Hhead & Hdata & Hcol).
  exists df, start. by repeat split.
Defined.

(** C10 at a mapping in which an unknown name follows chemical shifts and
    FRET: its container repeats the chemical-shift table, and its file,
    which does not exist, is never asked for. *)
Lemma unrecognized_modality_container_witness :
  let filenames :=
    [("cs", "exp_1.cs"); ("fret", "exp_1.fret"); ("sans", "exp_1.sans")] in
  example_fs "exp_1.sans" = None
  ∧ ∃ parsed d s,
      parse_data example_fs filenames parse_mode_exp default_table
      = Ok (parsed, [])
      ∧ parsed !! "sans" = Some (mkStack "sans" d VNone VNone)
      ∧ parsed !! "cs" = Some s
      ∧ data s = d.
Proof.
  intros filenames. split; [vm_compute; reflexivity|].
  assert (∃ parsed errlogs,
            parse_data example_fs filenames parse_mode_exp default_table
            = Ok (parsed, errlogs)) as (parsed & errlogs & Hrun).
  { runs. }
  assert ("sans" ∉ [saxs_name; cs_name; fret_name; jc_name; noe_name;
                    pre_name; rdc_name; rh_name]) as Hm.
  { apply (bool_decide_unpack _). vm_compute. exact I. }
  assert (fret_name ∉ [saxs_name; cs_name]) as Hfret.
  { apply (bool_decide_unpack _). vm_compute. exact I. }
  assert (rh_name ∉ [saxs_name; cs_name; jc_name; noe_name; pre_name;
                     rdc_name]) as Hrh.
  { apply (bool_decide_unpack _). vm_compute. exact I. }
  assert (NoDup filenames.*1) as Hnd.
  { apply (bool_decide_unpack _). vm_compute. exact I. }
  destruct (unrecognized_modality_container example_fs
              [("cs", "exp_1.cs"); ("fret", "exp_1.fret")] [] "sans"
              "exp_1.sans" default_table parsed errlogs Hm Hfret Hrh Hnd Hrun)
    as (-> & d & Hsans & _ & _ & Hprev).
  destruct (Hprev [] "cs" "exp_1.cs" [("fret", "exp_1.fret")] eq_refl)
    as (s & Hs & Hd).
  - intros Heq. vm_compute in Heq. discriminate Heq.
  - intros Heq. vm_compute in Heq. discriminate Heq.
  - repeat constructor.
  - exists parsed, d, s. split; [exact Hrun|]. split; [exact Hsans|].
    split; [exact Hs | exact Hd].
Defined.

(** C10 as first stated fails when the unknown name follows FRET alone:
    it is not processed first, yet its table is the initial empty one and
    not the table of the FRET container before it. *)
Lemma unrecognized_after_fret_is_empty :
  let run := parse_data example_fs
               [("fret", "exp_1.fret"); ("sans", "exp_1.sans")]
               parse_mode_exp default_table in
  errlogs_of run = Some []
  ∧ table_of run "sans" = Some empty_frame
  ∧ table_of run "sans" ≠ table_of run "fret".
Proof.
  split; [vm_compute; reflexivity|]. split; [vm_compute; reflexivity|].
  intros Heq.
  apply (f_equal (λ t, d ← t; df_cols d !! "index")) in Heq.
  vm_compute in Heq. discriminate Heq.
Qed.

(** * The further properties on the example files *)

(** X1 at the scattering curve. *)
Lemma parse_saxs_data_never_rows_witness :
  ∃ df, parse_saxs_data more_fs "exp_1.saxs" = Ok df
        ∧ ∀ c col, df_cols df !! c = Some col → col = [].
Proof.
  assert (∃ df, parse_saxs_data more_fs "exp_1.saxs" = Ok df) as [df Hdf].
  { runs. }
  exists df. split; [exact Hdf|].
  exact (proj2 (parse_saxs_data_never_rows more_fs "exp_1.saxs" df Hdf)).
Defined.


(** X3 at the four tag lines of the chemical-shift loop. *)
Lemma declarations_only_raises_witness :
  parse_cs_data more_fs "exp_3.cs" = Raise UnboundLocalError
  ∧ ∀ type, parse_nmrstar_data more_fs "exp_3.cs" type
            = Raise UnboundLocalError.
Proof.
  apply (declarations_only_raises more_fs "exp_3.cs" tags_only_lines
           (ln "_Atom_chem_shift.ID")).
  - evaluates.
  - evaluates.
  - differs.
  - repeat constructor; first [ evaluates | eexists; evaluates ].
Defined.

(** X4 at a chemical-shift loop without the [Atom_ID] tag. *)
Lemma undeclared_field_raises_witness :
  parse_cs_data more_fs "exp_4.cs" = Raise UnboundLocalError.
Proof.
  assert (more_fs "exp_4.cs" = Some cs_no_atom_lines) as Hfs by evaluates.
  assert (stripped cs_no_atom_lines 3) as Hstripped by is_stripped.
  destruct (undeclared_field_raises more_fs "exp_4.cs" cs_no_atom_lines 3
              Hfs Hstripped) as [Hcs _].
  apply Hcs. intros j line Hj Hline. each_line j Hline ltac:(differs).
Defined.

(** X5: the positions found in the chemical-shift loop do not change when
    its last row is replaced by a second header. *)
Lemma header_scan_stops_at_data_witness :
  header_scan cs_bind 0 cs_lines no_offsets
  = header_scan cs_bind 0 (take 5 cs_lines ++ tags_only_lines) no_offsets.
Proof.
  apply (header_scan_stops_at_data cs_bind (take 4 cs_lines)
           (ln "1 CA 55.634 0.1") [ln "2 CB 32.613 0.2"] tags_only_lines).
  evaluates.
Defined.

(** X6 at the comma-separated chemical-shift file. *)
Lemma dialect_guard_on_text_witness :
  dialect_guard cs_custom_lines = Raise TypeError.
Proof.
  apply dialect_guard_on_text; [evaluates|].
  exists (ln "index,resnum,atomname,value,error"). split; [evaluates|].
  right. exists (ln "resnum,atomname,value,error"). evaluates.
Defined.

(** X7 at the chemical-shift loop: two rows, atoms read at offset 1. *)
Lemma parse_cs_data_rows_witness :
  ∃ df atoms,
    parse_cs_data more_fs "exp_1.cs" = Ok df
    ∧ df_cols df !! exp_atmID = Some (VStr <$> atoms)
    ∧ length atoms = 2
    ∧ ∀ r tok, atoms !! r = Some tok →
        token_at cs_lines (Some 1) (4 + r) tok.
Proof.
  assert (∃ df, parse_cs_data more_fs "exp_1.cs" = Ok df) as [df Hdf].
  { runs. }
  assert (NoDup [exp_idx; exp_atmID; exp_val; exp_err]) as Hnd.
  { apply (bool_decide_unpack _). vm_compute. exact I. }
  assert (more_fs "exp_1.cs" = Some cs_lines) as Hfs by evaluates.
  destruct (parse_cs_data_rows more_fs "exp_1.cs" cs_lines df Hnd Hfs Hdf)
    as (o & start & atoms & values & errors & Hscan & Hstart & _ & _ & _ & _
        & Hatoms & _ & _ & Halen & _ & _ & Hrows & _).
  assert (header_scan cs_bind 0 cs_lines no_offsets
          = Ok (mkOffsets (Some 2) (Some 3) (Some 1) None None (Some 4)))
    as Ho by evaluates.
  rewrite Ho in Hscan. injection Hscan as <-.
  simpl in Hstart. injection Hstart as <-.
  exists df, atoms. by repeat split.
Defined.

(** X8 at the coupling-constant loop: three columns, two rows. *)
Lemma parse_nmrstar_data_rows_witness :
  ∃ df values,
    parse_nmrstar_data more_fs "exp_1.jc" None = Ok df
    ∧ dom (df_cols df) = {[exp_idx; exp_val; exp_err]}
    ∧ df_cols df !! exp_val = Some (VFloat <$> values)
    ∧ length values = 2.
Proof.
  assert (∃ df, parse_nmrstar_data more_fs "exp_1.jc" None = Ok df)
    as [df Hdf].
  { runs. }
  assert (NoDup [exp_idx; exp_val; exp_dist_val; exp_max; exp_min; exp_err])
    as Hnd.
  { apply (bool_decide_unpack _). vm_compute. exact I. }
  assert (more_fs "exp_1.jc" = Some jc_lines) as Hfs by evaluates.
  destruct (parse_nmrstar_data_rows more_fs "exp_1.jc" None jc_lines df
              Hnd Hfs Hdf)
    as (o & start & values & errors & Hscan & Hstart & _ & _ & Hcols & _
        & Hvlen & _).
  assert (header_scan (nmrstar_bind None) 0 jc_lines no_offsets
          = Ok (mkOffsets (Some 1) (Some 2) None None None (Some 3)))
    as Ho by evaluates.
  rewrite Ho in Hscan. injection Hscan as <-.
  simpl in Hstart. injection Hstart as <-.
  assert (is_noe_pre None = false) as Hnp by evaluates.
  rewrite Hnp in Hcols. destruct Hcols as (Hdom & Hval & _).
  exists df, values. by repeat split.
Defined.


(** X10 at an override file whose second line holds the name alone: the
    call raises at that line, and the PRE value of the first line is in
    the default table. *)
Lemma parse_bc_errors_stops_midway_witness :
  ∃ h',
    parse_bc_errors more_fs "errors_2.txt" example_heap
    = (h', Raise IndexError)
    ∧ deref h' default_bc_errors !! "pre" = Some (VFloat (Dec 3 3)).
Proof.
  assert (stores (ln "pre 0.003") "pre" (VFloat (Dec 3 3))) as Hpre.
  { exists "0.003". repeat split; evaluates. }
  destruct (parse_bc_errors_stops_midway more_fs "errors_2.txt"
              [ln "pre 0.003"] (ln "cs") [ln "noe 0.5"] example_heap)
    as (h' & Hrun & Hkept).
  - evaluates.
  - repeat constructor. eauto.
  - evaluates.
  - exists h'. split; [exact Hrun|].
    apply (Hkept 0 _ _ _ eq_refl Hpre).
    intros [|[|j]] line' Hj Hline'; [lia | discriminate Hline'..].
Defined.

(** X11 at the example override file. *)
Lemma parse_bc_errors_twice_witness :
  ∃ h1 h2 table,
    parse_bc_errors more_fs "errors.txt" example_heap = (h1, Ok table)
    ∧ parse_bc_errors more_fs "errors.txt" h1 = (h2, Ok table)
    ∧ deref h2 table = deref h1 table.
Proof.
  apply (parse_bc_errors_twice more_fs "errors.txt" override_lines).
  - evaluates.
  - repeat constructor.
    + exists "pre", (VFloat (Dec 3 3)), "0.003". repeat split; evaluates.
    + exists "cs", (VDict [(VStr "C", VFloat (Dec 12 1));
                           (VStr "CA", VFloat (Dec 84 2))]),
        "{'C':1.2,'CA':0.84}". repeat split; evaluates.
Defined.

(** X12 at the scattering curve and the chemical-shift loop. *)
Lemma exp_mode_all_or_nothing_witness :
  let filenames := [("saxs", "exp_1.saxs"); ("cs", "exp_1.cs")] in
  ∃ parsed,
    parse_data more_fs filenames parse_mode_exp default_table = Ok (parsed, [])
    ∧ dom parsed = list_to_set filenames.*1.
Proof.
  intros filenames.
  assert (∃ parsed errlogs,
            parse_data more_fs filenames parse_mode_exp default_table
            = Ok (parsed, errlogs)) as (parsed & errlogs & Hrun).
  { runs. }
  destruct (exp_mode_all_or_nothing more_fs filenames default_table parsed
              errlogs Hrun) as (-> & Hdom & _).
  exists parsed. by split.
Defined.

(** X13 at a mapping whose chemical-shift file does not exist: the batch
    ends there, and the FRET entry behind it is not reached. *)
Lemma exp_mode_aborts_witness :
  parse_data more_fs
    [("saxs", "exp_1.saxs"); ("cs", "exp_9.cs"); ("fret", "exp_1.fret")]
    parse_mode_exp default_table
  = Raise FileNotFoundError.
Proof.
  assert (∃ st, exp_loop more_fs [("saxs", "exp_1.saxs")] (∅, empty_frame)
                = Ok st) as [st Hst].
  { runs. }
  apply (exp_mode_aborts more_fs [("saxs", "exp_1.saxs")] "cs" "exp_9.cs"
           [("fret", "exp_1.fret")] default_table st FileNotFoundError Hst).
  - unfold exp_try. rewrite decide_False by differs.
    rewrite decide_True by evaluates.
    assert (parse_cs_data more_fs "exp_9.cs" = Raise FileNotFoundError)
      as -> by evaluates.
    reflexivity.
  - discriminate.
Defined.

(** X14 at the FRET file. *)
Lemma fret_rh_read_as_csv_witness :
  exp_step more_fs (∅, empty_frame) ("fret", "exp_1.fret")
  = (d ← pd_read_csv more_fs "exp_1.fret";
     Ok (<["fret" := mkStack "fret" d VNone VNone]> ∅, empty_frame)).
Proof.
  apply fret_rh_read_as_csv.
  - apply (bool_decide_unpack _). vm_compute. exact I.
  - apply (bool_decide_unpack _). vm_compute. exact I.
  - by left.
Defined.

(** X15 at three back-calculated entries, of which one loads. *)
Lemma bc_mode_accounts_for_all_witness :
  let filenames :=
    [("saxs", "back_1.saxs"); ("jc", "back_1.jc"); ("noe", "back_9.noe")] in
  ∃ parsed errlogs,
    parse_data more_fs filenames "bc" default_table = Ok (parsed, errlogs)
    ∧ size parsed + length errlogs = 3.
Proof.
  intros filenames.
  assert (∃ parsed errlogs,
            parse_data more_fs filenames "bc" default_table
            = Ok (parsed, errlogs)) as (parsed & errlogs & Hrun).
  { runs. }
  assert ("bc" ≠ parse_mode_exp) as Hmode by differs.
  assert (NoDup filenames.*1) as Hnd.
  { apply (bool_decide_unpack _). vm_compute. exact I. }
  destruct (bc_mode_accounts_for_all more_fs filenames "bc" default_table
              parsed errlogs Hmode Hnd Hrun) as [Hcount _].
  exists parsed, errlogs. by split.
Defined.

(** X16 at a dipolar-coupling entry, for which the default table has no
    uncertainty. *)
Lemma bc_mode_needs_sigma_witness :
  ∃ parsed errlogs,
    parse_data more_fs [("rdc", "back_1.jc")] "bc" default_table
    = Ok (parsed, errlogs)
    ∧ parsed !! "rdc" = None
    ∧ errlogs ≠ [].
Proof.
  assert (∃ parsed errlogs,
            parse_data more_fs [("rdc", "back_1.jc")] "bc" default_table
            = Ok (parsed, errlogs)) as (parsed & errlogs & Hrun).
  { runs. }
  assert ("bc" ≠ parse_mode_exp) as Hmode by differs.
  assert (default_table !! "rdc" = None) as Hnone by evaluates.
  destruct (bc_mode_needs_sigma more_fs [("rdc", "back_1.jc")] "bc"
              default_table parsed errlogs "rdc" Hmode Hnone Hrun)
    as [Habsent Hlogged].
  exists parsed, errlogs. split; [exact Hrun|]. split; [exact Habsent|].
  apply (Hlogged "back_1.jc"). apply elem_of_cons. by left.
Defined.

(** X17 at the back-calculated coupling file. *)
Lemma containers_named_by_key_witness :
  ∃ parsed errlogs s,
    parse_data more_fs [("jc", "back_1.jc")] "bc" default_table
    = Ok (parsed, errlogs)
    ∧ parsed !! "jc" = Some s
    ∧ name s = "jc".
Proof.
  assert (∃ parsed errlogs,
            parse_data more_fs [("jc", "back_1.jc")] "bc" default_table
            = Ok (parsed, errlogs)) as (parsed & errlogs & Hrun).
  { runs. }
  assert (∃ s, parsed !! "jc" = Some s) as [s Hs].
  { destruct (parsed !! "jc") as [s|] eqn:Hs; [by exists s|]. exfalso.
    assert (table_of (parse_data more_fs [("jc", "back_1.jc")] "bc"
                        default_table) "jc" = None) as Hnone.
    { rewrite Hrun. unfold table_of. by rewrite Hs. }
    vm_compute in Hnone. discriminate Hnone. }
  destruct (containers_named_by_key more_fs _ _ _ _ _ _ _ Hrun Hs)
    as [Hname _].
  by exists parsed, errlogs, s.
Defined.

(** X18 at the coupling file read as PRE: it has no [format] entry. *)
Lemma bc_try_malformed_witness :
  bc_try more_fs default_table "pre" "back_1.jc" = Raise KeyError.
Proof.
  assert (∃ raw, json_load jc_back_lines = Ok raw) as [raw Hraw].
  { runs. }
  destruct (bc_try_malformed more_fs default_table "pre" "back_1.jc"
              jc_back_lines raw) as (_ & Hformat & _); [evaluates | done |].
  assert (raw = VDict [(VStr "1", VFloat (Dec 65 1));
                       (VStr "2", VFloat (Dec 725 2))]) as Hitems.
  { assert (Ok raw = json_load jc_back_lines) as Heq by done.
    vm_compute in Heq. by injection Heq. }
  apply (Hformat _ Hitems); [evaluates|].
  intros kv Hin. repeat (apply elem_of_cons in Hin as [-> | Hin]; [evaluates|]).
  by apply elem_of_nil in Hin.
Defined.

#[local] Existing Instance collaborators.

(** A run is the triple of its parts. *)
Ltac is_run := unfold score; by destruct (main _ _ _ _ _ _ _) as [[? ?] ?].

Ltac is_call := apply (bool_decide_unpack _); vm_compute; exact I.

(** X19 at a run with back-calculated files and no conformers: the
    optimizer is not called and the run raises [UnboundLocalError]. *)
Lemma main_needs_both_inputs_witness :
  (∀ ens_size nres o,
     (CXEISD ens_size nres, o) ∉ calls_of (score None (Some "back")))
  ∧ (score None (Some "back")).2 = Raise UnboundLocalError.
Proof.
  destruct (main_needs_both_inputs "data" 10 None (Some "back") 1
              "__tmpscore__" [] (score None (Some "back")).1.1
              (score None (Some "back")).1.2 (score None (Some "back")).2)
    as (Hnever & _ & Hraises).
  - is_run.
  - by left.
  - split; [exact Hnever | apply Hraises; evaluates].
Defined.

(** X20 at a run on an archive: [tmpdir] is removed. *)
Lemma main_removes_tmpdir_witness :
  ∃ o, (Crmtree "__tmpscore__", o)
       ∈ calls_of (score (Some "ensemble.tar") (Some "back")).
Proof.
  destruct (main_removes_tmpdir "data" 10 (Some "ensemble.tar") (Some "back")
              1 "__tmpscore__" []
              (score (Some "ensemble.tar") (Some "back")).1.1
              (score (Some "ensemble.tar") (Some "back")).1.2
              (score (Some "ensemble.tar") (Some "back")).2)
    as [_ Hremoved].
  - is_run.
  - apply (Hremoved "ensemble.tar" 2); is_call.
Defined.

(** X21 at a run on an archive without back-calculated files: the
    exception is [main]'s own, after the experimental call. *)
Lemma main_exceptions_witness :
  last (calls_of (score (Some "ensemble.tar") None))
  = Some (Cparse_data "exp", Returned)
  ∧ (score (Some "ensemble.tar") None).2 = Raise UnboundLocalError.
Proof.
  assert ((score (Some "ensemble.tar") None).2 = Raise UnboundLocalError)
    as Hraises by evaluates.
  destruct (main_exceptions "data" 10 (Some "ensemble.tar") None 1
              "__tmpscore__" []
              (score (Some "ensemble.tar") None).1.1
              (score (Some "ensemble.tar") None).1.2 UnboundLocalError)
    as [[c Hlast] | (c & Hlast & _)].
  - rewrite <- Hraises. is_run.
  - exfalso. vm_compute in Hlast. discriminate Hlast.
  - split; [evaluates | exact Hraises].
Defined.

(** X22 at a run on a folder of conformers: the archive reader fails,
    the bundle is read, and [tmpdir] is left alone. *)
Lemma main_falls_back_to_bundle_witness :
  (Cread_path_bundle "ensemble", Returned)
  ∈ calls_of (score (Some "ensemble") (Some "back"))
  ∧ ∀ d o, (Crmtree d, o) ∉ calls_of (score (Some "ensemble") (Some "back")).
Proof.
  assert ((Cread_path_bundle "ensemble", Returned)
          ∈ calls_of (score (Some "ensemble") (Some "back"))) as Hread
    by is_call.
  split; [exact Hread|].
  destruct (main_falls_back_to_bundle "data" 10 (Some "ensemble")
              (Some "back") 1 "__tmpscore__" []
              (score (Some "ensemble") (Some "back")).1.1
              (score (Some "ensemble") (Some "back")).1.2
              (score (Some "ensemble") (Some "back")).2)
    as (_ & _ & Hkept).
  - is_run.
  - exact (Hkept "ensemble" Returned Hread).
Defined.

(** X23 at two names for the back-calculated folder. *)
Lemma main_reads_back_files_as_flag_witness :
  score (Some "ensemble.tar") (Some "back")
  = score (Some "ensemble.tar") (Some "elsewhere").
Proof.
  apply main_reads_back_files_as_flag; [reflexivity|].
  split; discriminate.
Defined.

(** X24 at a complete run: the back-calculated call was made, and it
    returned. *)
Lemma main_back_call_returns_witness :
  (Cparse_data "bc", Returned)
  ∈ calls_of (score (Some "ensemble.tar") (Some "back"))
  ∧ ∀ o, (Cparse_data "bc", o)
         ∈ calls_of (score (Some "ensemble.tar") (Some "back")) →
      o = Returned.
Proof.
  split; [is_call|].
  destruct (main_back_call_returns "data" 10 (Some "ensemble.tar")
              (Some "back") 1 "__tmpscore__" []
              (score (Some "ensemble.tar") (Some "back")).1.1
              (score (Some "ensemble.tar") (Some "back")).1.2
              (score (Some "ensemble.tar") (Some "back")).2)
    as [Hreturns _].
  - is_run.
  - differs.
  - intros o Hin. by destruct (Hreturns o Hin).
Defined.
